(** * Workout Spotify Companion: interval planning, session timing and
      song counting

    A shallow embedding of the timing core of the application:

    - [Plan]     : [src/hooks/useIntervalPlan.ts]
    - [Session]  : [src/hooks/useIntervalSession.ts]
    - [Observer] : [src/hooks/useCurrentlyPlaying.ts] (both revisions)
    - [Counter]  : [useSongCounterSession]
    - [Auth]     : [src/context/AuthContext.tsx], [scheduleRefresh],
                   [refreshAccessToken], the start-up effect, and
                   [lib/tokenStorage.ts]
    - [Pkce]     : [src/lib/pkce.ts], [generateCodeVerifier]
    - [Callback] : the effect of [SpotifyCallbackPage]

    Conventions.  Millisecond quantities, timestamps and counters are JS
    numbers that only ever hold integers here; they are modelled as [Z].
    The one place where a fractional or non-finite number can be received
    (the slice length read back from storage) is modelled by [Plan.number],
    whose finite values are exact rationals; where the source computes
    with such numbers (the length of a legacy slice) the operands are
    binary64 primitive floats.  [Date.now()] is an explicit
    [now] argument of every operation that reads the clock.  React state
    written through [setState] and objects held in [useRef] cells are the
    fields of one explicit state record per hook, threaded through the
    operations. *)

From Stdlib Require Import ZArith QArith Qround Qabs Qminmax List String Bool Lia Lqa.
From Stdlib Require Import PrimFloat.
From Stdlib Require FloatOps SpecFloat.
Import ListNotations.

Local Open Scope Z_scope.

(* ================================================================== *)
(** ** Interval plan model ([useIntervalPlan.ts]) *)

Module Plan.

Record IntervalPlan := mkPlan {
  totalMinutes : Z;
  includeThirtySeconds : bool;
  sliceLengthSeconds : Z
}.

Record TimelineSlice := mkSlice {
  index : Z;
  durationMs : Z;
  startMs : Z;
  endMs : Z;
  isRemainder : bool;
  skipAfter : bool
}.

Record IntervalStats := mkStats {
  totalDurationMs : Z;
  baseSliceDurationMs : Z;
  fullSlices : Z;
  remainderMs : Z;
  timeline : list TimelineSlice;
  skipCount : Z
}.

Definition SLICE_OPTIONS_SECONDS : list Z := [30; 60; 90; 120; 150; 180; 210].

Definition DEFAULT_PLAN : IntervalPlan :=
  {| totalMinutes := 10; includeThirtySeconds := false; sliceLengthSeconds := 120 |}.

(** A JS number as [sanitizeSliceSeconds] can receive it: a finite value
    (taken as an exact rational; binary rounding of the division is not
    modelled) or one of the three values [Number.isFinite] rejects. *)
Inductive number :=
| Finite (q : Q)
| NaN
| PosInfinity
| NegInfinity.

Definition isFinite (v : number) : bool :=
  match v with Finite _ => true | _ => false end.

(** [Math.round]: nearest integer, halves rounded towards +infinity. *)
Definition Math_round (q : Q) : Z := Qfloor (q + (1 # 2))%Q.

(** [Array.prototype.includes] on a list of integers. *)
Definition includes (l : list Z) (x : Z) : bool := existsb (Z.eqb x) l.

Definition sanitizeSliceSeconds (value : number) : Z :=
  match value with
  | Finite q =>
      let normalized := Z.max 30 (Z.min 210 (Math_round (q / 30)%Q * 30)) in
      if includes SLICE_OPTIONS_SECONDS normalized
      then normalized
      else sliceLengthSeconds DEFAULT_PLAN
  | _ => sliceLengthSeconds DEFAULT_PLAN
  end.

Definition totalMs (plan : IntervalPlan) : Z :=
  (totalMinutes plan * 60 + (if includeThirtySeconds plan then 30 else 0)) * 1000.

(** The body of the [for] loop of [computeTimeline], [fuel] iterations
    starting at [index] with the running offset [currentStart]. *)
Fixpoint timelineLoop (fuel : nat) (index currentStart : Z)
    (slicesToCreate remainderMs sliceMs : Z) : list TimelineSlice :=
  match fuel with
  | O => []
  | S fuel' =>
      let isLast := index =? slicesToCreate - 1 in
      let isRemainder := isLast && (0 <? remainderMs) in
      let durationMs := if isRemainder then remainderMs else sliceMs in
      let startMs := currentStart in
      let endMs := startMs + durationMs in
      {| index := index; durationMs := durationMs; startMs := startMs;
         endMs := endMs; isRemainder := isRemainder; skipAfter := negb isLast |}
      :: timelineLoop fuel' (index + 1) endMs slicesToCreate remainderMs sliceMs
  end.

(** [computeTimeline].  [Math.floor (a / b)] is [Z.div] for [b <> 0].  The
    loop [for (index = 0; index < slicesToCreate; index++)] runs
    [Z.to_nat slicesToCreate] times (not at all for a negative bound).
    For [sliceMs = 0] the source divides by zero and its loop bound is
    infinite; the model is only meaningful for [sliceMs <> 0]. *)
Definition computeTimeline (plan : IntervalPlan) : IntervalStats :=
  let totalDurationMs := totalMs plan in
  let sliceMs := sliceLengthSeconds plan * 1000 in
  if totalDurationMs <=? 0 then
    {| totalDurationMs := 0; baseSliceDurationMs := sliceMs; fullSlices := 0;
       remainderMs := 0; timeline := []; skipCount := 0 |}
  else
    let fullSlices := totalDurationMs / sliceMs in
    let remainderMs := totalDurationMs - fullSlices * sliceMs in
    let slicesToCreate :=
      fullSlices + (if (0 <? remainderMs) || (fullSlices =? 0) then 1 else 0) in
    let timeline :=
      timelineLoop (Z.to_nat slicesToCreate) 0 0 slicesToCreate remainderMs sliceMs in
    {| totalDurationMs := totalDurationMs; baseSliceDurationMs := sliceMs;
       fullSlices := fullSlices; remainderMs := remainderMs;
       timeline := timeline;
       skipCount := Z.max 0 (Z.of_nat (List.length timeline) - 1) |}.

(** Properties of a timeline the specification talks about. *)
Definition contiguous (tl : list TimelineSlice) : Prop :=
  forall i a b, nth_error tl i = Some a -> nth_error tl (S i) = Some b ->
                endMs a = startMs b.

Definition sumDurations (tl : list TimelineSlice) : Z :=
  fold_right (fun s acc => durationMs s + acc) 0 tl.

Definition onlyLastKeepsPlaying (tl : list TimelineSlice) : Prop :=
  forall i a, nth_error tl i = Some a ->
              (skipAfter a = false <-> S i = List.length tl).

(** [clampMinutes] on a number. *)
Definition clampMinutes (value : number) : Z :=
  match value with
  | Finite q => Z.max 0 (Qfloor q)
  | _ => 0
  end.

(** A value read from parsed JSON, as far as the hook distinguishes:
    [null]/[undefined], a number, or anything else (a string, a boolean,
    an object), for which [Number.isFinite] and [typeof v === 'number']
    are both false. *)
Inductive JsValue :=
| JNullish
| JNumber (n : number)
| JOther.

(** [clampMinutes (v ?? fallback)] for a value out of storage. *)
Definition clampMinutesOr (v : JsValue) (fallback : Z) : Z :=
  match v with
  | JNullish => clampMinutes (Finite (inject_Z fallback))
  | JNumber n => clampMinutes n
  | JOther => 0
  end.

(** A JS number that takes part in arithmetic is an IEEE 754 binary64
    value, here a primitive [float], whose operations round as the
    source's do.  [numberOfFloat] is the number a double stands for: its
    exact value when it is finite. *)
Definition numberOfFloat (f : float) : number :=
  match FloatOps.Prim2SF f with
  | SpecFloat.S754_zero _ => Finite 0
  | SpecFloat.S754_infinity false => PosInfinity
  | SpecFloat.S754_infinity true => NegInfinity
  | SpecFloat.S754_nan => NaN
  | SpecFloat.S754_finite negative m e =>
      Finite (inject_Z (if negative then Z.neg m else Z.pos m) * Qpower 2 e)%Q
  end.

(** The double 60 and the double 0. *)
Definition float60 : float := 60%float.
Definition float0 : float := 0%float.

(** Arithmetic of JS numbers, as far as [migrateLegacyPlan] uses it:
    [x * 60] and [a + b] on doubles. *)
Definition numTimes60 (x : float) : float := PrimFloat.mul x float60.

Definition numPlus (a b : float) : float := PrimFloat.add a b.

(** One entry of the legacy [slices] array; the fields are numbers when
    present (values of other types are outside the model). *)
Record RawSlice := mkRawSlice {
  minutes : option float;
  seconds : option float
}.

(** The fields of a parsed object that [migrateLegacyPlan] reads. *)
Record RawObject := mkRawObject {
  raw_sliceLengthSeconds : JsValue;
  raw_totalMinutes : JsValue;
  raw_includeThirtySeconds : bool;          (* [Boolean (raw.includeThirtySeconds)] *)
  raw_slices : option (list (option RawSlice));  (* [None]: not an array *)
  raw_totalSeconds : JsValue
}.

(** What [JSON.parse] returned: a falsy value or a non-object, or an
    object. *)
Inductive Raw :=
| RawNotObject
| RawObj (o : RawObject).

Definition numberOr0 (v : option float) : float :=
  match v with Some n => n | None => float0 end.

Definition migrateLegacyPlan (raw : Raw) : option IntervalPlan :=
  match raw with
  | RawNotObject => None
  | RawObj o =>
      match raw_sliceLengthSeconds o with
      | JNumber n =>
          Some {| totalMinutes := clampMinutesOr (raw_totalMinutes o) (totalMinutes DEFAULT_PLAN);
                  includeThirtySeconds := raw_includeThirtySeconds o;
                  sliceLengthSeconds := sanitizeSliceSeconds n |}
      | _ =>
          match raw_slices o with
          | Some (firstSlice :: _) =>
              let totalMinutes := clampMinutesOr (raw_totalMinutes o) 10 in
              let totalSeconds := clampMinutesOr (raw_totalSeconds o) 0 in
              let totalHasThirty := 30 <=? totalSeconds in
              let inferredSliceSeconds :=
                sanitizeSliceSeconds
                  (numberOfFloat
                     (numPlus
                        (numTimes60
                           (numberOr0 (match firstSlice with
                                       | Some sl => minutes sl
                                       | None => None
                                       end)))
                        (numberOr0 (match firstSlice with
                                    | Some sl => seconds sl
                                    | None => None
                                    end)))) in
              Some {| totalMinutes := totalMinutes;
                      includeThirtySeconds := totalHasThirty;
                      sliceLengthSeconds := inferredSliceSeconds |}
          | _ => None
          end
      end
  end.

(** The item under [STORAGE_KEY]: absent (or the empty string), text
    that [JSON.parse] rejects, or text it accepts. *)
Inductive Stored :=
| StoredNothing
| StoredUnparsable
| StoredJson (raw : Raw).

Definition loadPlan (hasWindow : bool) (stored : Stored) : IntervalPlan :=
  if negb hasWindow then DEFAULT_PLAN
  else
    match stored with
    | StoredNothing => DEFAULT_PLAN
    | StoredUnparsable => DEFAULT_PLAN
    | StoredJson raw =>
        match migrateLegacyPlan raw with
        | Some migrated => migrated
        | None => DEFAULT_PLAN
        end
    end.

(** What the persisting effect leaves in storage:
    [JSON.stringify (plan)] read back by [JSON.parse]. *)
Definition persisted (plan : IntervalPlan) : Stored :=
  StoredJson (RawObj {| raw_sliceLengthSeconds :=
                          JNumber (Finite (inject_Z (sliceLengthSeconds plan)));
                        raw_totalMinutes := JNumber (Finite (inject_Z (totalMinutes plan)));
                        raw_includeThirtySeconds := includeThirtySeconds plan;
                        raw_slices := None;
                        raw_totalSeconds := JNullish |}).

(** The setters of [useIntervalPlan]. *)
Definition incrementMinutes (prev : IntervalPlan) : IntervalPlan :=
  {| totalMinutes := clampMinutes (Finite (inject_Z (totalMinutes prev + 1)));
     includeThirtySeconds := includeThirtySeconds prev;
     sliceLengthSeconds := sliceLengthSeconds prev |}.

Definition decrementMinutes (prev : IntervalPlan) : IntervalPlan :=
  {| totalMinutes := clampMinutes (Finite (inject_Z (Z.max 0 (totalMinutes prev - 1))));
     includeThirtySeconds := includeThirtySeconds prev;
     sliceLengthSeconds := sliceLengthSeconds prev |}.

Definition setIncludeThirtySeconds (value : bool) (prev : IntervalPlan) : IntervalPlan :=
  {| totalMinutes := totalMinutes prev;
     includeThirtySeconds := value;
     sliceLengthSeconds := sliceLengthSeconds prev |}.

Definition selectSliceLength (seconds : number) (prev : IntervalPlan) : IntervalPlan :=
  {| totalMinutes := totalMinutes prev;
     includeThirtySeconds := includeThirtySeconds prev;
     sliceLengthSeconds := sanitizeSliceSeconds seconds |}.

Definition resetPlan (prev : IntervalPlan) : IntervalPlan := DEFAULT_PLAN.

Inductive PlanAction :=
| IncrementMinutes
| DecrementMinutes
| SetIncludeThirtySeconds (value : bool)
| SelectSliceLength (seconds : number)
| ResetPlan.

Definition applyAction (a : PlanAction) (prev : IntervalPlan) : IntervalPlan :=
  match a with
  | IncrementMinutes => incrementMinutes prev
  | DecrementMinutes => decrementMinutes prev
  | SetIncludeThirtySeconds value => setIncludeThirtySeconds value prev
  | SelectSliceLength seconds => selectSliceLength seconds prev
  | ResetPlan => resetPlan prev
  end.

(** The invariant of the data model: whole, non-negative minutes and a
    slice length out of the enumerated options. *)
Definition validPlan (plan : IntervalPlan) : Prop :=
  0 <= totalMinutes plan /\ In (sliceLengthSeconds plan) SLICE_OPTIONS_SECONDS.

(** The specification's reading of sanitization: clamp the input to
    [30, 210] seconds first, then round to the nearest multiple of 30. *)
Definition clampSeconds (q : Q) : Q := Qmax 30 (Qmin 210 q).

Definition snapToOption (q : Q) : Z := Math_round (clampSeconds q / 30)%Q * 30.

(** [r] is at least as close to [q] as every enumerated option. *)
Definition distance (z : Z) (q : Q) : Q := Qabs (inject_Z z - q)%Q.

Definition nearestOption (r : Z) (q : Q) : Prop :=
  Forall (fun o => (distance r q <= distance o q)%Q) SLICE_OPTIONS_SECONDS.

End Plan.

(* ================================================================== *)
(** ** Credential and proactive refresh ([AuthContext.tsx]) *)

Module Auth.

Record AuthTokens := mkTokens {
  accessToken : string;
  refreshToken : option string;
  expiresAt : Z;
  scope : string;
  tokenType : string
}.

Definition REFRESH_BUFFER_MS : Z := 60000.
Definition MIN_REFRESH_DELAY_MS : Z := 5000.

(** JS truthiness of a string and of an optional string. *)
Definition truthy (s : string) : bool := negb (String.eqb s EmptyString).

Definition truthyOpt (s : option string) : bool :=
  match s with Some s' => truthy s' | None => false end.

(** [tokens?.accessToken] used as a condition. *)
Definition hasAccessToken (tokens : option AuthTokens) : bool :=
  match tokens with Some t => truthy (accessToken t) | None => false end.

(** What a call of [scheduleRefresh] does besides updating the timer
    cell: nothing, [runRefresh] at once, or [window.setTimeout] with the
    given delay. *)
Inductive RefreshAction :=
| NoRefresh
| RefreshNow
| RefreshAfter (delay : Z).

(** [refreshTimeoutRef]: the pending refresh timer, by its due time. *)
Record RefreshTimer := mkRefreshTimer { dueAt : Z }.

(** [scheduleRefresh current], called at time [now]; [hasWindow] is
    [typeof window !== 'undefined'].  The previous timer is cleared before
    anything else is decided. *)
Definition scheduleRefresh (hasWindow : bool) (now : Z) (current : AuthTokens)
    (refreshTimeoutRef : option RefreshTimer) : option RefreshTimer * RefreshAction :=
  if negb hasWindow then (refreshTimeoutRef, NoRefresh)
  else
    let cleared : option RefreshTimer := None in
    if negb (truthyOpt (refreshToken current)) then (cleared, NoRefresh)
    else
      let msUntilExpiry := expiresAt current - now in
      if msUntilExpiry <=? REFRESH_BUFFER_MS then (cleared, RefreshNow)
      else
        let delay := Z.max (msUntilExpiry - REFRESH_BUFFER_MS) MIN_REFRESH_DELAY_MS in
        (Some {| dueAt := now + delay |}, RefreshAfter delay).

(** The token endpoint's answer as [refreshAccessToken] reads it; a body
    that is not JSON counts as the empty object. *)
Record TokenPayload := mkTokenPayload {
  access_token : string;
  refresh_token : option string;
  expires_in : option Z;
  payload_scope : option string;
  token_type : option string;
  error_description : option string
}.

Record TokenResponse := mkTokenResponse {
  response_ok : bool;
  payload : TokenPayload
}.

(** How [refreshAccessToken] ends: it returns [null] without touching
    anything (no window), resolves with the tokens it has applied, or
    throws after clearing the held tokens. *)
Inductive RefreshResult :=
| RefreshSkipped
| Refreshed (next : AuthTokens)
| RefreshFailed (message : string).

Definition orDefault {A} (a : option A) (b : A) : A :=
  match a with Some x => x | None => b end.

(** [refreshAccessToken current]; [now] is the clock when the response
    has arrived.  Without a refresh token no request is made. *)
Definition refreshAccessToken (hasWindow : bool) (now : Z) (current : AuthTokens)
    (response : TokenResponse) : RefreshResult :=
  if negb hasWindow then RefreshSkipped
  else if negb (truthyOpt (refreshToken current)) then
    RefreshFailed "No refresh token available"%string
  else if negb (response_ok response) then
    RefreshFailed (orDefault (error_description (payload response))
                             "Failed to refresh Spotify token."%string)
  else
    Refreshed
      {| accessToken := access_token (payload response);
         refreshToken :=
           match refresh_token (payload response) with
           | Some r => Some r
           | None => refreshToken current
           end;
         expiresAt := now + orDefault (expires_in (payload response)) 3600 * 1000;
         scope := orDefault (payload_scope (payload response)) (scope current);
         tokenType := orDefault (token_type (payload response)) (tokenType current) |}.

(** The tokens held after a refresh: the new ones, none after a failure,
    the old ones when nothing was done. *)
Definition tokensAfterRefresh (current : AuthTokens) (r : RefreshResult) : option AuthTokens :=
  match r with
  | RefreshSkipped => Some current
  | Refreshed next => Some next
  | RefreshFailed _ => None
  end.

(** The stored item as [loadTokens] sees it ([lib/tokenStorage.ts]). *)
Record RawTokens := mkRawTokens {
  raw_accessToken : option string;
  raw_refreshToken : option string;
  raw_expiresAt : option Z;
  raw_scope : string;
  raw_tokenType : string
}.

Inductive StoredCredential :=
| CredentialAbsent                          (* no item, or the empty string *)
| CredentialUnparsable                      (* [JSON.parse] throws *)
| CredentialJson (parsed : option RawTokens).   (* [None]: JSON [null] *)

Definition loadTokens (hasWindow : bool) (stored : StoredCredential) : option AuthTokens :=
  if negb hasWindow then None
  else
    match stored with
    | CredentialJson (Some parsed) =>
        match raw_accessToken parsed, raw_expiresAt parsed with
        | Some a, Some e =>
            if negb (truthy a) || (e =? 0) then None
            else Some {| accessToken := a; refreshToken := raw_refreshToken parsed;
                         expiresAt := e; scope := raw_scope parsed;
                         tokenType := raw_tokenType parsed |}
        | _, _ => None
        end
    | _ => None
    end.

(** [saveTokens] followed by reading the item back. *)
Definition savedTokens (tokens : AuthTokens) : StoredCredential :=
  CredentialJson (Some {| raw_accessToken := Some (accessToken tokens);
                          raw_refreshToken := refreshToken tokens;
                          raw_expiresAt := Some (expiresAt tokens);
                          raw_scope := scope tokens;
                          raw_tokenType := tokenType tokens |}).

(** What the start-up effect of [AuthProvider] decides to do. *)
Inductive StartupAction :=
| NoCredential
| UseStored (stored : AuthTokens)
| RefreshFirst (stored : AuthTokens)
| ClearStorage.

Definition startup (hasWindow : bool) (now : Z) (stored : StoredCredential) : StartupAction :=
  if negb hasWindow then NoCredential
  else
    match loadTokens hasWindow stored with
    | None => NoCredential
    | Some t =>
        if now + REFRESH_BUFFER_MS <? expiresAt t then UseStored t
        else if truthyOpt (refreshToken t) then RefreshFirst t
        else ClearStorage
    end.

End Auth.

(* ================================================================== *)
(** ** PKCE code verifier ([lib/pkce.ts]) *)

Module Pkce.

Definition PKCE_CHARSET : string :=
  "ABCDEFGHIJKLMNOPQRSTUVWXYZabcdefghijklmnopqrstuvwxyz0123456789-._~"%string.

(** [PKCE_CHARSET[value % PKCE_CHARSET.length]] as [join] renders it:
    an index out of range would contribute the empty string. *)
Definition charFor (value : nat) : string :=
  match String.get (value mod String.length PKCE_CHARSET) PKCE_CHARSET with
  | Some c => String c EmptyString
  | None => EmptyString
  end.

(** [generateCodeVerifier length]; [randomValues] are the bytes that
    [crypto.getRandomValues] wrote into the array of that length. *)
Definition generateCodeVerifier (length : Z) (randomValues : list nat) : string + string :=
  if (length <? 43) || (128 <? length) then
    inl "PKCE code verifier length must be between 43 and 128 characters."%string
  else inr (String.concat EmptyString (map charFor randomValues)).

End Pkce.

(* ================================================================== *)
(** ** The authorization callback ([SpotifyCallbackPage]) *)

Module Callback.

(** What the effect of the callback page arrives at before any request:
    an error message (and whether the stored PKCE state is cleared), or
    the exchange of the code with the stored verifier. *)
Inductive Decision :=
| Reject (message : string) (clearsStoredState : bool)
| Exchange (code verifier : string).

Definition optEqb (a b : option string) : bool :=
  match a, b with
  | Some x, Some y => String.eqb x y
  | None, None => true
  | _, _ => false
  end.

(** [callbackError], [code] and [state] come from the query string,
    [verifier] and [storedState] from session storage; [None] is
    [null]. *)
Definition decide (callbackError code state verifier storedState : option string) : Decision :=
  if Auth.truthyOpt callbackError then
    Reject (match callbackError with
            | Some e => if String.eqb e "access_denied"
                        then "You cancelled the Spotify sign-in."%string else e
            | None => EmptyString
            end) true
  else if negb (Auth.truthyOpt code) then
    Reject "Missing authorization code from Spotify." false
  else if negb (Auth.truthyOpt verifier) then
    Reject "No code verifier found. Please try signing in again." false
  else if negb (Auth.truthyOpt state) || negb (Auth.truthyOpt storedState)
          || negb (optEqb state storedState) then
    Reject "State mismatch detected. We stopped the login attempt for security reasons." true
  else Exchange (Auth.orDefault code EmptyString) (Auth.orDefault verifier EmptyString).

End Callback.

(* ================================================================== *)
(** ** Live playback observer ([useCurrentlyPlaying]) *)

Module Observer.

(** The part of the "currently playing" payload the hook reads. *)
Inductive ArtistsField :=
| ArtistsMissing                       (* [Array.isArray (item.artists)] is false *)
| ArtistsArray (names : list string).  (* the [name] of each element *)

Record Image := mkImage { url : option string }.

Record Album := mkAlbum {
  album_name : option string;          (* [null]/[undefined] is [None] *)
  images : option (list Image)
}.

Record Item := mkItem {
  id : string;
  name : string;
  artists : ArtistsField;
  album : option Album;
  duration_ms : option Z
}.

Record Payload := mkPayload {
  error_message : option string;       (* [payload?.error?.message] *)
  item : option Item;                  (* [payload?.item], falsy is [None] *)
  is_playing : bool;                   (* [Boolean (payload.is_playing)] *)
  progress_ms : option Z
}.

(** An HTTP response; [json = None] when [response.json ()] rejects, with
    the message of the error it rejects with. *)
Record Response := mkResponse {
  status : Z;
  ok : bool;
  json : option Payload;
  json_error : string
}.

(** The awaited [fetch]: it rejects (network failure) or resolves. *)
Inductive FetchResult :=
| Rejected (message : string)
| Resolved (response : Response).

Record CurrentTrack := mkTrack {
  trackId : string;
  trackName : string;
  artistNames : string;
  albumName : string;
  albumArtUrl : option string;
  isPlaying : bool;
  progressMs : Z;
  durationMs : Z;
  updatedAt : Z
}.

Record HookState := mkHook {
  track : option CurrentTrack;
  error : option string;
  isLoading : bool;
  initialized : bool
}.

Definition INITIAL_STATE : HookState :=
  {| track := None; error := None; isLoading := false; initialized := false |}.

Definition DEFAULT_POLL_INTERVAL : Z := 5000.

(** [a ?? b]. *)
Definition orElse {A} (a : option A) (b : A) : A :=
  match a with Some x => x | None => b end.

(** [item.album?.images?.[0]?.url]. *)
Definition firstImageUrl (a : option Album) : option string :=
  match a with
  | Some al =>
      match images al with
      | Some (im :: _) => url im
      | _ => None
      end
  | None => None
  end.

(** The object literal [nextTrack] of [fetchCurrentTrack]. *)
Definition buildTrack (now : Z) (p : Payload) (it : Item) : CurrentTrack :=
  {| trackId := id it;
     trackName := name it;
     artistNames :=
       match artists it with
       | ArtistsArray names => String.concat ", " names
       | ArtistsMissing => "Unknown artist"%string
       end;
     albumName :=
       orElse (match album it with Some al => album_name al | None => None end)
              "Unknown album"%string;
     albumArtUrl := firstImageUrl (album it);
     isPlaying := is_playing p;
     progressMs := orElse (progress_ms p) 0;
     durationMs := orElse (duration_ms it) 0;
     updatedAt := now |}.

(** What one run of [fetchCurrentTrack] arrives at before it touches the
    hook state: the three [setState] sites of the [try] block and the
    [catch] block. *)
Inductive Outcome :=
| NoTrack
| Track (t : CurrentTrack)
| Failure (message : string).

Definition normalize (now : Z) (r : FetchResult) : Outcome :=
  match r with
  | Rejected message => Failure message
  | Resolved response =>
      if status response =? 204 then NoTrack
      else if negb (ok response) then
        Failure (orElse (match json response with
                         | Some p => error_message p
                         | None => None
                         end)
                        "Failed to load current Spotify track."%string)
      else
        match json response with
        | None => Failure (json_error response)
        | Some p =>
            match item p with
            | None => NoTrack
            | Some it => Track (buildTrack now p it)
            end
        end
  end.

Definition optStringEqb (a b : option string) : bool :=
  match a, b with
  | Some x, Some y => String.eqb x y
  | None, None => true
  | _, _ => false
  end.

Definition isNone {A} (a : option A) : bool :=
  match a with None => true | Some _ => false end.

(** The state update of the revision that carries [trackId]: each
    [setState (prev => ...)] of [fetchCurrentTrack], guarded by
    [isActive]. *)
Definition applyOutcome (isActive : bool) (o : Outcome) (prev : HookState) : HookState :=
  if negb isActive then prev
  else
    match o with
    | NoTrack =>
        if negb (initialized prev) then
          {| track := None; error := None; isLoading := false; initialized := true |}
        else if isNone (track prev) && isNone (error prev) && negb (isLoading prev)
        then prev
        else {| track := None; error := None; isLoading := false; initialized := true |}
    | Track nextTrack =>
        (* both branches of the coalescing test store [nextTrack] *)
        {| track := Some nextTrack; error := None; isLoading := false;
           initialized := true |}
    | Failure message =>
        if optStringEqb (error prev) (Some message) && isNone (track prev)
           && initialized prev
        then prev
        else {| track := None; error := Some message; isLoading := false;
                initialized := true |}
    end.

(** The [setState] that precedes the request: the loading flag is raised
    only before the first result. *)
Definition beginFetch (prev : HookState) : HookState :=
  if initialized prev then prev
  else {| track := track prev; error := error prev; isLoading := true;
          initialized := initialized prev |}.

Definition fetchCurrentTrack (isActive : bool) (now : Z) (r : FetchResult)
    (prev : HookState) : HookState :=
  applyOutcome isActive (normalize now r) (beginFetch prev).

(** A sequence of polls: for each, whether the effect is still active
    when the response arrives, the time of arrival and the response. *)
Definition pollAll (polls : list (bool * Z * FetchResult)) (prev : HookState) : HookState :=
  fold_left (fun st '(isActive, now, r) => fetchCurrentTrack isActive now r st) polls prev.

(** The earlier revision ([hooks/useCurrentlyPlaying.ts]): the same
    normalisation, without [trackId], and plain [setState] calls. *)
Module Legacy.

Record CurrentTrack := mkTrack {
  trackName : string;
  artistNames : string;
  albumName : string;
  albumArtUrl : option string;
  isPlaying : bool;
  progressMs : Z;
  durationMs : Z;
  updatedAt : Z
}.

Record HookState := mkHook {
  track : option CurrentTrack;
  error : option string;
  isLoading : bool;
  initialized : bool
}.

Definition buildTrack (now : Z) (p : Payload) (it : Item) : CurrentTrack :=
  {| trackName := name it;
     artistNames :=
       match artists it with
       | ArtistsArray names => String.concat ", " names
       | ArtistsMissing => "Unknown artist"%string
       end;
     albumName :=
       orElse (match album it with Some al => album_name al | None => None end)
              "Unknown album"%string;
     albumArtUrl := firstImageUrl (album it);
     isPlaying := is_playing p;
     progressMs := orElse (progress_ms p) 0;
     durationMs := orElse (duration_ms it) 0;
     updatedAt := now |}.

Definition settled (t : option CurrentTrack) (e : option string) : HookState :=
  {| track := t; error := e; isLoading := false; initialized := true |}.

Definition beginFetch (prev : HookState) : HookState :=
  if isNone (track prev) && isNone (error prev) && negb (isLoading prev)
  then {| track := track prev; error := error prev; isLoading := true;
          initialized := initialized prev |}
  else prev.

Definition fetchCurrentTrack (isActive : bool) (now : Z) (r : FetchResult)
    (prev0 : HookState) : HookState :=
  let prev := beginFetch prev0 in
  let set (s : HookState) := if isActive then s else prev in
  match r with
  | Rejected message => set (settled None (Some message))
  | Resolved response =>
      if status response =? 204 then set (settled None None)
      else if negb (ok response) then
        set (settled None
               (Some (orElse (match json response with
                              | Some p => error_message p
                              | None => None
                              end)
                             "Failed to load current Spotify track."%string)))
      else
        match json response with
        | None => set (settled None (Some (json_error response)))
        | Some p =>
            match item p with
            | None => set (settled None None)
            | Some it => set (settled (Some (buildTrack now p it)) None)
            end
        end
  end.

End Legacy.

End Observer.

(* ================================================================== *)
(** ** Interval session driver ([useIntervalSession.ts]) *)

Module Session.

Inductive SessionStatus := idle | running | completed.

Record SessionState := mkState {
  status : SessionStatus;
  startedAt : option Z;
  currentSliceIndex : Z
}.

Definition CLEANUP_INTERVAL_MS : Z := 500.

(** A pending [window.setTimeout] of [startSession].  The callback is a
    closure over the slice, its index and the timeline it was created
    from; what it reads of them is recorded here. *)
Record Timer := mkTimer {
  timerId : Z;
  dueAt : Z;                 (* scheduling time + [slice.endMs] *)
  sliceIndex : Z;            (* [index] *)
  sliceSkipAfter : bool;     (* [slice.skipAfter] *)
  timelineLength : Z;        (* [stats.timeline.length] of the closure *)
  canSkip : bool             (* [tokens?.accessToken] seen by [skipTrack] *)
}.

(** The hook together with the part of the browser it acts on. *)
Record Driver := mkDriver {
  state : SessionState;
  now : Z;                       (* the [now] state cell *)
  timersRef : list Z;            (* ids pushed by [startSession] *)
  tickRef : option Z;            (* id of the display tick *)
  pending : list Timer;          (* the window's live timeouts *)
  ticking : option Z;            (* the window's live interval, if any *)
  nextId : Z                     (* next id the window hands out *)
}.

Definition initial : Driver :=
  {| state := {| status := idle; startedAt := None; currentSliceIndex := 0 |};
     now := 0; timersRef := []; tickRef := None; pending := []; ticking := None;
     nextId := 1 |}.

(** [window.clearTimeout id]. *)
Definition clearTimeout (id : Z) (p : list Timer) : list Timer :=
  filter (fun t => negb (timerId t =? id)) p.

Definition clearTimers (d : Driver) : Driver :=
  {| state := state d; now := now d;
     timersRef := [];
     tickRef := tickRef d;
     pending := fold_left (fun p id => clearTimeout id p) (timersRef d) (pending d);
     ticking := ticking d; nextId := nextId d |}.

Definition clearTicker (d : Driver) : Driver :=
  match tickRef d with
  | Some id =>
      {| state := state d; now := now d; timersRef := timersRef d;
         tickRef := None; pending := pending d;
         ticking := match ticking d with
                    | Some id' => if id' =? id then None else Some id'
                    | None => None
                    end;
         nextId := nextId d |}
  | None => d
  end.

Definition setState (s : SessionState) (d : Driver) : Driver :=
  {| state := s; now := now d; timersRef := timersRef d; tickRef := tickRef d;
     pending := pending d; ticking := ticking d; nextId := nextId d |}.

Definition stopSession (d : Driver) : Driver :=
  setState {| status := idle; startedAt := None; currentSliceIndex := 0 |}
           (clearTicker (clearTimers d)).

(** One turn of [stats.timeline.forEach]: [window.setTimeout] and the push
    of the id it returns. *)
Definition scheduleSlice (canSkipNow : bool) (startTime len : Z)
    (d : Driver) (slice : Plan.TimelineSlice) (index : Z) : Driver :=
  {| state := state d; now := now d;
     timersRef := timersRef d ++ [nextId d];
     tickRef := tickRef d;
     pending := pending d ++
       [{| timerId := nextId d; dueAt := startTime + Plan.endMs slice;
           sliceIndex := index; sliceSkipAfter := Plan.skipAfter slice;
           timelineLength := len; canSkip := canSkipNow |}];
     ticking := ticking d; nextId := nextId d + 1 |}.

Fixpoint scheduleAll (canSkipNow : bool) (startTime len : Z)
    (slices : list Plan.TimelineSlice) (index : Z) (d : Driver) : Driver :=
  match slices with
  | [] => d
  | slice :: rest =>
      scheduleAll canSkipNow startTime len rest (index + 1)
                  (scheduleSlice canSkipNow startTime len d slice index)
  end.

(** [startSession], called at wall-clock time [startTime]. *)
Definition startSession (tokens : option Auth.AuthTokens) (stats : Plan.IntervalStats)
    (startTime : Z) (d : Driver) : Driver :=
  if negb (Auth.hasAccessToken tokens) || (Z.of_nat (List.length (Plan.timeline stats)) =? 0)
  then d
  else
    let d1 := clearTicker (clearTimers d) in
    let d2 := setState {| status := running; startedAt := Some startTime;
                          currentSliceIndex := 0 |} d1 in
    let d3 := {| state := state d2; now := startTime; timersRef := timersRef d2;
                 tickRef := Some (nextId d2); pending := pending d2;
                 ticking := Some (nextId d2); nextId := nextId d2 + 1 |} in
    scheduleAll (Auth.hasAccessToken tokens) startTime
                (Z.of_nat (List.length (Plan.timeline stats)))
                (Plan.timeline stats) 0 d3.

(** Requests that leave the hook. *)
Inductive Command := SkipToNext.

(** The callback of a slice timer. *)
Definition sliceCallback (t : Timer) (d : Driver) : Driver * list Command :=
  let prev := state d in
  let next :=
    match startedAt prev with
    | None => prev
    | Some _ =>
        let nextIndex := Z.min (sliceIndex t + 1) (timelineLength t - 1) in
        let isLast := sliceIndex t =? timelineLength t - 1 in
        {| status := if isLast then completed else running;
           startedAt := startedAt prev;
           currentSliceIndex := if isLast then sliceIndex t else nextIndex |}
    end in
  let d1 := setState next d in
  let cmds := if sliceSkipAfter t && canSkip t then [SkipToNext] else [] in
  let d2 := if sliceIndex t =? timelineLength t - 1 then clearTicker d1 else d1 in
  (d2, cmds).

(** The browser fires the timeout [id]: only a live one can fire, and it
    leaves the window's table when it does. *)
Definition fire (id : Z) (d : Driver) : option (Driver * list Command) :=
  match find (fun t => timerId t =? id) (pending d) with
  | None => None
  | Some t =>
      Some (sliceCallback t
              {| state := state d; now := now d; timersRef := timersRef d;
                 tickRef := tickRef d; pending := clearTimeout id (pending d);
                 ticking := ticking d; nextId := nextId d |})
  end.

(** The effect [useEffect (() => { stopSession () },
    [stats.timeline.length, stats.totalDurationMs, stopSession])] on a
    render that replaces [prevStats] by [nextStats]: React runs it again
    only when one of its dependencies changed; [stopSession] is a stable
    callback. *)
Definition timelineEffect (prevStats nextStats : Plan.IntervalStats) (d : Driver) : Driver :=
  if (List.length (Plan.timeline prevStats) =? List.length (Plan.timeline nextStats))%nat
     && (Plan.totalDurationMs prevStats =? Plan.totalDurationMs nextStats)
  then d
  else stopSession d.

(** The effect that stops a running session when the credential is gone. *)
Definition credentialEffect (tokens : option Auth.AuthTokens) (d : Driver) : Driver :=
  match status (state d) with
  | running => if Auth.hasAccessToken tokens then d else stopSession d
  | _ => d
  end.

(** [nextSkipInMs]. *)
Definition nextSkipInMs (stats : Plan.IntervalStats) (d : Driver) : option Z :=
  match startedAt (state d),
        (if currentSliceIndex (state d) <? 0 then None
         else nth_error (Plan.timeline stats) (Z.to_nat (currentSliceIndex (state d)))) with
  | Some started, Some currentSlice =>
      if Plan.skipAfter currentSlice
      then Some (Z.max 0 (started + Plan.endMs currentSlice - now d))
      else None
  | _, _ => None
  end.

(** Every live slice timer is one the hook still holds the id of. *)
Definition timersTracked (d : Driver) : Prop :=
  forall t, In t (pending d) -> In (timerId t) (timersRef d).

(** The cleanup of the hook on teardown. *)
Definition unmount (d : Driver) : Driver := clearTicker (clearTimers d).

(** Everything that can happen to a driver: the two buttons, the browser
    firing a timeout, the effects and the teardown. *)
Inductive Event :=
| EStart (tokens : option Auth.AuthTokens) (stats : Plan.IntervalStats) (startTime : Z)
| EStop
| EFire (id : Z)
| ETimelineEffect (prevStats nextStats : Plan.IntervalStats)
| ECredentialEffect (tokens : option Auth.AuthTokens)
| EUnmount.

Definition step (e : Event) (d : Driver) : Driver :=
  match e with
  | EStart tokens stats startTime => startSession tokens stats startTime d
  | EStop => stopSession d
  | EFire id => match fire id d with Some (d', _) => d' | None => d end
  | ETimelineEffect prevStats nextStats => timelineEffect prevStats nextStats d
  | ECredentialEffect tokens => credentialEffect tokens d
  | EUnmount => unmount d
  end.

Definition run (events : list Event) (d : Driver) : Driver :=
  fold_left (fun acc e => step e acc) events d.

(** The browser fires the timeouts [ids] one after the other; the skip
    requests they issue are collected in order. *)
Fixpoint fireAll (ids : list Z) (d : Driver) : Driver * list Command :=
  match ids with
  | [] => (d, [])
  | id :: rest =>
      match fire id d with
      | Some (d', cmds) => let '(d'', cmds') := fireAll rest d' in (d'', cmds ++ cmds')
      | None => fireAll rest d
      end
  end.

(** The timer table is in order: every live timer is tracked, ids are
    distinct and already handed out, and each callback's index lies
    within its timeline. *)
Definition timersOk (d : Driver) : Prop :=
  timersTracked d /\
  NoDup (map timerId (pending d)) /\
  Forall (fun t => timerId t < nextId d /\ 0 <= sliceIndex t < timelineLength t)
         (pending d).

(** What holds of every driver the hook can get into. *)
Definition wellFormed (d : Driver) : Prop :=
  timersTracked d /\
  NoDup (map timerId (pending d)) /\
  Forall (fun t => timerId t < nextId d /\ 0 <= sliceIndex t < timelineLength t)
         (pending d) /\
  tickRef d = ticking d /\
  (status (state d) = idle <-> startedAt (state d) = None) /\
  0 <= currentSliceIndex (state d).

End Session.

(* ================================================================== *)
(** ** Song completion counter ([useSongCounterSession]) *)

Module Counter.

Import Observer.

Inductive SongCounterStatus := idle | running.

Module CompletedSong.
Record t := mk {
  trackId : string;
  trackName : string;
  artistNames : string;
  durationMs : Z
}.
End CompletedSong.

Module ActiveTrackSnapshot.
Record t := mk {
  trackId : string;
  trackName : string;
  artistNames : string;
  durationMs : Z;
  startProgressMs : Z;
  latestProgressMs : Z
}.
End ActiveTrackSnapshot.

Record SongCounterState := mkState {
  status : SongCounterStatus;
  songsCompleted : Z;
  totalElapsedMs : Z;
  lastSong : option CompletedSong.t;
  error : option string
}.

Definition INITIAL_STATE : SongCounterState :=
  {| status := idle; songsCompleted := 0; totalElapsedMs := 0;
     lastSong := None; error := None |}.

(** The hook: its state cell, its two refs and the busy flag. *)
Record Hook := mkHook {
  state : SongCounterState;
  activeTrackRef : option ActiveTrackSnapshot.t;
  lastFinalizedTrackIdRef : option string;
  isBusy : bool
}.

Definition initial : Hook :=
  {| state := INITIAL_STATE; activeTrackRef := None;
     lastFinalizedTrackIdRef := None; isBusy := false |}.

Definition getLiveProgress (now : Z) (track : CurrentTrack) : Z :=
  let drift := if isPlaying track then Z.max 0 (now - updatedAt track) else 0 in
  let estimated := progressMs track + drift in
  Z.min (durationMs track) (Z.max 0 estimated).

Definition withState (f : SongCounterState -> SongCounterState) (h : Hook) : Hook :=
  {| state := f (state h); activeTrackRef := activeTrackRef h;
     lastFinalizedTrackIdRef := lastFinalizedTrackIdRef h; isBusy := isBusy h |}.

Definition withRefs (a : option ActiveTrackSnapshot.t) (l : option string) (h : Hook) : Hook :=
  {| state := state h; activeTrackRef := a; lastFinalizedTrackIdRef := l;
     isBusy := isBusy h |}.

Definition setIsBusy (b : bool) (h : Hook) : Hook :=
  {| state := state h; activeTrackRef := activeTrackRef h;
     lastFinalizedTrackIdRef := lastFinalizedTrackIdRef h; isBusy := b |}.

Definition setError (e : option string) (s : SongCounterState) : SongCounterState :=
  {| status := status s; songsCompleted := songsCompleted s;
     totalElapsedMs := totalElapsedMs s; lastSong := lastSong s; error := e |}.

Definition setStatus (st : SongCounterStatus) (s : SongCounterState) : SongCounterState :=
  {| status := st; songsCompleted := songsCompleted s;
     totalElapsedMs := totalElapsedMs s; lastSong := lastSong s; error := error s |}.

Definition clearError (h : Hook) : Hook :=
  withState (fun prev => match error prev with
                         | Some _ => setError None prev
                         | None => prev
                         end) h.

(** [playedMs] as [finalizeActiveTrack] computes it. *)
Definition playedMsOf (overrideProgressMs : option Z) (snapshot : ActiveTrackSnapshot.t) : Z :=
  let latest := match overrideProgressMs with
                | Some o => o
                | None => ActiveTrackSnapshot.latestProgressMs snapshot
                end in
  let cappedLatest :=
    Z.min (ActiveTrackSnapshot.durationMs snapshot)
          (Z.max (ActiveTrackSnapshot.startProgressMs snapshot) latest) in
  Z.max 0 (cappedLatest - ActiveTrackSnapshot.startProgressMs snapshot).

Definition recordOf (snapshot : ActiveTrackSnapshot.t) (playedMs : Z) : CompletedSong.t :=
  {| CompletedSong.trackId := ActiveTrackSnapshot.trackId snapshot;
     CompletedSong.trackName := ActiveTrackSnapshot.trackName snapshot;
     CompletedSong.artistNames := ActiveTrackSnapshot.artistNames snapshot;
     CompletedSong.durationMs := playedMs |}.

Definition finalizeActiveTrack (overrideProgressMs : option Z) (h : Hook) : Hook :=
  match activeTrackRef h with
  | None => h
  | Some snapshot =>
      let playedMs := playedMsOf overrideProgressMs snapshot in
      let h1 := withRefs None (Some (ActiveTrackSnapshot.trackId snapshot)) h in
      if playedMs <=? 0 then h1
      else
        withState (fun prev =>
          {| status := status prev;
             songsCompleted := songsCompleted prev + 1;
             totalElapsedMs := totalElapsedMs prev + playedMs;
             lastSong := Some (recordOf snapshot playedMs);
             error := error prev |}) h1
  end.

Definition beginTracking (now : Z) (currentTrack : CurrentTrack) (h : Hook) : Hook :=
  let liveProgress := getLiveProgress now currentTrack in
  withRefs
    (Some {| ActiveTrackSnapshot.trackId := trackId currentTrack;
             ActiveTrackSnapshot.trackName := trackName currentTrack;
             ActiveTrackSnapshot.artistNames := artistNames currentTrack;
             ActiveTrackSnapshot.durationMs := durationMs currentTrack;
             ActiveTrackSnapshot.startProgressMs := liveProgress;
             ActiveTrackSnapshot.latestProgressMs := liveProgress |})
    None h.

Definition isPlayingTrack (track : option CurrentTrack) : option CurrentTrack :=
  match track with
  | Some t => if isPlaying t then Some t else None
  | None => None
  end.

Definition start (now : Z) (tokens : option Auth.AuthTokens)
    (track : option CurrentTrack) (h : Hook) : Hook :=
  match isPlayingTrack track with
  | None =>
      withState (setError (Some "Start playback in Spotify before counting songs."%string)) h
  | Some t =>
      if negb (Auth.hasAccessToken tokens) then
        withState (setError (Some "Spotify access expired. Reconnect and try again."%string)) h
      else
        beginTracking now t
          (withState (fun _ => {| status := running; songsCompleted := 0;
                                  totalElapsedMs := 0; lastSong := None;
                                  error := None |}) h)
  end.

Definition stop (h : Hook) : Hook :=
  match status (state h) with
  | idle => h
  | running =>
      withState (setStatus idle)
        (setIsBusy false (withRefs None None (finalizeActiveTrack None h)))
  end.

(** How the awaited skip request ends: [fetch] resolves (whatever the
    HTTP status, which [skip] does not read) or rejects. *)
Inductive SkipResult :=
| SkipResolved (httpStatus : Z)
| SkipRejected.

(** [skip] up to the [await]: the flag tells whether the request was
    issued. *)
Definition skipBefore (now : Z) (tokens : option Auth.AuthTokens)
    (track : option CurrentTrack) (h : Hook) : Hook * bool :=
  match status (state h) with
  | idle => (h, false)
  | running =>
      let h1 := match track with
                | Some current => finalizeActiveTrack (Some (getLiveProgress now current)) h
                | None => finalizeActiveTrack None h
                end in
      if negb (Auth.hasAccessToken tokens) then (h1, false)
      else (clearError (setIsBusy true h1), true)
  end.

(** [skip] after the [await]: the [catch] and [finally] blocks. *)
Definition skipAfterwards (r : SkipResult) (h : Hook) : Hook :=
  let h1 := match r with
            | SkipRejected =>
                withState (setError
                  (Some "Could not skip track. Check your Spotify app and try again."%string)) h
            | SkipResolved _ => h
            end in
  setIsBusy false h1.

Definition skip (now : Z) (tokens : option Auth.AuthTokens)
    (track : option CurrentTrack) (r : SkipResult) (h : Hook) : Hook :=
  let '(h1, issued) := skipBefore now tokens track h in
  if issued then skipAfterwards r h1 else h1.

(** The effect that processes a snapshot (a change of [track] or of the
    status), run at time [now]. *)
Definition onSnapshot (now : Z) (track : option CurrentTrack) (h : Hook) : Hook :=
  match status (state h) with
  | idle => h
  | running =>
      match track with
      | None => withRefs None None (finalizeActiveTrack None h)
      | Some t =>
          if optStringEqb (lastFinalizedTrackIdRef h) (Some (trackId t))
             && isNone (activeTrackRef h)
          then h
          else
            match activeTrackRef h with
            | None => beginTracking now t h
            | Some active =>
                if String.eqb (ActiveTrackSnapshot.trackId active) (trackId t) then
                  withRefs
                    (Some {| ActiveTrackSnapshot.trackId := ActiveTrackSnapshot.trackId active;
                             ActiveTrackSnapshot.trackName := trackName t;
                             ActiveTrackSnapshot.artistNames := artistNames t;
                             ActiveTrackSnapshot.durationMs := durationMs t;
                             ActiveTrackSnapshot.startProgressMs :=
                               ActiveTrackSnapshot.startProgressMs active;
                             ActiveTrackSnapshot.latestProgressMs := getLiveProgress now t |})
                    (lastFinalizedTrackIdRef h) h
                else beginTracking now t (finalizeActiveTrack None h)
            end
      end
  end.

(** The effect that stops the counter when the credential is gone. *)
Definition credentialEffect (tokens : option Auth.AuthTokens) (h : Hook) : Hook :=
  match status (state h) with
  | running => if Auth.hasAccessToken tokens then h else stop h
  | idle => h
  end.

(** Everything that can happen to a counter: the user's three buttons,
    the two halves of a skip, the effects and the error banner. *)
Inductive Event :=
| EStart (now : Z) (tokens : option Auth.AuthTokens) (track : option CurrentTrack)
| EStop
| ESkipBefore (now : Z) (tokens : option Auth.AuthTokens) (track : option CurrentTrack)
| ESkipAfterwards (r : SkipResult)
| ESnapshot (now : Z) (track : option CurrentTrack)
| ECredential (tokens : option Auth.AuthTokens)
| EClearError
| EUnmount.

Definition step (e : Event) (h : Hook) : Hook :=
  match e with
  | EStart now tokens track => start now tokens track h
  | EStop => stop h
  | ESkipBefore now tokens track => fst (skipBefore now tokens track h)
  | ESkipAfterwards r => skipAfterwards r h
  | ESnapshot now track => onSnapshot now track h
  | ECredential tokens => credentialEffect tokens h
  | EClearError => clearError h
  | EUnmount => finalizeActiveTrack None h
  end.

Definition isStart (e : Event) : bool :=
  match e with EStart _ _ _ => true | _ => false end.

Definition run (events : list Event) (h : Hook) : Hook :=
  fold_left (fun acc e => step e acc) events h.

(** The fields of the returned session that are derived on each
    render. *)
Definition canStart (tokens : option Auth.AuthTokens) (track : option CurrentTrack)
    (h : Hook) : bool :=
  Auth.hasAccessToken tokens
  && match track with Some t => isPlaying t | None => false end
  && match status (state h) with idle => true | running => false end.

Definition isWaitingForPlayback (track : option CurrentTrack) (h : Hook) : bool :=
  match status (state h) with
  | running => match track with Some t => negb (isPlaying t) | None => true end
  | idle => false
  end.

Definition whileRunning (f : ActiveTrackSnapshot.t -> Z) (h : Hook) : option Z :=
  match activeTrackRef h, status (state h) with
  | Some snapshot, running => Some (f snapshot)
  | _, _ => None
  end.

Definition currentElapsedMs (h : Hook) : option Z :=
  whileRunning (fun snapshot =>
    Z.max 0 (ActiveTrackSnapshot.latestProgressMs snapshot
             - ActiveTrackSnapshot.startProgressMs snapshot)) h.

Definition remainingMs (h : Hook) : option Z :=
  whileRunning (fun snapshot =>
    Z.max 0 (ActiveTrackSnapshot.durationMs snapshot
             - ActiveTrackSnapshot.latestProgressMs snapshot)) h.

Definition afterSongMs (h : Hook) : option Z :=
  whileRunning (fun snapshot =>
    totalElapsedMs (state h)
    + Z.max 0 (ActiveTrackSnapshot.durationMs snapshot
               - ActiveTrackSnapshot.startProgressMs snapshot)) h.

(** What holds of every counter the hook can get into. *)
Definition consistent (h : Hook) : Prop :=
  0 <= songsCompleted (state h) <= totalElapsedMs (state h) /\
  (songsCompleted (state h) = 0 <-> lastSong (state h) = None) /\
  (forall song, lastSong (state h) = Some song ->
     0 < CompletedSong.durationMs song <= totalElapsedMs (state h)) /\
  (status (state h) = idle -> activeTrackRef h = None) /\
  (activeTrackRef h <> None -> lastFinalizedTrackIdRef h = None).

(** The specification's reading of the finalization rule:
    [clamp (x, lo, hi)] confines [x] to the interval from [lo] to [hi]. *)
Definition clamp (x lo hi : Z) : Z := Z.max lo (Z.min x hi).

(** The specification's reading of [getLiveProgress]: the elapsed
    wall-clock time is added while playing and the sum is clamped; a
    paused track's progress is returned as it is. *)
Definition specLiveProgress (now : Z) (track : CurrentTrack) : Z :=
  if isPlaying track
  then clamp (progressMs track + (now - updatedAt track)) 0 (durationMs track)
  else progressMs track.

(** Either nothing was counted, or exactly one song with a positive
    played time. *)
Definition countedAtMostOne (before after : SongCounterState) : Prop :=
  (songsCompleted after = songsCompleted before /\
   totalElapsedMs after = totalElapsedMs before /\
   lastSong after = lastSong before)
  \/ (exists playedMs, 0 < playedMs /\
        songsCompleted after = songsCompleted before + 1 /\
        totalElapsedMs after = totalElapsedMs before + playedMs).

End Counter.

(* ================================================================== *)
(** ** Concrete inputs used by the examples and counterexamples *)

(** A paused snapshot whose payload carried no [duration_ms], so that
    [durationMs] is 0, observed at time 1000 with 5000 ms of progress. *)
Definition pausedNoDuration : Observer.CurrentTrack :=
  Observer.buildTrack 1000
    {| Observer.error_message := None;
       Observer.item := None;
       Observer.is_playing := false;
       Observer.progress_ms := Some 5000 |}
    {| Observer.id := "t1"; Observer.name := "Song";
       Observer.artists := Observer.ArtistsMissing;
       Observer.album := None; Observer.duration_ms := None |}.

(** A credential, and a counter that has been following [playingAhead]
    from 10 s into the track and has seen it reach its end. *)
Definition sampleTokens : option Auth.AuthTokens :=
  Some {| Auth.accessToken := "token"; Auth.refreshToken := Some "refresh"%string;
          Auth.expiresAt := 3600000; Auth.scope := ""; Auth.tokenType := "Bearer" |}.

Definition sampleAccumulator : Counter.ActiveTrackSnapshot.t :=
  {| Counter.ActiveTrackSnapshot.trackId := "t2";
     Counter.ActiveTrackSnapshot.trackName := "Song";
     Counter.ActiveTrackSnapshot.artistNames := "A";
     Counter.ActiveTrackSnapshot.durationMs := 200000;
     Counter.ActiveTrackSnapshot.startProgressMs := 10000;
     Counter.ActiveTrackSnapshot.latestProgressMs := 200000 |}.

Definition sampleCounting : Counter.Hook :=
  {| Counter.state :=
       {| Counter.status := Counter.running; Counter.songsCompleted := 0;
          Counter.totalElapsedMs := 0; Counter.lastSong := None;
          Counter.error := None |};
     Counter.activeTrackRef := Some sampleAccumulator;
     Counter.lastFinalizedTrackIdRef := None;
     Counter.isBusy := false |}.

(** A playing snapshot stamped 2000 ms later than the clock reads now. *)
Definition playingAhead : Observer.CurrentTrack :=
  {| Observer.trackId := "t2"; Observer.trackName := "Song";
     Observer.artistNames := "A"; Observer.albumName := "B";
     Observer.albumArtUrl := None; Observer.isPlaying := true;
     Observer.progressMs := 10000; Observer.durationMs := 200000;
     Observer.updatedAt := 3000 |}.

(** A successful response whose item lists no artist at all. *)
Definition emptyArtistsResponse : Observer.Response :=
  {| Observer.status := 200; Observer.ok := true;
     Observer.json :=
       Some {| Observer.error_message := None;
               Observer.item :=
                 Some {| Observer.id := "t3"; Observer.name := "Untitled";
                         Observer.artists := Observer.ArtistsArray [];
                         Observer.album :=
                           Some {| Observer.album_name := None;
                                   Observer.images := None |};
                         Observer.duration_ms := Some 180000 |};
               Observer.is_playing := true;
               Observer.progress_ms := Some 0 |};
     Observer.json_error := "" |}.

(** Three and a half minutes in slices of 180 s, edited to slices of
    150 s: the boundaries move from 180 s to 150 s, while the number of
    slices and the total duration stay the same. *)
Definition statsBeforeEdit : Plan.IntervalStats := Plan.computeTimeline (Plan.mkPlan 3 true 180).
Definition statsAfterEdit : Plan.IntervalStats := Plan.computeTimeline (Plan.mkPlan 3 true 150).

Definition runningBeforeEdit : Session.Driver :=
  Session.startSession sampleTokens statsBeforeEdit 0 Session.initial.

(* ================================================================== *)
(** * Properties *)

(** ** The scenarios of the specification *)

Example computeTimeline_10min :
  map Plan.durationMs (Plan.timeline (Plan.computeTimeline Plan.DEFAULT_PLAN))
  = [120000; 120000; 120000; 120000; 120000].
Proof. reflexivity. Qed.

Example computeTimeline_3min30 :
  map (fun s => (Plan.durationMs s, Plan.skipAfter s, Plan.isRemainder s))
      (Plan.timeline (Plan.computeTimeline (Plan.mkPlan 3 true 60)))
  = [(60000, true, false); (60000, true, false); (60000, true, false);
     (30000, false, true)].
Proof. reflexivity. Qed.

Example sanitize_45 : Plan.sanitizeSliceSeconds (Plan.Finite 45) = 60.
Proof. reflexivity. Qed.

Example sanitize_1000 : Plan.sanitizeSliceSeconds (Plan.Finite 1000) = 210.
Proof. reflexivity. Qed.

Example sanitize_neg : Plan.sanitizeSliceSeconds (Plan.Finite (-7 # 2)) = 30.
Proof. reflexivity. Qed.

(** ** The timeline of a plan *)

Section TimelineLoop.

Variables n r s : Z.

Lemma timelineLoop_length (k : nat) (i c : Z) :
  List.length (Plan.timelineLoop k i c n r s) = k.
Proof.
  revert i c; induction k as [|k IH]; intros i c; simpl; [reflexivity|].
  now rewrite IH.
Qed.

Lemma timelineLoop_S (k : nat) (i c : Z) :
  Plan.timelineLoop (S k) i c n r s
  = {| Plan.index := i;
       Plan.durationMs := (if (i =? n - 1) && (0 <? r) then r else s);
       Plan.startMs := c;
       Plan.endMs := c + (if (i =? n - 1) && (0 <? r) then r else s);
       Plan.isRemainder := (i =? n - 1) && (0 <? r);
       Plan.skipAfter := negb (i =? n - 1) |}
    :: Plan.timelineLoop k (i + 1)
         (c + (if (i =? n - 1) && (0 <? r) then r else s)) n r s.
Proof. reflexivity. Qed.

Lemma sumDurations_cons (a : Plan.TimelineSlice) (l : list Plan.TimelineSlice) :
  Plan.sumDurations (a :: l) = Plan.durationMs a + Plan.sumDurations l.
Proof. reflexivity. Qed.

(** The slice at position [j] of a loop that stays within its bound. *)
Lemma timelineLoop_nth (k : nat) :
  forall (i c : Z) (j : nat) (a : Plan.TimelineSlice),
    i + Z.of_nat k <= n ->
    nth_error (Plan.timelineLoop k i c n r s) j = Some a ->
    Plan.index a = i + Z.of_nat j /\
    Plan.startMs a = c + Z.of_nat j * s /\
    Plan.endMs a = Plan.startMs a + Plan.durationMs a /\
    Plan.skipAfter a = negb (i + Z.of_nat j =? n - 1) /\
    Plan.durationMs a = (if (i + Z.of_nat j =? n - 1) && (0 <? r) then r else s).
Proof.
  induction k as [|k IH]; intros i c j a Hb Hn.
  - destruct j; discriminate.
  - destruct j as [|j]; simpl in Hn.
    + injection Hn as <-. simpl.
      rewrite Z.add_0_r. repeat split; lia.
    + assert (Hk1 : (j < k)%nat).
      { rewrite <- (timelineLoop_length k (i + 1)
                      (c + (if (i =? n - 1) && (0 <? r) then r else s))).
        apply nth_error_Some. congruence. }
      assert (Hne : (i =? n - 1) = false) by (apply Z.eqb_neq; lia).
      apply IH in Hn; [|lia].
      destruct Hn as (Hi & Hs & He & Hk & Hd).
      rewrite Hne in Hs. simpl in Hs.
      replace (i + 1 + Z.of_nat j) with (i + Z.of_nat (S j)) in * by lia.
      repeat split; try assumption. lia.
Qed.

Lemma timelineLoop_sum (k : nat) :
  forall (i c : Z),
    i + Z.of_nat (S k) = n ->
    Plan.sumDurations (Plan.timelineLoop (S k) i c n r s)
    = Z.of_nat k * s + (if 0 <? r then r else s).
Proof.
  induction k as [|k IH]; intros i c Hb.
  - simpl. assert (He : (i =? n - 1) = true) by (apply Z.eqb_eq; lia).
    rewrite He. simpl. destruct (0 <? r); lia.
  - rewrite timelineLoop_S, sumDurations_cons, IH by lia.
    assert (Hne : (i =? n - 1) = false) by (apply Z.eqb_neq; lia).
    rewrite Hne. simpl Plan.durationMs. lia.
Qed.

End TimelineLoop.

(** The number of slices [computeTimeline] creates, for a positive
    duration and a positive slice length. *)
Lemma slicesToCreate_cases (T s : Z) :
  0 < T -> 0 < s ->
  let f := T / s in
  let r := T - f * s in
  let n := f + (if (0 <? r) || (f =? 0) then 1 else 0) in
  0 <= f /\ 0 <= r < s /\ 1 <= n /\
  ((0 < r /\ n = f + 1) \/ (r = 0 /\ 0 < f /\ n = f)).
Proof.
  intros HT Hs f r n.
  assert (Hf : 0 <= f) by (apply Z.div_pos; lia).
  assert (Hr : r = T mod s) by (unfold r, f; rewrite Z.mod_eq by lia; lia).
  assert (Hm : 0 <= T mod s < s) by (apply Z.mod_pos_bound; lia).
  assert (Hrs : 0 <= r < s) by lia.
  unfold n.
  destruct (0 <? r) eqn:E; simpl.
  - apply Z.ltb_lt in E.
    split; [lia|]. split; [lia|]. split; [lia|]. left; lia.
  - apply Z.ltb_ge in E. assert (r = 0) by lia.
    assert (0 < f) by (unfold r in *; nia).
    assert (Hz : (f =? 0) = false) by (apply Z.eqb_neq; lia).
    rewrite Hz.
    split; [lia|]. split; [lia|]. split; [lia|]. right; lia.
Qed.

(** C1.  For every plan with a positive slice length whose total duration
    is greater than 0, [computeTimeline] returns a non-empty timeline
    whose slices are contiguous, whose durations add up to
    [totalDurationMs], and in which [skipAfter] is false for exactly one
    slice, the last; the number of slices is [fullSlices + 1] when there
    is a remainder or no full slice, and [fullSlices] otherwise. *)
Theorem computeTimeline_timeline_sound (plan : Plan.IntervalPlan) :
  0 < Plan.sliceLengthSeconds plan ->
  0 < Plan.totalMs plan ->
  let stats := Plan.computeTimeline plan in
  Plan.totalDurationMs stats = Plan.totalMs plan /\
  Plan.timeline stats <> [] /\
  Plan.contiguous (Plan.timeline stats) /\
  Plan.sumDurations (Plan.timeline stats) = Plan.totalDurationMs stats /\
  Plan.onlyLastKeepsPlaying (Plan.timeline stats) /\
  Z.of_nat (List.length (Plan.timeline stats))
  = Plan.fullSlices stats
    + (if (0 <? Plan.remainderMs stats) || (Plan.fullSlices stats =? 0) then 1 else 0).
Proof.
  intros Hs HT. unfold Plan.computeTimeline.
  assert (Hle : (Plan.totalMs plan <=? 0) = false) by (apply Z.leb_gt; lia).
  rewrite Hle. cbv zeta. simpl.
  set (T := Plan.totalMs plan) in *.
  set (s := Plan.sliceLengthSeconds plan * 1000).
  assert (Hs' : 0 < s) by (unfold s; lia).
  destruct (slicesToCreate_cases T s HT Hs') as (Hf & Hr & Hn & Hcase).
  set (f := T / s) in *. set (r := T - f * s) in *.
  set (n := f + (if (0 <? r) || (f =? 0) then 1 else 0)) in *.
  assert (Hlen : List.length (Plan.timelineLoop (Z.to_nat n) 0 0 n r s) = Z.to_nat n)
    by apply timelineLoop_length.
  assert (Hbound : 0 + Z.of_nat (Z.to_nat n) <= n) by lia.
  split; [reflexivity|].
  split.
  { intro E. rewrite E in Hlen. simpl in Hlen. lia. }
  split.
  { intros i a b Ha Hb.
    assert (Hi : (S i < Z.to_nat n)%nat).
    { rewrite <- Hlen. apply nth_error_Some. congruence. }
    destruct (timelineLoop_nth n r s _ _ _ _ _ Hbound Ha) as (_ & Has & Hae & _ & Had).
    destruct (timelineLoop_nth n r s _ _ _ _ _ Hbound Hb) as (_ & Hbs & _).
    assert (Hne : (0 + Z.of_nat i =? n - 1) = false) by (apply Z.eqb_neq; lia).
    rewrite Hne in Had. simpl in Had. lia. }
  split.
  { destruct (Z.to_nat n) as [|k] eqn:Ek; [lia|].
    rewrite (timelineLoop_sum n r s k 0 0) by lia.
    destruct Hcase as [(Hr0 & Hnf) | (Hr0 & Hf0 & Hnf)].
    - assert (E : (0 <? r) = true) by (apply Z.ltb_lt; lia). rewrite E.
      assert (Z.of_nat k = f) by lia. unfold r in *. lia.
    - assert (E : (0 <? r) = false) by (apply Z.ltb_ge; lia). rewrite E.
      assert (Z.of_nat k = f - 1) by lia. unfold r in *. lia. }
  split.
  { intros i a Ha. rewrite Hlen.
    assert (Hi : (i < Z.to_nat n)%nat).
    { rewrite <- Hlen. apply nth_error_Some. congruence. }
    destruct (timelineLoop_nth n r s _ _ _ _ _ Hbound Ha) as (_ & _ & _ & Hk & _).
    rewrite Hk. split.
    - intro E. apply negb_false_iff, Z.eqb_eq in E. lia.
    - intro E. apply negb_false_iff, Z.eqb_eq. lia. }
  rewrite Hlen. lia.
Qed.

(** The theorem at the plan of 3 minutes 30 seconds in slices of 60 s. *)
Lemma computeTimeline_timeline_sound_witness :
  let plan := Plan.mkPlan 3 true 60 in
  let stats := Plan.computeTimeline plan in
  Plan.totalDurationMs stats = Plan.totalMs plan /\
  Plan.timeline stats <> [] /\
  Plan.contiguous (Plan.timeline stats) /\
  Plan.sumDurations (Plan.timeline stats) = Plan.totalDurationMs stats /\
  Plan.onlyLastKeepsPlaying (Plan.timeline stats) /\
  Z.of_nat (List.length (Plan.timeline stats))
  = Plan.fullSlices stats
    + (if (0 <? Plan.remainderMs stats) || (Plan.fullSlices stats =? 0) then 1 else 0).
Proof.
  apply (computeTimeline_timeline_sound (Plan.mkPlan 3 true 60)); reflexivity.
Defined.

(** ** Sanitization of the slice length *)

Lemma Qfloor_unique (x : Q) (z : Z) :
  (inject_Z z <= x)%Q -> (x < inject_Z z + 1)%Q -> Qfloor x = z.
Proof.
  intros Hlo Hhi.
  pose proof (Qfloor_le x) as Hf1. pose proof (Qlt_floor x) as Hf2.
  assert (H1 : (inject_Z (Qfloor x) < inject_Z (z + 1))%Q).
  { rewrite inject_Z_plus. change (inject_Z 1) with 1%Q. lra. }
  assert (H2 : (inject_Z z < inject_Z (Qfloor x + 1))%Q) by lra.
  rewrite <- Zlt_Qlt in H1, H2. lia.
Qed.

Lemma Qdiv30 (q : Q) : (q == 30 * (q / 30))%Q.
Proof. field. Qed.

(** [Math.round (q / 30)] is the [k] with [30k - 15 <= q < 30k + 15]. *)
Lemma Math_round_window (q : Q) :
  let k := inject_Z (Plan.Math_round (q / 30)) in
  (30 * k - 15 <= q /\ q < 30 * k + 15)%Q.
Proof.
  unfold Plan.Math_round.
  pose proof (Qfloor_le (q / 30 + (1 # 2))) as Hlo.
  pose proof (Qlt_floor (q / 30 + (1 # 2))) as Hhi.
  rewrite inject_Z_plus in Hhi. change (inject_Z 1) with 1%Q in Hhi.
  pose proof (Qdiv30 q) as Hq.
  set (y := (q / 30)%Q) in *.
  set (k := inject_Z (Qfloor (y + (1 # 2)))) in *.
  cbv zeta. split; lra.
Qed.

(** What [sanitizeSliceSeconds] returns for a finite input, with the
    window of inputs that lead to each answer. *)
Lemma sanitize_finite_window (q : Q) :
  let r := Plan.sanitizeSliceSeconds (Plan.Finite q) in
  r = Z.max 30 (Z.min 210 (Plan.Math_round (q / 30) * 30)) /\
  ((r = 30 /\ (q < 45)%Q) \/
   (r = 210 /\ (195 <= q)%Q) \/
   ((r = 60 \/ r = 90 \/ r = 120 \/ r = 150 \/ r = 180) /\
    (inject_Z r - 15 <= q /\ q < inject_Z r + 15)%Q)).
Proof.
  unfold Plan.sanitizeSliceSeconds.
  destruct (Math_round_window q) as [Hlo Hhi].
  set (k := Plan.Math_round (q / 30)) in *.
  assert (Hk : k <= 1 \/ k = 2 \/ k = 3 \/ k = 4 \/ k = 5 \/ k = 6 \/ 7 <= k) by lia.
  destruct Hk as [Hk | [Hk | [Hk | [Hk | [Hk | [Hk | Hk]]]]]].
  - assert (E : Z.max 30 (Z.min 210 (k * 30)) = 30) by lia.
    rewrite E. simpl. split; [reflexivity|]. left. split; [reflexivity|].
    assert (inject_Z k <= 1)%Q by (change 1%Q with (inject_Z 1); rewrite <- Zle_Qle; lia).
    lra.
  - assert (E : Z.max 30 (Z.min 210 (k * 30)) = 60) by lia.
    rewrite E, Hk in *. simpl. split; [reflexivity|]. right; right.
    split; [tauto|]. unfold inject_Z in *. lra.
  - assert (E : Z.max 30 (Z.min 210 (k * 30)) = 90) by lia.
    rewrite E, Hk in *. simpl. split; [reflexivity|]. right; right.
    split; [tauto|]. unfold inject_Z in *. lra.
  - assert (E : Z.max 30 (Z.min 210 (k * 30)) = 120) by lia.
    rewrite E, Hk in *. simpl. split; [reflexivity|]. right; right.
    split; [tauto|]. unfold inject_Z in *. lra.
  - assert (E : Z.max 30 (Z.min 210 (k * 30)) = 150) by lia.
    rewrite E, Hk in *. simpl. split; [reflexivity|]. right; right.
    split; [tauto|]. unfold inject_Z in *. lra.
  - assert (E : Z.max 30 (Z.min 210 (k * 30)) = 180) by lia.
    rewrite E, Hk in *. simpl. split; [reflexivity|]. right; right.
    split; [tauto|]. unfold inject_Z in *. lra.
  - assert (E : Z.max 30 (Z.min 210 (k * 30)) = 210) by lia.
    rewrite E. simpl. split; [reflexivity|]. right; left. split; [reflexivity|].
    assert (7 <= inject_Z k)%Q by (change 7%Q with (inject_Z 7); rewrite <- Zle_Qle; lia).
    lra.
Qed.

Lemma Qabs_cases (x : Q) :
  ((0 <= x)%Q /\ Qabs x == x) \/ ((x <= 0)%Q /\ Qabs x == - x).
Proof.
  destruct (Qlt_le_dec x 0) as [H | H].
  - right. split; [lra | apply Qabs_neg; lra].
  - left. split; [exact H | apply Qabs_pos; exact H].
Qed.

Ltac nearest_by_cases :=
  repeat match goal with
         | |- Forall _ (_ :: _) => apply Forall_cons
         | |- Forall _ [] => apply Forall_nil
         end;
  unfold Plan.distance, inject_Z;
  repeat match goal with
         | |- context [Qabs ?x] =>
             let H := fresh "H" in
             let E := fresh "E" in
             destruct (Qabs_cases x) as [[H E] | [H E]]; rewrite E; clear E
         end;
  lra.

Lemma sanitize_finite_nearest (q : Q) :
  Plan.nearestOption (Plan.sanitizeSliceSeconds (Plan.Finite q)) q.
Proof.
  destruct (sanitize_finite_window q) as [_ H].
  set (r := Plan.sanitizeSliceSeconds (Plan.Finite q)) in *.
  unfold Plan.nearestOption, Plan.SLICE_OPTIONS_SECONDS.
  destruct H as [[-> Hq] | [[-> Hq] | [[-> | [-> | [-> | [-> | ->]]]] Hq]]];
    unfold inject_Z in Hq; nearest_by_cases.
Qed.

Lemma clampSeconds_cases (q : Q) :
  ((q <= 30)%Q /\ Plan.clampSeconds q == 30) \/
  ((210 <= q)%Q /\ Plan.clampSeconds q == 210) \/
  ((30 <= q <= 210)%Q /\ Plan.clampSeconds q == q).
Proof.
  unfold Plan.clampSeconds.
  destruct (Q.min_spec 210 q) as [[H1 E1] | [H1 E1]];
    destruct (Q.max_spec 30 (Qmin 210 q)) as [[H2 E2] | [H2 E2]];
    rewrite E1 in *.
  - right; left. split; [lra|]. rewrite E2. reflexivity.
  - lra.
  - right; right. split; [lra|]. rewrite E2. reflexivity.
  - left. split; [lra|]. rewrite E2. reflexivity.
Qed.

Lemma snapToOption_eq (q : Q) (m : Z) :
  (30 * inject_Z m - 15 <= Plan.clampSeconds q)%Q ->
  (Plan.clampSeconds q < 30 * inject_Z m + 15)%Q ->
  Plan.snapToOption q = m * 30.
Proof.
  intros Hlo Hhi. unfold Plan.snapToOption, Plan.Math_round.
  pose proof (Qdiv30 (Plan.clampSeconds q)) as Hq.
  set (y := (Plan.clampSeconds q / 30)%Q) in *.
  rewrite (Qfloor_unique (y + (1 # 2)) m); [reflexivity | lra | lra].
Qed.

Lemma sanitize_finite_snap (q : Q) :
  Plan.sanitizeSliceSeconds (Plan.Finite q) = Plan.snapToOption q.
Proof.
  destruct (sanitize_finite_window q) as [_ H].
  set (r := Plan.sanitizeSliceSeconds (Plan.Finite q)) in *.
  destruct (clampSeconds_cases q) as [[Hc E] | [[Hc E] | [Hc E]]];
    destruct H as [[-> Hq] | [[-> Hq] | [[-> | [-> | [-> | [-> | ->]]]] Hq]]];
    unfold inject_Z in Hq; try lra;
    match goal with
    | |- ?v = _ =>
        let m := eval compute in (v / 30) in
        symmetry; apply (snapToOption_eq q m); unfold inject_Z; lra
    end.
Qed.

(** C5.  For every finite input, [sanitizeSliceSeconds] returns a member
    of the enumerated options that is nearest to the input: the multiple
    of 30 the source computes by rounding and then clamping to [30, 210],
    which is also what clamping first and rounding afterwards gives.
    Every non-finite input is mapped to the default slice length, 120. *)
Theorem sanitizeSliceSeconds_snaps_to_option :
  (forall q : Q,
     let r := Plan.sanitizeSliceSeconds (Plan.Finite q) in
     In r Plan.SLICE_OPTIONS_SECONDS /\
     r = Z.max 30 (Z.min 210 (Plan.Math_round (q / 30) * 30)) /\
     r = Plan.snapToOption q /\
     Plan.nearestOption r q) /\
  Plan.sanitizeSliceSeconds Plan.NaN = 120 /\
  Plan.sanitizeSliceSeconds Plan.PosInfinity = 120 /\
  Plan.sanitizeSliceSeconds Plan.NegInfinity = 120 /\
  Plan.sliceLengthSeconds Plan.DEFAULT_PLAN = 120.
Proof.
  split; [|repeat split].
  intros q r.
  destruct (sanitize_finite_window q) as [Hn H]. fold r in Hn, H.
  split.
  { unfold Plan.SLICE_OPTIONS_SECONDS. simpl.
    destruct H as [[-> _] | [[-> _] | [[-> | [-> | [-> | [-> | ->]]]] _]]]; tauto. }
  split; [exact Hn|].
  split; [apply sanitize_finite_snap | apply sanitize_finite_nearest].
Qed.

(** ** Live progress *)

(** C3, as stated, fails: a paused track is clamped as well (progress
    5000 of a track of duration 0 is reported as 0, not 5000), and a
    clock that reads earlier than the observation does not pull the
    progress back (10000, not 8000). *)
Lemma getLiveProgress_not_spec :
  Counter.getLiveProgress 1000 pausedNoDuration
    <> Counter.specLiveProgress 1000 pausedNoDuration /\
  Counter.getLiveProgress 1000 playingAhead
    <> Counter.specLiveProgress 1000 playingAhead.
Proof. split; vm_compute; discriminate. Qed.

(** C3, amended.  [getLiveProgress] adds to [progressMs] the wall-clock
    time elapsed since the observation while the track is playing (none
    when the clock reads earlier than the observation), adds nothing when
    it is paused, and in both cases clamps the sum to [0, durationMs]; so
    a paused track's progress is returned unmodified exactly when it lies
    within [0, durationMs]. *)
Theorem getLiveProgress_clamped (now : Z) (track : Observer.CurrentTrack) :
  0 <= Observer.durationMs track ->
  let live := Counter.getLiveProgress now track in
  let progress := Observer.progressMs track in
  let duration := Observer.durationMs track in
  let observed := Observer.updatedAt track in
  0 <= live <= duration /\
  (Observer.isPlaying track = true -> observed <= now ->
     live = Counter.clamp (progress + (now - observed)) 0 duration) /\
  (Observer.isPlaying track = true -> now < observed ->
     live = Counter.clamp progress 0 duration) /\
  (Observer.isPlaying track = false ->
     live = Counter.clamp progress 0 duration /\
     (live = progress <-> 0 <= progress <= duration)).
Proof.
  intros Hd. unfold Counter.getLiveProgress, Counter.clamp. cbv zeta.
  destruct (Observer.isPlaying track).
  - split; [lia|]. split; [intros _ ?; lia|]. split; [intros _ ?; lia|].
    discriminate.
  - split; [lia|]. split; [discriminate|]. split; [discriminate|].
    intros _. split; lia.
Qed.

Lemma getLiveProgress_clamped_witness :
  Counter.getLiveProgress 5000 playingAhead = 12000 /\
  Counter.getLiveProgress 1000 playingAhead = 10000.
Proof.
  destruct (getLiveProgress_clamped 5000 playingAhead) as (_ & H1 & _);
    [vm_compute; discriminate|].
  destruct (getLiveProgress_clamped 1000 playingAhead) as (_ & _ & H2 & _);
    [vm_compute; discriminate|].
  split.
  - rewrite H1; [reflexivity | reflexivity | vm_compute; discriminate].
  - rewrite H2; reflexivity.
Defined.

(** ** Finalization and the running totals *)

Section Finalization.

Import Counter.

Lemma playedMsOf_clamp (o : option Z) (snapshot : ActiveTrackSnapshot.t) :
  let latest := match o with
                | Some v => v
                | None => ActiveTrackSnapshot.latestProgressMs snapshot
                end in
  playedMsOf o snapshot
  = clamp latest (ActiveTrackSnapshot.startProgressMs snapshot)
          (ActiveTrackSnapshot.durationMs snapshot)
    - ActiveTrackSnapshot.startProgressMs snapshot.
Proof. unfold playedMsOf, clamp. cbv zeta. lia. Qed.

Lemma playedMsOf_nonneg (o : option Z) (snapshot : ActiveTrackSnapshot.t) :
  0 <= playedMsOf o snapshot.
Proof. unfold playedMsOf. lia. Qed.

(** The two ways [finalizeActiveTrack] ends for an active accumulator. *)
Lemma finalizeActiveTrack_active (o : option Z) (h : Hook) (snapshot : ActiveTrackSnapshot.t) :
  activeTrackRef h = Some snapshot ->
  let h' := finalizeActiveTrack o h in
  let playedMs := playedMsOf o snapshot in
  activeTrackRef h' = None /\
  lastFinalizedTrackIdRef h' = Some (ActiveTrackSnapshot.trackId snapshot) /\
  isBusy h' = isBusy h /\
  (0 < playedMs ->
     state h' = {| status := status (state h);
                   songsCompleted := songsCompleted (state h) + 1;
                   totalElapsedMs := totalElapsedMs (state h) + playedMs;
                   lastSong := Some (recordOf snapshot playedMs);
                   error := error (state h) |}) /\
  (playedMs <= 0 -> state h' = state h).
Proof.
  intros Ha. unfold finalizeActiveTrack. rewrite Ha. cbv zeta.
  destruct (playedMsOf o snapshot <=? 0) eqn:E.
  - apply Z.leb_le in E. repeat split; try reflexivity. lia.
  - apply Z.leb_gt in E. repeat split; try reflexivity. lia.
Qed.

Lemma finalizeActiveTrack_idle (o : option Z) (h : Hook) :
  activeTrackRef h = None -> finalizeActiveTrack o h = h.
Proof. intros Ha. unfold finalizeActiveTrack. now rewrite Ha. Qed.


Lemma finalizeActiveTrack_status (o : option Z) (h : Hook) :
  status (state (finalizeActiveTrack o h)) = status (state h) /\
  error (state (finalizeActiveTrack o h)) = error (state h).
Proof.
  unfold finalizeActiveTrack. destruct (activeTrackRef h); [|tauto].
  destruct (_ <=? 0); simpl; tauto.
Qed.

Lemma finalizeActiveTrack_counted (o : option Z) (h : Hook) :
  countedAtMostOne (state h) (state (finalizeActiveTrack o h)).
Proof.
  destruct (activeTrackRef h) as [snapshot|] eqn:Ha.
  - destruct (finalizeActiveTrack_active o h snapshot Ha) as (_ & _ & _ & Hpos & Hzero).
    destruct (Z_lt_le_dec 0 (playedMsOf o snapshot)) as [Hp | Hp].
    + right. exists (playedMsOf o snapshot). rewrite (Hpos Hp). simpl. tauto.
    + left. rewrite (Hzero Hp). tauto.
  - rewrite finalizeActiveTrack_idle by assumption. left. tauto.
Qed.

Lemma countedAtMostOne_refl (s : SongCounterState) : countedAtMostOne s s.
Proof. left. tauto. Qed.

(** [countedAtMostOne] only looks at the three accounting fields. *)
Lemma countedAtMostOne_same (a b b' : SongCounterState) :
  songsCompleted b' = songsCompleted b ->
  totalElapsedMs b' = totalElapsedMs b ->
  lastSong b' = lastSong b ->
  countedAtMostOne a b -> countedAtMostOne a b'.
Proof.
  intros E1 E2 E3 [(H1 & H2 & H3) | (p & Hp & H1 & H2)].
  - left. repeat split; congruence.
  - right. exists p. repeat split; congruence.
Qed.

Lemma countedAtMostOne_monotone (a b : SongCounterState) :
  countedAtMostOne a b ->
  songsCompleted a <= songsCompleted b /\ totalElapsedMs a <= totalElapsedMs b.
Proof. intros [(H1 & H2 & _) | (p & Hp & H1 & H2)]; lia. Qed.

Lemma beginTracking_state (now : Z) (t : Observer.CurrentTrack) (h : Hook) :
  state (beginTracking now t h) = state h.
Proof. reflexivity. Qed.

Lemma clearError_accounting (h : Hook) :
  songsCompleted (state (clearError h)) = songsCompleted (state h) /\
  totalElapsedMs (state (clearError h)) = totalElapsedMs (state h) /\
  lastSong (state (clearError h)) = lastSong (state h).
Proof. unfold clearError. simpl. destruct (error (state h)); simpl; tauto. Qed.

Lemma stop_counted (h : Hook) : countedAtMostOne (state h) (state (stop h)).
Proof.
  unfold stop. destruct (status (state h)); [apply countedAtMostOne_refl|].
  simpl. eapply countedAtMostOne_same; [| | | apply (finalizeActiveTrack_counted None h)];
    reflexivity.
Qed.

Lemma skipBefore_counted (now : Z) (tokens : option Auth.AuthTokens)
    (track : option Observer.CurrentTrack) (h : Hook) :
  countedAtMostOne (state h) (state (fst (skipBefore now tokens track h))).
Proof.
  unfold skipBefore. destruct (status (state h)); [apply countedAtMostOne_refl|].
  set (h1 := match track with
             | Some current => finalizeActiveTrack (Some (getLiveProgress now current)) h
             | None => finalizeActiveTrack None h
             end).
  assert (H1 : countedAtMostOne (state h) (state h1))
    by (unfold h1; destruct track; apply finalizeActiveTrack_counted).
  destruct (negb (Auth.hasAccessToken tokens)); simpl; [exact H1|].
  destruct (clearError_accounting (setIsBusy true h1)) as (E1 & E2 & E3).
  eapply countedAtMostOne_same; [exact E1 | exact E2 | exact E3 | exact H1].
Qed.

Lemma skipAfterwards_accounting (r : SkipResult) (h : Hook) :
  songsCompleted (state (skipAfterwards r h)) = songsCompleted (state h) /\
  totalElapsedMs (state (skipAfterwards r h)) = totalElapsedMs (state h) /\
  lastSong (state (skipAfterwards r h)) = lastSong (state h).
Proof. destruct r; simpl; tauto. Qed.

Lemma onSnapshot_counted (now : Z) (track : option Observer.CurrentTrack) (h : Hook) :
  countedAtMostOne (state h) (state (onSnapshot now track h)).
Proof.
  unfold onSnapshot. destruct (status (state h)); [apply countedAtMostOne_refl|].
  destruct track as [t|].
  - destruct (_ && _); [apply countedAtMostOne_refl|].
    destruct (activeTrackRef h) as [active|] eqn:Ha; [|apply countedAtMostOne_refl].
    destruct (String.eqb _ _); [apply countedAtMostOne_refl|].
    rewrite beginTracking_state. apply finalizeActiveTrack_counted.
  - simpl. apply finalizeActiveTrack_counted.
Qed.

End Finalization.

(** C2.  Finalizing an active accumulator computes
    [playedMs = clamp (latestProgressMs, startProgressMs, durationMs) -
    startProgressMs]; a completed-song record is stored and
    [songsCompleted] and [totalElapsedMs] grow only when [playedMs > 0];
    the accumulator is cleared in every case.  Hence a counter that is
    started and stopped with no progress in between (directly, or after a
    snapshot of the same track that shows no progress) ends with no
    record and totals of zero. *)
Theorem finalizeActiveTrack_rule
    (h : Counter.Hook) (snapshot : Counter.ActiveTrackSnapshot.t)
    (now now' : Z) (tokens : option Auth.AuthTokens) (t : Observer.CurrentTrack) :
  (Counter.activeTrackRef h = Some snapshot ->
   let start := Counter.ActiveTrackSnapshot.startProgressMs snapshot in
   let latest := Counter.ActiveTrackSnapshot.latestProgressMs snapshot in
   let duration := Counter.ActiveTrackSnapshot.durationMs snapshot in
   let playedMs := Counter.clamp latest start duration - start in
   let h' := Counter.finalizeActiveTrack None h in
   Counter.playedMsOf None snapshot = playedMs /\
   (start <= duration -> playedMs = Z.min duration (Z.max start latest) - start) /\
   Counter.activeTrackRef h' = None /\
   (0 < playedMs ->
      Counter.state h' =
        {| Counter.status := Counter.status (Counter.state h);
           Counter.songsCompleted := Counter.songsCompleted (Counter.state h) + 1;
           Counter.totalElapsedMs := Counter.totalElapsedMs (Counter.state h) + playedMs;
           Counter.lastSong := Some (Counter.recordOf snapshot playedMs);
           Counter.error := Counter.error (Counter.state h) |}) /\
   (playedMs <= 0 -> Counter.state h' = Counter.state h)) /\
  (Observer.isPlaying t = true -> Auth.hasAccessToken tokens = true ->
   let started := Counter.start now tokens (Some t) h in
   let zeroed (h2 : Counter.Hook) :=
     Counter.status (Counter.state h2) = Counter.idle /\
     Counter.songsCompleted (Counter.state h2) = 0 /\
     Counter.totalElapsedMs (Counter.state h2) = 0 /\
     Counter.lastSong (Counter.state h2) = None /\
     Counter.activeTrackRef h2 = None in
   Counter.status (Counter.state started) = Counter.running /\
   zeroed (Counter.stop started) /\
   (Counter.getLiveProgress now' t = Counter.getLiveProgress now t ->
    zeroed (Counter.stop (Counter.onSnapshot now' (Some t) started)))).
Proof.
  split.
  - intros Ha. cbv zeta.
    destruct (finalizeActiveTrack_active None h snapshot Ha) as (Hc & _ & _ & Hpos & Hzero).
    pose proof (playedMsOf_clamp None snapshot) as Hp. cbv zeta in Hp.
    rewrite <- Hp.
    split; [reflexivity|].
    split; [intros Hsd; unfold Counter.playedMsOf; lia|].
    split; [exact Hc|]. split; assumption.
  - intros Hplay Htok. cbv zeta.
    unfold Counter.start, Counter.isPlayingTrack. rewrite Hplay, Htok. simpl negb. cbv iota.
    split; [reflexivity|].
    split.
    + unfold Counter.stop. simpl.
      unfold Counter.finalizeActiveTrack, Counter.playedMsOf. simpl.
      set (p := Counter.getLiveProgress now t).
      assert (E : (Z.max 0 (Z.min (Observer.durationMs t) (Z.max p p) - p) <=? 0) = true)
        by (apply Z.leb_le; lia).
      rewrite E. simpl. tauto.
    + intros Hsame.
      unfold Counter.onSnapshot. simpl.
      rewrite String.eqb_refl.
      unfold Counter.stop. simpl.
      unfold Counter.finalizeActiveTrack, Counter.playedMsOf. simpl.
      rewrite Hsame.
      set (p := Counter.getLiveProgress now t).
      assert (E : (Z.max 0 (Z.min (Observer.durationMs t) (Z.max p p) - p) <=? 0) = true)
        by (apply Z.leb_le; lia).
      rewrite E. simpl. tauto.
Qed.

Lemma finalizeActiveTrack_rule_witness :
  Counter.state (Counter.finalizeActiveTrack None sampleCounting)
  = {| Counter.status := Counter.running;
       Counter.songsCompleted := 1;
       Counter.totalElapsedMs := 190000;
       Counter.lastSong :=
         Some {| Counter.CompletedSong.trackId := "t2";
                 Counter.CompletedSong.trackName := "Song";
                 Counter.CompletedSong.artistNames := "A";
                 Counter.CompletedSong.durationMs := 190000 |};
       Counter.error := None |} /\
  Counter.songsCompleted
    (Counter.state (Counter.stop (Counter.start 3000 sampleTokens (Some playingAhead)
                                    Counter.initial))) = 0.
Proof.
  destruct (finalizeActiveTrack_rule sampleCounting sampleAccumulator 3000 3000
              sampleTokens playingAhead) as [H1 H2].
  split.
  - destruct (H1 eq_refl) as (_ & _ & _ & Hpos & _).
    rewrite Hpos; [reflexivity | vm_compute; reflexivity].
  - destruct (finalizeActiveTrack_rule Counter.initial sampleAccumulator 3000 3000
                sampleTokens playingAhead) as [_ H3].
    destruct (H3 eq_refl eq_refl) as (_ & (_ & Hz & _) & _). exact Hz.
Defined.

(** ** Skipping from the counter *)




(** ** Monotonicity of the totals *)

(** C10.  Every event other than [start] (a processed snapshot, either
    half of a skip and a whole skip, a stop, the credential effect,
    clearing the error, unmounting) leaves [songsCompleted] and
    [totalElapsedMs] unchanged or adds exactly 1 to the former and a
    positive [playedMs] to the latter, so neither ever decreases; a
    successful [start] sets both to zero and a refused one leaves them
    unchanged. *)
Theorem counter_totals_monotone (e : Counter.Event) (h : Counter.Hook) :
  (Counter.isStart e = false ->
   Counter.countedAtMostOne (Counter.state h) (Counter.state (Counter.step e h)) /\
   Counter.songsCompleted (Counter.state h)
     <= Counter.songsCompleted (Counter.state (Counter.step e h)) /\
   Counter.totalElapsedMs (Counter.state h)
     <= Counter.totalElapsedMs (Counter.state (Counter.step e h))) /\
  (forall now tokens track r,
     Counter.countedAtMostOne (Counter.state h)
       (Counter.state (Counter.skip now tokens track r h))) /\
  (forall now tokens track,
     let h' := Counter.start now tokens track h in
     (Counter.songsCompleted (Counter.state h') = 0 /\
      Counter.totalElapsedMs (Counter.state h') = 0 /\
      Counter.status (Counter.state h') = Counter.running)
     \/ (Counter.songsCompleted (Counter.state h') = Counter.songsCompleted (Counter.state h) /\
         Counter.totalElapsedMs (Counter.state h') = Counter.totalElapsedMs (Counter.state h) /\
         Counter.status (Counter.state h') = Counter.status (Counter.state h))).
Proof.
  assert (Hstep : Counter.isStart e = false ->
                  Counter.countedAtMostOne (Counter.state h)
                    (Counter.state (Counter.step e h))).
  { intros He. destruct e as [n tk tr | | n tk tr | r | n tr | tk | | ]; simpl.
    - discriminate.
    - apply stop_counted.
    - apply skipBefore_counted.
    - destruct (skipAfterwards_accounting r h) as (E1 & E2 & E3).
      left. tauto.
    - apply onSnapshot_counted.
    - unfold Counter.credentialEffect.
      destruct (Counter.status (Counter.state h)); [apply countedAtMostOne_refl|].
      destruct (Auth.hasAccessToken tk); [apply countedAtMostOne_refl | apply stop_counted].
    - destruct (clearError_accounting h) as (E1 & E2 & E3). left. tauto.
    - apply finalizeActiveTrack_counted. }
  split.
  { intros He. split; [apply Hstep, He|].
    apply countedAtMostOne_monotone, Hstep, He. }
  split.
  { intros now tokens track r. unfold Counter.skip.
    pose proof (skipBefore_counted now tokens track h) as Hb.
    destruct (Counter.skipBefore now tokens track h) as [h1 issued]. simpl in Hb.
    destruct issued; [|exact Hb].
    destruct (skipAfterwards_accounting r h1) as (E1 & E2 & E3).
    eapply countedAtMostOne_same; [exact E1 | exact E2 | exact E3 | exact Hb]. }
  intros now tokens track. cbv zeta. unfold Counter.start.
  destruct (Counter.isPlayingTrack track) as [t|]; [|right; simpl; tauto].
  destruct (Auth.hasAccessToken tokens); simpl; [left | right]; tauto.
Qed.

Lemma counter_totals_monotone_witness :
  Counter.songsCompleted (Counter.state sampleCounting)
  <= Counter.songsCompleted (Counter.state (Counter.step Counter.EStop sampleCounting)).
Proof.
  destruct (counter_totals_monotone Counter.EStop sampleCounting) as [H _].
  destruct (H eq_refl) as (_ & Hs & _). exact Hs.
Defined.

(** ** Normalization of a poll response *)

(** C7, as stated, fails: an artist list of length 0 is rendered as the
    empty string, not as the sentinel. *)
Lemma empty_artist_list_not_sentinel :
  option_map Observer.artistNames
    (Observer.track (Observer.fetchCurrentTrack true 1000
                       (Observer.Resolved emptyArtistsResponse)
                       Observer.INITIAL_STATE))
  = Some ""%string /\
  option_map Observer.artistNames
    (Observer.track (Observer.fetchCurrentTrack true 1000
                       (Observer.Resolved emptyArtistsResponse)
                       Observer.INITIAL_STATE))
  <> Some "Unknown artist"%string.
Proof. split; vm_compute; [reflexivity | discriminate]. Qed.

Lemma applyOutcome_NoTrack (prev : Observer.HookState) :
  Observer.track (Observer.applyOutcome true Observer.NoTrack prev) = None /\
  Observer.error (Observer.applyOutcome true Observer.NoTrack prev) = None.
Proof.
  unfold Observer.applyOutcome. simpl.
  destruct (Observer.initialized prev); simpl; [|tauto].
  destruct (Observer.track prev) eqn:Et, (Observer.error prev) eqn:Ee,
    (Observer.isLoading prev); simpl; tauto.
Qed.

(** C7, amended.  A "no content" response, or a successful one without
    an item, yields [track = null] and no error, in both revisions of the
    hook.  A successful response with an item yields a snapshot in which
    the sentinel "Unknown artist" stands for an [artists] field that is
    not an array, an artist list is rendered as its names joined by
    ", " (so a list of length 0 gives the empty string), and the sentinel
    "Unknown album" stands for a missing album or album name. *)
Theorem fetchCurrentTrack_normalizes
    (now : Z) (response : Observer.Response)
    (prev : Observer.HookState) (prevLegacy : Observer.Legacy.HookState) :
  let after := Observer.fetchCurrentTrack true now (Observer.Resolved response) prev in
  let afterLegacy :=
    Observer.Legacy.fetchCurrentTrack true now (Observer.Resolved response) prevLegacy in
  (Observer.status response = 204 \/
   (Observer.ok response = true /\
    exists p, Observer.json response = Some p /\ Observer.item p = None) ->
   Observer.track after = None /\ Observer.error after = None /\
   Observer.Legacy.track afterLegacy = None /\ Observer.Legacy.error afterLegacy = None) /\
  (forall p it,
     Observer.status response <> 204 -> Observer.ok response = true ->
     Observer.json response = Some p -> Observer.item p = Some it ->
     exists t tl,
       Observer.track after = Some t /\ Observer.error after = None /\
       Observer.Legacy.track afterLegacy = Some tl /\
       Observer.Legacy.error afterLegacy = None /\
       Observer.Legacy.artistNames tl = Observer.artistNames t /\
       Observer.Legacy.albumName tl = Observer.albumName t /\
       (Observer.artists it = Observer.ArtistsMissing ->
          Observer.artistNames t = "Unknown artist"%string) /\
       (forall names, Observer.artists it = Observer.ArtistsArray names ->
          Observer.artistNames t = String.concat ", " names) /\
       (Observer.artists it = Observer.ArtistsArray [] ->
          Observer.artistNames t = ""%string) /\
       (Observer.album it = None \/
        (exists al, Observer.album it = Some al /\ Observer.album_name al = None) ->
          Observer.albumName t = "Unknown album"%string) /\
       (forall al n, Observer.album it = Some al -> Observer.album_name al = Some n ->
          Observer.albumName t = n)).
Proof.
  cbv zeta. split.
  - intros H.
    assert (Hn : Observer.normalize now (Observer.Resolved response) = Observer.NoTrack).
    { unfold Observer.normalize. destruct H as [H | (Hok & p & Hj & Hi)].
      - rewrite H. reflexivity.
      - destruct (Observer.status response =? 204); [reflexivity|].
        rewrite Hok, Hj, Hi. reflexivity. }
    unfold Observer.fetchCurrentTrack. rewrite Hn.
    destruct (applyOutcome_NoTrack (Observer.beginFetch prev)) as [H1 H2].
    split; [exact H1|]. split; [exact H2|].
    unfold Observer.Legacy.fetchCurrentTrack.
    destruct H as [H | (Hok & p & Hj & Hi)].
    + rewrite H. simpl. tauto.
    + destruct (Observer.status response =? 204); [simpl; tauto|].
      rewrite Hok, Hj, Hi. simpl. tauto.
  - intros p it Hs Hok Hj Hi.
    exists (Observer.buildTrack now p it), (Observer.Legacy.buildTrack now p it).
    assert (Hne : (Observer.status response =? 204) = false) by (apply Z.eqb_neq; exact Hs).
    unfold Observer.fetchCurrentTrack, Observer.Legacy.fetchCurrentTrack,
      Observer.normalize.
    rewrite Hne, Hok, Hj, Hi. simpl.
    repeat split.
    + intros ->. reflexivity.
    + intros names ->. reflexivity.
    + intros ->. reflexivity.
    + intros [-> | (al & -> & ->)]; reflexivity.
    + intros al n -> ->. reflexivity.
Qed.

Lemma fetchCurrentTrack_normalizes_witness :
  Observer.track (Observer.fetchCurrentTrack true 1000
                    (Observer.Resolved
                       {| Observer.status := 204; Observer.ok := true;
                          Observer.json := None; Observer.json_error := "" |})
                    Observer.INITIAL_STATE) = None.
Proof.
  destruct (fetchCurrentTrack_normalizes 1000
              {| Observer.status := 204; Observer.ok := true;
                 Observer.json := None; Observer.json_error := "" |}
              Observer.INITIAL_STATE
              {| Observer.Legacy.track := None; Observer.Legacy.error := None;
                 Observer.Legacy.isLoading := false;
                 Observer.Legacy.initialized := false |}) as [H _].
  destruct (H (or_introl eq_refl)) as (Ht & _). exact Ht.
Defined.

(** ** Proactive refresh of the credential *)

(** C9.  For a credential that holds a refresh token, [scheduleRefresh]
    runs the refresh at once when the remaining lifetime is at most
    60000 ms, and otherwise sets a timer with the delay
    [max (remaining - 60000, 5000)], which is never due earlier than
    5000 ms after the call. *)
Theorem scheduleRefresh_delay
    (now : Z) (current : Auth.AuthTokens) (pendingTimer : option Auth.RefreshTimer) :
  Auth.truthyOpt (Auth.refreshToken current) = true ->
  let remaining := Auth.expiresAt current - now in
  let result := Auth.scheduleRefresh true now current pendingTimer in
  (remaining <= 60000 -> result = (None, Auth.RefreshNow)) /\
  (60000 < remaining ->
     let delay := Z.max (remaining - 60000) 5000 in
     result = (Some {| Auth.dueAt := now + delay |}, Auth.RefreshAfter delay) /\
     5000 <= delay /\ remaining - 60000 <= delay) /\
  (forall timer delay, result = (Some timer, Auth.RefreshAfter delay) ->
     now + 5000 <= Auth.dueAt timer /\ 5000 <= delay).
Proof.
  intros Hr. cbv zeta. unfold Auth.scheduleRefresh. simpl negb. cbv iota.
  rewrite Hr. simpl negb. cbv iota.
  unfold Auth.REFRESH_BUFFER_MS, Auth.MIN_REFRESH_DELAY_MS.
  destruct (Auth.expiresAt current - now <=? 60000) eqn:E.
  - apply Z.leb_le in E. split; [reflexivity|]. split; [lia|].
    intros timer delay H. discriminate.
  - apply Z.leb_gt in E. split; [lia|]. split.
    + intros _. split; [reflexivity|]. lia.
    + intros timer delay H. injection H as <- <-. simpl. lia.
Qed.

Lemma scheduleRefresh_delay_witness :
  Auth.scheduleRefresh true 0 (Auth.mkTokens "a" (Some "r"%string) 62000 "" "Bearer") None
  = (Some {| Auth.dueAt := 5000 |}, Auth.RefreshAfter 5000) /\
  Auth.scheduleRefresh true 0 (Auth.mkTokens "a" (Some "r"%string) 60000 "" "Bearer") None
  = (None, Auth.RefreshNow).
Proof.
  destruct (scheduleRefresh_delay 0 (Auth.mkTokens "a" (Some "r"%string) 62000 "" "Bearer")
              None eq_refl) as (_ & H & _).
  destruct (scheduleRefresh_delay 0 (Auth.mkTokens "a" (Some "r"%string) 60000 "" "Bearer")
              None eq_refl) as (H' & _).
  split.
  - apply (H ltac:(simpl; lia)).
  - apply H'. simpl. lia.
Defined.

(** ** The session driver and its timers *)

Section SessionTimers.

Import Session.

Lemma clearTimeout_all (ids : list Z) (p : list Timer) :
  fold_left (fun q id => clearTimeout id q) ids p
  = filter (fun t => negb (existsb (Z.eqb (timerId t)) ids)) p.
Proof.
  revert p; induction ids as [|id ids IH]; intros p; simpl.
  - induction p as [|t p IHp]; simpl; congruence.
  - rewrite IH. unfold clearTimeout.
    induction p as [|t p IHp]; simpl; [reflexivity|].
    destruct (timerId t =? id); simpl; [exact IHp|].
    destruct (existsb (Z.eqb (timerId t)) ids); simpl; congruence.
Qed.

(** [clearTimers] leaves no timer the hook holds the id of. *)
Lemma clearTimers_cancels (d : Driver) :
  timersTracked d -> pending (clearTimers d) = [] /\ timersRef (clearTimers d) = [].
Proof.
  intros Ht. split; [|reflexivity].
  simpl. rewrite clearTimeout_all.
  assert (H : forall l, (forall t, In t l -> In (timerId t) (timersRef d)) ->
                        filter (fun t => negb (existsb (Z.eqb (timerId t)) (timersRef d))) l = []).
  { induction l as [|t l IH]; intros Hl; simpl; [reflexivity|].
    assert (E : existsb (Z.eqb (timerId t)) (timersRef d) = true).
    { apply existsb_exists. exists (timerId t). split; [|apply Z.eqb_refl].
      apply Hl. left. reflexivity. }
    rewrite E. simpl. apply IH. intros t' Ht'. apply Hl. right. exact Ht'. }
  apply H. exact Ht.
Qed.

Lemma clearTicker_timers (d : Driver) :
  pending (clearTicker d) = pending d /\ timersRef (clearTicker d) = timersRef d /\
  state (clearTicker d) = state d /\ nextId (clearTicker d) = nextId d.
Proof. unfold clearTicker. destruct (tickRef d); simpl; tauto. Qed.

(** Stopping cancels every slice timer: afterwards none can fire. *)
Lemma stopSession_cancels (d : Driver) :
  timersTracked d ->
  pending (stopSession d) = [] /\
  (forall id, fire id (stopSession d) = None) /\
  state (stopSession d)
  = {| status := idle; startedAt := None; currentSliceIndex := 0 |}.
Proof.
  intros Ht. destruct (clearTimers_cancels d Ht) as [Hp _].
  assert (E : pending (stopSession d) = []).
  { unfold stopSession. simpl.
    rewrite (proj1 (clearTicker_timers (clearTimers d))). exact Hp. }
  split; [exact E|]. split; [|reflexivity].
  intros id. unfold fire. rewrite E. reflexivity.
Qed.

Lemma scheduleAll_shape (c : bool) (st len : Z) (slices : list Plan.TimelineSlice) :
  forall (i : Z) (d : Driver),
    state (scheduleAll c st len slices i d) = state d /\
    List.length (pending (scheduleAll c st len slices i d))
    = (List.length (pending d) + List.length slices)%nat /\
    map dueAt (pending (scheduleAll c st len slices i d))
    = map dueAt (pending d) ++ map (fun s => st + Plan.endMs s) slices /\
    (timersTracked d -> timersTracked (scheduleAll c st len slices i d)).
Proof.
  induction slices as [|s slices IH]; intros i d; simpl.
  - rewrite Nat.add_0_r, app_nil_r. tauto.
  - destruct (IH (i + 1) (scheduleSlice c st len d s i)) as (H1 & H2 & H3 & H4).
    split; [rewrite H1; reflexivity|].
    split; [rewrite H2; simpl; rewrite length_app; simpl; lia|].
    split; [rewrite H3; simpl; rewrite map_app, <- app_assoc; reflexivity|].
    intros Ht. apply H4. intros t Hin. simpl in *.
    apply in_app_or in Hin. apply in_or_app.
    destruct Hin as [Hin | [<- | []]]; [left; apply Ht, Hin | right; left; reflexivity].
Qed.

(** A session that does start is running and has one pending timer per
    slice, due at the slice's end. *)
Lemma startSession_schedules
    (tokens : option Auth.AuthTokens) (stats : Plan.IntervalStats) (startTime : Z)
    (d : Driver) :
  Auth.hasAccessToken tokens = true -> Plan.timeline stats <> [] ->
  timersTracked d ->
  let d' := startSession tokens stats startTime d in
  state d' = {| status := running; startedAt := Some startTime; currentSliceIndex := 0 |} /\
  map dueAt (pending d') = map (fun s => startTime + Plan.endMs s) (Plan.timeline stats) /\
  timersTracked d'.
Proof.
  intros Htok Hne Ht. cbv zeta. unfold startSession. rewrite Htok. simpl negb.
  destruct (Plan.timeline stats) as [|s0 rest] eqn:Etl; [congruence|].
  assert (Hl : (Z.of_nat (List.length (s0 :: rest)) =? 0) = false)
    by (apply Z.eqb_neq; simpl; lia).
  rewrite Hl. simpl orb. cbv iota zeta.
  destruct (clearTimers_cancels d Ht) as [Hp Hr].
  destruct (clearTicker_timers (clearTimers d)) as (Ep & Er & _ & _).
  match goal with
  | |- context [scheduleAll ?c ?st ?len ?sl ?i ?d0] =>
      destruct (scheduleAll_shape c st len sl i d0) as (H1 & _ & H3 & H4)
  end.
  split; [rewrite H1; reflexivity|].
  split.
  - rewrite H3. simpl pending. rewrite Ep, Hp. reflexivity.
  - apply H4. intros t Hin. simpl in Hin. rewrite Ep, Hp in Hin. destruct Hin.
Qed.

Lemma startSession_tracked
    (tokens : option Auth.AuthTokens) (stats : Plan.IntervalStats) (startTime : Z)
    (d : Driver) :
  timersTracked d -> timersTracked (startSession tokens stats startTime d).
Proof.
  intros Ht.
  destruct (Auth.hasAccessToken tokens) eqn:E1.
  - destruct (Plan.timeline stats) as [|s0 rest] eqn:E2.
    + unfold startSession. rewrite E2. simpl. rewrite orb_true_r. exact Ht.
    + apply startSession_schedules; [exact E1 | congruence | exact Ht].
  - unfold startSession. rewrite E1. exact Ht.
Qed.

(** The effect stops the session whenever the number of slices or the
    total duration changed. *)
Lemma timelineEffect_stops (prevStats nextStats : Plan.IntervalStats) (d : Driver) :
  List.length (Plan.timeline prevStats) <> List.length (Plan.timeline nextStats)
  \/ Plan.totalDurationMs prevStats <> Plan.totalDurationMs nextStats ->
  timelineEffect prevStats nextStats d = stopSession d.
Proof.
  intros H. unfold timelineEffect.
  destruct H as [H | H].
  - apply Nat.eqb_neq in H. rewrite H. reflexivity.
  - apply Z.eqb_neq in H. rewrite H, andb_false_r. reflexivity.
Qed.

End SessionTimers.

(** C8.  [startSession] without a credential or with an empty timeline
    returns the driver as it was: the state is unchanged and no timer or
    tick is set up; from the idle state the status stays [idle], with
    [startedAt] absent and [currentSliceIndex] 0. *)
Theorem startSession_noop
    (tokens : option Auth.AuthTokens) (stats : Plan.IntervalStats)
    (startTime : Z) (d : Session.Driver) :
  Auth.hasAccessToken tokens = false \/ Plan.timeline stats = [] ->
  Session.startSession tokens stats startTime d = d /\
  (Session.state d
   = {| Session.status := Session.idle; Session.startedAt := None;
        Session.currentSliceIndex := 0 |} ->
   Session.status (Session.state (Session.startSession tokens stats startTime d))
   = Session.idle /\
   Session.startedAt (Session.state (Session.startSession tokens stats startTime d))
   = None /\
   Session.currentSliceIndex (Session.state (Session.startSession tokens stats startTime d))
   = 0) /\
  Session.pending (Session.startSession tokens stats startTime d) = Session.pending d /\
  Session.ticking (Session.startSession tokens stats startTime d) = Session.ticking d /\
  Session.pending (Session.startSession tokens stats startTime Session.initial) = [].
Proof.
  intros H.
  assert (E : forall d0, Session.startSession tokens stats startTime d0 = d0).
  { intros d0. unfold Session.startSession.
    destruct H as [H | H]; [rewrite H; reflexivity|].
    rewrite H. simpl. rewrite orb_true_r. reflexivity. }
  rewrite !E. split; [reflexivity|]. split; [|repeat split].
  intros Hs. rewrite Hs. repeat split.
Qed.

Lemma startSession_noop_witness :
  Session.startSession None (Plan.computeTimeline Plan.DEFAULT_PLAN) 1000 Session.initial
  = Session.initial /\
  Session.startSession sampleTokens (Plan.computeTimeline (Plan.mkPlan 0 false 120)) 1000
    Session.initial
  = Session.initial.
Proof.
  split.
  - apply (startSession_noop None (Plan.computeTimeline Plan.DEFAULT_PLAN) 1000
             Session.initial (or_introl eq_refl)).
  - apply (startSession_noop sampleTokens (Plan.computeTimeline (Plan.mkPlan 0 false 120))
             1000 Session.initial (or_intror eq_refl)).
Defined.

(** ** A plan edit that keeps the number of slices *)

(** C4, at the failing input.  After the edit the timeline effect does
    not run [stopSession]: the two timers of the previous timeline are
    still pending, and the first one fires at 180 s, a boundary the
    edited plan does not have, and issues a skip. *)
Theorem stale_timer_fires_after_plan_edit :
  let edited := Session.timelineEffect statsBeforeEdit statsAfterEdit runningBeforeEdit in
  Plan.timeline statsBeforeEdit <> Plan.timeline statsAfterEdit /\
  map Plan.endMs (Plan.timeline statsAfterEdit) = [150000; 210000] /\
  edited = runningBeforeEdit /\
  map Session.dueAt (Session.pending edited) = [180000; 210000] /\
  map Session.timerId (Session.pending edited) = [2; 3] /\
  option_map snd (Session.fire 2 edited) = Some [Session.SkipToNext].
Proof.
  cbv zeta. split; [vm_compute; discriminate|]. repeat split.
Qed.

(** ** Remarks *)

(** When the number of slices or the total duration does change, the
    effect cancels every timer of a started session. *)
Remark timelineEffect_cancels
    (tokens : option Auth.AuthTokens) (prevStats nextStats : Plan.IntervalStats)
    (startTime : Z) :
  List.length (Plan.timeline prevStats) <> List.length (Plan.timeline nextStats)
  \/ Plan.totalDurationMs prevStats <> Plan.totalDurationMs nextStats ->
  let started := Session.startSession tokens prevStats startTime Session.initial in
  forall id, Session.fire id (Session.timelineEffect prevStats nextStats started) = None.
Proof.
  intros H started id. rewrite (timelineEffect_stops _ _ _ H).
  apply stopSession_cancels, startSession_tracked.
  intros t [].
Qed.

(** Every slice length that went through [sanitizeSliceSeconds] (all the
    hook ever stores) is positive, as the timeline theorem asks. *)
Remark sanitizeSliceSeconds_positive (value : Plan.number) :
  0 < Plan.sanitizeSliceSeconds value.
Proof.
  destruct value as [q | | |]; try reflexivity.
  destruct (sanitize_finite_window q) as [_ H].
  destruct H as [[-> _] | [[-> _] | [[-> | [-> | [-> | [-> | ->]]]] _]]]; reflexivity.
Qed.

(* ================================================================== *)
(** * Further properties of the code *)

(** ** The plan hook: validity, persistence and the timeline's shape *)

Lemma sanitizeSliceSeconds_in_options (value : Plan.number) :
  In (Plan.sanitizeSliceSeconds value) Plan.SLICE_OPTIONS_SECONDS.
Proof.
  destruct value as [q | | |]; try (simpl; tauto).
  destruct (sanitize_finite_window q) as [_ H].
  unfold Plan.SLICE_OPTIONS_SECONDS. cbn [In].
  destruct H as [[-> _] | [[-> _] | [[-> | [-> | [-> | [-> | ->]]]] _]]]; tauto.
Qed.

Lemma clampMinutes_nonneg (value : Plan.number) : 0 <= Plan.clampMinutes value.
Proof. destruct value; simpl; lia. Qed.

Lemma clampMinutesOr_nonneg (v : Plan.JsValue) (fallback : Z) :
  0 <= Plan.clampMinutesOr v fallback.
Proof. destruct v; simpl; try lia. apply clampMinutes_nonneg. Qed.

Lemma clampMinutes_inject (m : Z) :
  Plan.clampMinutes (Plan.Finite (inject_Z m)) = Z.max 0 m.
Proof. unfold Plan.clampMinutes. now rewrite Qfloor_Z. Qed.

(** An input equal to an enumerated option is returned as it is. *)
Lemma sanitizeSliceSeconds_fixes_options (q : Q) (o : Z) :
  In o Plan.SLICE_OPTIONS_SECONDS -> q == inject_Z o ->
  Plan.sanitizeSliceSeconds (Plan.Finite q) = o.
Proof.
  intros Ho Hq. destruct (sanitize_finite_window q) as [_ H].
  set (r := Plan.sanitizeSliceSeconds (Plan.Finite q)) in *.
  unfold Plan.SLICE_OPTIONS_SECONDS in Ho. simpl in Ho.
  destruct Ho as [<- | [<- | [<- | [<- | [<- | [<- | [<- | []]]]]]]];
    unfold inject_Z in Hq;
    destruct H as [[-> Hw] | [[-> Hw] | [[-> | [-> | [-> | [-> | ->]]]] Hw]]];
    unfold inject_Z in Hw; try reflexivity; exfalso; lra.
Qed.

(** X1.  The plan invariant holds for whatever is loaded or migrated from
    storage and is kept by every setter of the hook. *)
Theorem plan_always_valid :
  (forall raw plan, Plan.migrateLegacyPlan raw = Some plan -> Plan.validPlan plan) /\
  (forall hasWindow stored, Plan.validPlan (Plan.loadPlan hasWindow stored)) /\
  (forall action plan, Plan.validPlan plan -> Plan.validPlan (Plan.applyAction action plan)).
Proof.
  assert (Hd : Plan.validPlan Plan.DEFAULT_PLAN).
  { split; simpl; [lia | tauto]. }
  assert (Hm : forall raw plan, Plan.migrateLegacyPlan raw = Some plan -> Plan.validPlan plan).
  { intros raw plan H. destruct raw as [|o]; [discriminate|].
    unfold Plan.migrateLegacyPlan in H.
    destruct (Plan.raw_sliceLengthSeconds o) as [|n|].
    - destruct (Plan.raw_slices o) as [[|first rest]|]; try discriminate.
      injection H as <-.
      split; [apply clampMinutesOr_nonneg | apply sanitizeSliceSeconds_in_options].
    - injection H as <-.
      split; [apply clampMinutesOr_nonneg | apply sanitizeSliceSeconds_in_options].
    - destruct (Plan.raw_slices o) as [[|first rest]|]; try discriminate.
      injection H as <-.
      split; [apply clampMinutesOr_nonneg | apply sanitizeSliceSeconds_in_options]. }
  split; [exact Hm|]. split.
  - intros hasWindow stored. unfold Plan.loadPlan.
    destruct (negb hasWindow); [exact Hd|].
    destruct stored as [| |raw]; try exact Hd.
    destruct (Plan.migrateLegacyPlan raw) as [plan|] eqn:E; [|exact Hd].
    apply (Hm raw plan E).
  - intros action plan [Hmin Hsl].
    destruct action as [| |value|seconds|]; unfold Plan.applyAction.
    + split; [apply clampMinutes_nonneg | exact Hsl].
    + split; [apply clampMinutes_nonneg | exact Hsl].
    + split; assumption.
    + split; [exact Hmin | apply sanitizeSliceSeconds_in_options].
    + exact Hd.
Qed.

Lemma plan_always_valid_witness :
  Plan.validPlan (Plan.applyAction Plan.DecrementMinutes (Plan.mkPlan 0 true 90)).
Proof.
  destruct plan_always_valid as (_ & _ & H).
  apply H. split; simpl; [lia | tauto].
Defined.

(** X2.  A valid plan survives being persisted and loaded again. *)
Theorem loadPlan_persisted_roundtrip (plan : Plan.IntervalPlan) :
  Plan.validPlan plan -> Plan.loadPlan true (Plan.persisted plan) = plan.
Proof.
  intros [Hmin Hsl]. destruct plan as [m b s].
  cbn [Plan.totalMinutes Plan.sliceLengthSeconds] in Hmin, Hsl.
  change (Plan.loadPlan true (Plan.persisted (Plan.mkPlan m b s)))
    with (Plan.mkPlan (Plan.clampMinutes (Plan.Finite (inject_Z m))) b
            (Plan.sanitizeSliceSeconds (Plan.Finite (inject_Z s)))).
  rewrite clampMinutes_inject.
  rewrite (sanitizeSliceSeconds_fixes_options (inject_Z s) s Hsl (Qeq_refl _)).
  f_equal. lia.
Qed.

Lemma loadPlan_persisted_roundtrip_witness :
  Plan.loadPlan true (Plan.persisted (Plan.mkPlan 45 true 150)) = Plan.mkPlan 45 true 150.
Proof.
  apply (loadPlan_persisted_roundtrip (Plan.mkPlan 45 true 150)).
  split; simpl; [lia | tauto].
Defined.

(** X3.  Decrementing undoes incrementing on a valid plan, while at zero
    minutes decrementing changes nothing. *)
Theorem decrementMinutes_undoes_increment (plan : Plan.IntervalPlan) :
  Plan.validPlan plan ->
  Plan.totalMinutes (Plan.incrementMinutes plan) = Plan.totalMinutes plan + 1 /\
  Plan.decrementMinutes (Plan.incrementMinutes plan) = plan /\
  (Plan.totalMinutes plan = 0 -> Plan.decrementMinutes plan = plan) /\
  (0 < Plan.totalMinutes plan ->
     Plan.incrementMinutes (Plan.decrementMinutes plan) = plan).
Proof.
  intros [Hmin _]. destruct plan as [m b s]. simpl in Hmin.
  unfold Plan.incrementMinutes, Plan.decrementMinutes.
  cbn [Plan.totalMinutes Plan.includeThirtySeconds Plan.sliceLengthSeconds].
  rewrite !clampMinutes_inject.
  split; [lia|]. split; [f_equal; lia|].
  split; intros H; f_equal; lia.
Qed.

Lemma decrementMinutes_undoes_increment_witness :
  Plan.decrementMinutes (Plan.incrementMinutes Plan.DEFAULT_PLAN) = Plan.DEFAULT_PLAN.
Proof.
  assert (Hv : Plan.validPlan Plan.DEFAULT_PLAN) by (split; simpl; [lia | tauto]).
  destruct (decrementMinutes_undoes_increment Plan.DEFAULT_PLAN Hv) as (_ & H & _).
  exact H.
Defined.

(** The number of slices of a loop that are followed by a skip. *)
Lemma timelineLoop_skips (n r s : Z) (k : nat) :
  forall (i c : Z),
    i + Z.of_nat (S k) = n ->
    List.length (filter Plan.skipAfter (Plan.timelineLoop (S k) i c n r s)) = k.
Proof.
  induction k as [|k IH]; intros i c Hb.
  - simpl. assert (He : (i =? n - 1) = true) by (apply Z.eqb_eq; lia).
    rewrite He. reflexivity.
  - rewrite timelineLoop_S.
    assert (Hne : (i =? n - 1) = false) by (apply Z.eqb_neq; lia).
    cbn [filter Plan.skipAfter]. rewrite Hne. cbn [negb List.length].
    rewrite IH by lia. reflexivity.
Qed.

(** X4.  Every slice of the timeline of a plan with a positive duration and
    slice length starts at its index times the slice length, lasts a
    positive time of at most the slice length, and ends within the total
    duration; only the last slice can be the shorter remainder, and the
    last slice ends exactly at the total duration. *)
Theorem computeTimeline_slice_shape (plan : Plan.IntervalPlan) :
  0 < Plan.sliceLengthSeconds plan ->
  0 < Plan.totalMs plan ->
  let stats := Plan.computeTimeline plan in
  let sliceMs := Plan.baseSliceDurationMs stats in
  forall i a, nth_error (Plan.timeline stats) i = Some a ->
    Plan.index a = Z.of_nat i /\
    Plan.startMs a = Z.of_nat i * sliceMs /\
    Plan.endMs a = Plan.startMs a + Plan.durationMs a /\
    0 < Plan.durationMs a <= sliceMs /\
    Plan.endMs a <= Plan.totalDurationMs stats /\
    (Plan.isRemainder a = true <->
       S i = List.length (Plan.timeline stats) /\ 0 < Plan.remainderMs stats) /\
    (Plan.isRemainder a = true -> Plan.durationMs a = Plan.remainderMs stats /\
                                  Plan.durationMs a < sliceMs) /\
    (Plan.isRemainder a = false -> Plan.durationMs a = sliceMs) /\
    (S i = List.length (Plan.timeline stats) ->
       Plan.endMs a = Plan.totalDurationMs stats).
Proof.
  intros Hs HT. unfold Plan.computeTimeline.
  assert (Hle : (Plan.totalMs plan <=? 0) = false) by (apply Z.leb_gt; lia).
  rewrite Hle. cbv zeta. simpl.
  set (T := Plan.totalMs plan) in *.
  set (s := Plan.sliceLengthSeconds plan * 1000).
  assert (Hs' : 0 < s) by (unfold s; lia).
  destruct (slicesToCreate_cases T s HT Hs') as (Hf & Hr & Hn & Hcase).
  set (f := T / s) in *. set (r := T - f * s) in *.
  set (n := f + (if (0 <? r) || (f =? 0) then 1 else 0)) in *.
  intros i a Ha.
  assert (Hbound : 0 + Z.of_nat (Z.to_nat n) <= n) by lia.
  assert (Hlen := timelineLoop_length n r s (Z.to_nat n) 0 0).
  assert (Hi : (i < Z.to_nat n)%nat).
  { rewrite <- Hlen. apply nth_error_Some. congruence. }
  assert (Hrem : Plan.isRemainder a = (0 + Z.of_nat i =? n - 1) && (0 <? r)).
  { clear - Ha. revert Ha. generalize 0 at 1 3. generalize 0 at 1.
    generalize (Z.to_nat n) as k. intros k; revert i.
    induction k as [|k IH]; intros i c z Ha; [destruct i; discriminate|].
    destruct i as [|i]; simpl in Ha.
    - injection Ha as <-. simpl. now rewrite Z.add_0_r.
    - apply IH in Ha. rewrite Ha. f_equal. f_equal. lia. }
  destruct (timelineLoop_nth n r s _ _ _ _ _ Hbound Ha) as (Hidx & Hst & Hen & Hsk & Hd).
  rewrite Hlen.
  destruct (0 + Z.of_nat i =? n - 1) eqn:Elast.
  - apply Z.eqb_eq in Elast.
    destruct Hcase as [(Hr0 & Hnf) | (Hr0 & Hf0 & Hnf)].
    + assert (E : (0 <? r) = true) by (apply Z.ltb_lt; lia).
      rewrite E in *. simpl in Hd, Hrem. rewrite Hrem.
      repeat split; try lia; try discriminate; try (unfold r in *; nia).
    + assert (E : (0 <? r) = false) by (apply Z.ltb_ge; lia).
      rewrite E in *. simpl in Hd, Hrem. rewrite Hrem.
      repeat split; try lia; try discriminate; try (unfold r in *; nia).
  - apply Z.eqb_neq in Elast. simpl in Hd, Hrem. rewrite Hrem.
    assert (Z.of_nat i < n - 1) by lia.
    assert (Hend : (Z.of_nat i + 1) * s <= T).
    { destruct Hcase as [(Hr0 & Hnf) | (Hr0 & Hf0 & Hnf)]; unfold r in *; nia. }
    repeat split; try lia; try discriminate.
Qed.

Lemma computeTimeline_slice_shape_witness :
  Plan.endMs (Plan.mkSlice 3 30000 180000 210000 true false)
  = Plan.totalDurationMs (Plan.computeTimeline (Plan.mkPlan 3 true 60)).
Proof.
  destruct (computeTimeline_slice_shape (Plan.mkPlan 3 true 60) eq_refl eq_refl 3%nat
              (Plan.mkSlice 3 30000 180000 210000 true false) eq_refl)
    as (_ & _ & _ & _ & _ & _ & _ & _ & He).
  apply He. reflexivity.
Defined.

(** X5.  [skipCount] is the number of slices that are followed by a skip, one
    less than the number of slices, for a plan with a positive duration
    and slice length; a plan whose duration is not positive has an empty
    timeline, no skip and a reported duration of 0. *)
Theorem computeTimeline_skipCount (plan : Plan.IntervalPlan) :
  (0 < Plan.sliceLengthSeconds plan -> 0 < Plan.totalMs plan ->
   let stats := Plan.computeTimeline plan in
   Plan.skipCount stats
   = Z.of_nat (List.length (filter Plan.skipAfter (Plan.timeline stats))) /\
   Plan.skipCount stats = Z.of_nat (List.length (Plan.timeline stats)) - 1) /\
  (Plan.totalMs plan <= 0 ->
   let stats := Plan.computeTimeline plan in
   Plan.timeline stats = [] /\ Plan.skipCount stats = 0 /\
   Plan.totalDurationMs stats = 0 /\ Plan.fullSlices stats = 0 /\
   Plan.remainderMs stats = 0).
Proof.
  split.
  - intros Hs HT. unfold Plan.computeTimeline.
    assert (Hle : (Plan.totalMs plan <=? 0) = false) by (apply Z.leb_gt; lia).
    rewrite Hle. cbv zeta. simpl.
    set (T := Plan.totalMs plan) in *.
    set (s := Plan.sliceLengthSeconds plan * 1000).
    assert (Hs' : 0 < s) by (unfold s; lia).
    destruct (slicesToCreate_cases T s HT Hs') as (Hf & Hr & Hn & _).
    set (f := T / s) in *. set (r := T - f * s) in *.
    set (n := f + (if (0 <? r) || (f =? 0) then 1 else 0)) in *.
    rewrite timelineLoop_length.
    destruct (Z.to_nat n) as [|k] eqn:Ek; [lia|].
    rewrite (timelineLoop_skips n r s k 0 0) by lia. lia.
  - intros HT. unfold Plan.computeTimeline.
    assert (Hle : (Plan.totalMs plan <=? 0) = true) by (apply Z.leb_le; lia).
    rewrite Hle. simpl. tauto.
Qed.

Lemma computeTimeline_skipCount_witness :
  Plan.skipCount (Plan.computeTimeline Plan.DEFAULT_PLAN) = 4 /\
  Plan.timeline (Plan.computeTimeline (Plan.mkPlan 0 false 120)) = [].
Proof.
  destruct (computeTimeline_skipCount Plan.DEFAULT_PLAN) as [H _].
  destruct (computeTimeline_skipCount (Plan.mkPlan 0 false 120)) as [_ H'].
  split.
  - destruct (H eq_refl eq_refl) as [_ E]. rewrite E. reflexivity.
  - assert (Hz : Plan.totalMs (Plan.mkPlan 0 false 120) <= 0) by (vm_compute; discriminate).
    destruct (H' Hz) as [E _]. exact E.
Defined.

(** X6.  Migration of the legacy shape (an array of slices and no numeric
    [sliceLengthSeconds]): the first slice's length is computed in
    doubles as [minutes * 60 + seconds]; when that double is finite the
    slice length is an enumerated option nearest to it, and that value
    itself when it is an option; when it is not finite the slice length
    is the default 120.  The extra 30 seconds are kept exactly when the
    stored [totalSeconds] is at least 30. *)
Theorem migrateLegacyPlan_legacy_shape
    (o : Plan.RawObject) (rest : list (option Plan.RawSlice)) (m s : float) :
  (forall n, Plan.raw_sliceLengthSeconds o <> Plan.JNumber n) ->
  Plan.raw_slices o
  = Some (Some {| Plan.minutes := Some m; Plan.seconds := Some s |} :: rest) ->
  let total := Plan.numberOfFloat (Plan.numPlus (Plan.numTimes60 m) s) in
  exists plan,
    Plan.migrateLegacyPlan (Plan.RawObj o) = Some plan /\
    In (Plan.sliceLengthSeconds plan) Plan.SLICE_OPTIONS_SECONDS /\
    (forall q, total = Plan.Finite q ->
       Plan.nearestOption (Plan.sliceLengthSeconds plan) q /\
       (forall opt, In opt Plan.SLICE_OPTIONS_SECONDS -> q == inject_Z opt ->
                    Plan.sliceLengthSeconds plan = opt)) /\
    (Plan.isFinite total = false -> Plan.sliceLengthSeconds plan = 120) /\
    Plan.totalMinutes plan = Plan.clampMinutesOr (Plan.raw_totalMinutes o) 10 /\
    (Plan.includeThirtySeconds plan = true <->
       30 <= Plan.clampMinutesOr (Plan.raw_totalSeconds o) 0).
Proof.
  intros Hnum Hsl total.
  assert (Hm : Plan.migrateLegacyPlan (Plan.RawObj o)
               = Some {| Plan.totalMinutes := Plan.clampMinutesOr (Plan.raw_totalMinutes o) 10;
                         Plan.includeThirtySeconds :=
                           30 <=? Plan.clampMinutesOr (Plan.raw_totalSeconds o) 0;
                         Plan.sliceLengthSeconds := Plan.sanitizeSliceSeconds total |}).
  { unfold Plan.migrateLegacyPlan.
    destruct (Plan.raw_sliceLengthSeconds o) as [|n|] eqn:E;
      [|exfalso; apply (Hnum n); reflexivity|]; rewrite Hsl; reflexivity. }
  eexists. split; [exact Hm|].
  cbn [Plan.sliceLengthSeconds Plan.totalMinutes Plan.includeThirtySeconds].
  split; [apply sanitizeSliceSeconds_in_options|].
  split.
  { intros q ->. split; [apply sanitize_finite_nearest|].
    intros opt Ho Hq. apply sanitizeSliceSeconds_fixes_options; assumption. }
  split.
  { destruct total; [discriminate | reflexivity | reflexivity | reflexivity]. }
  split; [reflexivity | apply Z.leb_le].
Qed.

Lemma migrateLegacyPlan_legacy_shape_witness :
  exists plan,
    Plan.migrateLegacyPlan
      (Plan.RawObj {| Plan.raw_sliceLengthSeconds := Plan.JNullish;
                      Plan.raw_totalMinutes := Plan.JNumber (Plan.Finite 20);
                      Plan.raw_includeThirtySeconds := false;
                      Plan.raw_slices :=
                        Some [Some {| Plan.minutes := Some 1%float;
                                      Plan.seconds := Some 30%float |}];
                      Plan.raw_totalSeconds := Plan.JNumber (Plan.Finite 30) |})
    = Some plan /\ Plan.sliceLengthSeconds plan = 90.
Proof.
  destruct (migrateLegacyPlan_legacy_shape
              {| Plan.raw_sliceLengthSeconds := Plan.JNullish;
                 Plan.raw_totalMinutes := Plan.JNumber (Plan.Finite 20);
                 Plan.raw_includeThirtySeconds := false;
                 Plan.raw_slices :=
                   Some [Some {| Plan.minutes := Some 1%float;
                                 Plan.seconds := Some 30%float |}];
                 Plan.raw_totalSeconds := Plan.JNumber (Plan.Finite 30) |}
              [] 1%float 30%float ltac:(intros n; discriminate) eq_refl)
    as (plan & Hp & _ & Hfin & _).
  exists plan. split; [exact Hp|].
  assert (E : exists q,
            Plan.numberOfFloat (Plan.numPlus (Plan.numTimes60 1%float) 30%float)
            = Plan.Finite q /\ q == 90).
  { eexists. split; [vm_compute; reflexivity | reflexivity]. }
  destruct E as (q & Eq & Hq).
  destruct (Hfin q Eq) as [_ Hfix].
  apply Hfix; [simpl; tauto | exact Hq].
Defined.

(** The sum is the double the source computes: half a minute plus the
    largest double below 15 seconds is exactly 45 and is rounded up to
    60, and a first slice of 1e308 minutes overflows to infinity and
    falls back to 120. *)
Example legacy_first_slice_in_doubles :
  Plan.sanitizeSliceSeconds
    (Plan.numberOfFloat (Plan.numPlus (Plan.numTimes60 0.5%float) 0x1.dffffffffffffp+3%float))
  = 60 /\
  Plan.sanitizeSliceSeconds
    (Plan.numberOfFloat (Plan.numPlus (Plan.numTimes60 0x1.1ccf385ebc8ap+1023%float) 0%float))
  = 120.
Proof. split; vm_compute; reflexivity. Qed.

(** ** The session driver: reachable states and a complete run *)

Section SessionInvariant.

Import Session.

(** Cancelling a timeout keeps the remaining ids distinct. *)
Lemma clearTimeout_distinct (id : Z) (table : list Timer) :
  NoDup (map timerId table) -> NoDup (map timerId (clearTimeout id table)).
Proof.
  unfold clearTimeout.
  induction table as [|t table IH]; intros Hnd; [constructor|].
  cbn [map] in Hnd. apply NoDup_cons_iff in Hnd. destruct Hnd as [Hfresh Hrest].
  cbn [filter]. destruct (negb (timerId t =? id)); [|exact (IH Hrest)].
  cbn [map]. apply NoDup_cons; [|exact (IH Hrest)].
  intros Hin. apply Hfresh.
  apply in_map_iff in Hin. destruct Hin as (t' & Hid & Hin).
  apply filter_In in Hin. apply in_map_iff. exists t'. tauto.
Qed.

Lemma clearTicker_wf (d : Driver) :
  tickRef d = ticking d ->
  tickRef (clearTicker d) = ticking (clearTicker d).
Proof.
  intros H. unfold clearTicker. destruct (tickRef d) as [id|] eqn:E; [|now rewrite E].
  simpl. rewrite <- H. now rewrite Z.eqb_refl.
Qed.

Lemma clearTicker_clears (d : Driver) :
  tickRef d = ticking d ->
  tickRef (clearTicker d) = None /\ ticking (clearTicker d) = None.
Proof.
  intros H. unfold clearTicker. destruct (tickRef d) as [id|] eqn:E.
  - simpl. rewrite <- H. now rewrite Z.eqb_refl.
  - rewrite E. split; [reflexivity | congruence].
Qed.

Lemma stopSession_wellFormed (d : Driver) : wellFormed d -> wellFormed (stopSession d).
Proof.
  intros (Ht & _ & _ & Htick & _ & _).
  destruct (clearTimers_cancels d Ht) as [Hp Hr].
  destruct (clearTicker_timers (clearTimers d)) as (Ep & Er & _ & _).
  unfold wellFormed, stopSession, timersTracked. simpl.
  rewrite Ep, Hp. simpl.
  split; [intros t []|]. split; [constructor|]. split; [constructor|].
  split; [apply clearTicker_wf; exact Htick|]. split; [tauto | lia].
Qed.

Lemma unmount_wellFormed (d : Driver) : wellFormed d -> wellFormed (unmount d).
Proof.
  intros (Ht & _ & _ & Htick & Hst & Hidx).
  destruct (clearTimers_cancels d Ht) as [Hp Hr].
  destruct (clearTicker_timers (clearTimers d)) as (Ep & Er & Es & _).
  unfold wellFormed, unmount, timersTracked.
  rewrite Ep, Hp, Es. simpl.
  split; [intros t []|]. split; [constructor|]. split; [constructor|].
  split; [apply clearTicker_wf; exact Htick|]. split; assumption.
Qed.

Lemma scheduleAll_timersOk (c : bool) (st len : Z) (slices : list Plan.TimelineSlice) :
  forall (i : Z) (d : Driver),
    0 <= i -> i + Z.of_nat (List.length slices) <= len ->
    timersOk d ->
    timersOk (scheduleAll c st len slices i d) /\
    tickRef (scheduleAll c st len slices i d) = tickRef d /\
    ticking (scheduleAll c st len slices i d) = ticking d.
Proof.
  induction slices as [|s slices IH]; intros i d Hi Hlen Hok; simpl; [tauto|].
  simpl List.length in Hlen.
  destruct Hok as (Ht & Hnd & Hall).
  destruct (IH (i + 1) (scheduleSlice c st len d s i)) as (H1 & H2 & H3); try lia.
  - unfold timersOk, timersTracked. simpl. split; [|split].
    + intros t Hin. apply in_app_or in Hin. apply in_or_app.
      destruct Hin as [Hin | [<- | []]]; [left; apply Ht, Hin | right; left; reflexivity].
    + rewrite map_app. simpl.
      apply NoDup_app; [exact Hnd | repeat constructor; intros [] |].
      intros x Hx [<- | []].
      apply in_map_iff in Hx. destruct Hx as (t & Hid & Hin).
      rewrite Forall_forall in Hall. specialize (Hall t Hin). lia.
    + apply Forall_app. split.
      * eapply Forall_impl; [|exact Hall]. simpl. intros t ?. lia.
      * repeat constructor; simpl; lia.
  - split; [exact H1|]. split; [rewrite H2 | rewrite H3]; reflexivity.
Qed.

Lemma startSession_wellFormed
    (tokens : option Auth.AuthTokens) (stats : Plan.IntervalStats) (startTime : Z)
    (d : Driver) :
  wellFormed d -> wellFormed (startSession tokens stats startTime d).
Proof.
  intros Hwf. unfold startSession.
  destruct (negb (Auth.hasAccessToken tokens)
            || (Z.of_nat (List.length (Plan.timeline stats)) =? 0)); [exact Hwf|].
  destruct Hwf as (Ht & _ & _ & Htick & _ & _).
  destruct (clearTimers_cancels d Ht) as [Hp Hr].
  destruct (clearTicker_timers (clearTimers d)) as (Ep & Er & _ & _).
  cbv zeta.
  match goal with
  | |- wellFormed (scheduleAll ?c ?st ?len ?sl ?i ?d0) =>
      destruct (scheduleAll_timersOk c st len sl i d0) as ((H1 & H2 & H3) & H4 & H5);
        [lia | lia | |
         destruct (scheduleAll_shape c st len sl i d0) as (Hs & _)]
  end.
  - unfold timersOk, timersTracked. simpl. rewrite Ep, Hp.
    split; [intros t []|]. split; constructor.
  - unfold wellFormed. rewrite Hs, H4, H5. simpl.
    split; [exact H1|]. split; [exact H2|]. split; [exact H3|].
    split; [reflexivity|]. split; [|lia]. split; discriminate.
Qed.

Lemma fire_wellFormed (id : Z) (d d' : Driver) (cmds : list Command) :
  wellFormed d -> fire id d = Some (d', cmds) -> wellFormed d'.
Proof.
  intros (Ht & Hnd & Hall & Htick & Hst & Hidx) Hf. unfold fire in Hf.
  destruct (find (fun t => timerId t =? id) (pending d)) as [t|] eqn:Efind; [|discriminate].
  apply find_some in Efind. destruct Efind as [Hin _].
  rewrite Forall_forall in Hall. pose proof (Hall t Hin) as [_ Hrange].
  injection Hf as <- _. unfold sliceCallback. cbv zeta.
  set (next := match startedAt (state d) with
               | None => state d
               | Some _ => _
               end).
  assert (Hnext : (status next = idle <-> startedAt next = None) /\
                  0 <= currentSliceIndex next).
  { unfold next. destruct (startedAt (state d)) as [started|] eqn:Es.
    - simpl. split.
      + destruct (sliceIndex t =? timelineLength t - 1); split; discriminate.
      + destruct (sliceIndex t =? timelineLength t - 1); lia.
    - rewrite Es. split; [tauto | exact Hidx]. }
  assert (Hbase : forall dd, pending dd = clearTimeout id (pending d) ->
                             timersRef dd = timersRef d -> nextId dd = nextId d ->
                             tickRef dd = ticking dd -> state dd = next ->
                             wellFormed dd).
  { intros dd Ep Er En Etk Es. unfold wellFormed, timersTracked.
    rewrite Ep, Er, En, Es. unfold clearTimeout.
    split; [intros t' Hin'; apply filter_In in Hin'; apply Ht; tauto|].
    split; [apply clearTimeout_distinct; exact Hnd|].
    split; [|split; [exact Etk | exact Hnext]].
    apply Forall_forall. intros t' Hin'. apply filter_In in Hin'. apply Hall. tauto. }
  destruct (sliceIndex t =? timelineLength t - 1).
  - match goal with |- wellFormed (clearTicker ?d0) =>
      destruct (clearTicker_timers d0) as (Ep & Er & Es & En);
      apply Hbase; [rewrite Ep | rewrite Er | rewrite En | | rewrite Es];
        try reflexivity; apply clearTicker_wf; exact Htick
    end.
  - apply Hbase; try reflexivity. exact Htick.
Qed.

Lemma step_wellFormed (e : Event) (d : Driver) : wellFormed d -> wellFormed (step e d).
Proof.
  intros Hwf. destruct e as [tokens stats startTime | | id | prev next | tokens | ]; simpl.
  - apply startSession_wellFormed, Hwf.
  - apply stopSession_wellFormed, Hwf.
  - destruct (fire id d) as [[d' cmds]|] eqn:E; [|exact Hwf].
    apply (fire_wellFormed id d d' cmds Hwf E).
  - unfold timelineEffect. destruct (_ && _); [exact Hwf | apply stopSession_wellFormed, Hwf].
  - unfold credentialEffect. destruct (status (state d)); try exact Hwf.
    destruct (Auth.hasAccessToken tokens); [exact Hwf | apply stopSession_wellFormed, Hwf].
  - apply unmount_wellFormed, Hwf.
Qed.

Lemma initial_wellFormed : wellFormed initial.
Proof.
  unfold wellFormed, timersTracked. simpl.
  split; [intros t []|]. split; [constructor|]. split; [constructor|].
  split; [reflexivity|]. split; [tauto | lia].
Qed.

Lemma run_wellFormed (events : list Event) (d : Driver) :
  wellFormed d -> wellFormed (run events d).
Proof.
  revert d; induction events as [|e es IH]; intros d Hwf; simpl; [exact Hwf|].
  apply IH, step_wellFormed, Hwf.
Qed.

End SessionInvariant.

Lemma Forall2_last {A B} (R : A -> B -> Prop) (P : A -> Prop) (d : A)
    (l1 : list A) (l2 : list B) :
  (forall a b, R a b -> P a) -> Forall2 R l1 l2 -> l1 <> [] -> P (last l1 d).
Proof.
  intros HR H. induction H as [|a b l1' l2' Hab H' IH]; [congruence|].
  intros _. destruct l1' as [|a' l1''].
  - simpl. apply (HR a b Hab).
  - change (last (a :: a' :: l1'') d) with (last (a' :: l1'') d).
    apply IH. congruence.
Qed.

Section SessionRun.

Import Session.

(** The timers [scheduleAll] adds, slice by slice. *)
Lemma scheduleAll_new_timers (c : bool) (st len : Z) (slices : list Plan.TimelineSlice) :
  forall (i : Z) (d : Driver) (dflt : Timer),
  exists new,
    pending (scheduleAll c st len slices i d) = pending d ++ new /\
    Forall2 (fun t s => sliceSkipAfter t = Plan.skipAfter s /\ canSkip t = c /\
                        timelineLength t = len /\ dueAt t = st + Plan.endMs s)
            new slices /\
    (slices <> [] ->
     sliceIndex (last new dflt) = i + Z.of_nat (List.length slices) - 1).
Proof.
  induction slices as [|s slices IH]; intros i d dflt.
  - exists []. simpl. rewrite app_nil_r. split; [reflexivity|].
    split; [constructor | congruence].
  - destruct (IH (i + 1) (scheduleSlice c st len d s i) dflt) as (new & Hp & Hrel & Hlast).
    simpl scheduleAll. simpl pending in Hp. rewrite <- app_assoc in Hp. simpl app in Hp.
    eexists. split; [exact Hp|]. split.
    + constructor; [simpl; tauto | exact Hrel].
    + intros _. destruct slices as [|s' slices'].
      * inversion Hrel; subst. simpl. lia.
      * inversion Hrel as [|t' s'' new' sl' Ht' Hrel']; subst.
        change (last (_ :: t' :: new') dflt) with (last (t' :: new') dflt).
        rewrite Hlast by congruence. simpl List.length. lia.
Qed.

(** The state a running session is left in by the callback of [t]. *)
Lemma sliceCallback_running (t : Timer) (d : Driver) (started : Z) :
  startedAt (state d) = Some started ->
  let '(d', cmds) := sliceCallback t d in
  state d' = {| status := if sliceIndex t =? timelineLength t - 1
                          then completed else running;
                startedAt := Some started;
                currentSliceIndex :=
                  if sliceIndex t =? timelineLength t - 1 then sliceIndex t
                  else Z.min (sliceIndex t + 1) (timelineLength t - 1) |} /\
  pending d' = pending d /\
  cmds = (if sliceSkipAfter t && canSkip t then [SkipToNext] else []) /\
  (tickRef d = ticking d -> tickRef d' = ticking d') /\
  (tickRef d = ticking d -> sliceIndex t = timelineLength t - 1 -> ticking d' = None).
Proof.
  intros Hs. unfold sliceCallback. cbv zeta. rewrite Hs.
  destruct (sliceIndex t =? timelineLength t - 1) eqn:E.
  - match goal with |- context [clearTicker ?d0] =>
      destruct (clearTicker_timers d0) as (Ep & _ & Es & _);
      pose proof (clearTicker_wf d0) as Hw; pose proof (clearTicker_clears d0) as Hc
    end.
    rewrite Es, Ep. simpl in *.
    repeat split; try reflexivity; [exact Hw | intros H _; apply Hc, H].
  - simpl. repeat split; try tauto.
    intros _ H. apply Z.eqb_neq in E. contradiction.
Qed.

(** Firing every pending timer of a running session, in the order of the
    table. *)
Lemma fireAll_pending (dflt : Timer) (ts : list Timer) :
  forall (d : Driver) (started : Z),
    pending d = ts -> ts <> [] ->
    NoDup (map timerId ts) ->
    startedAt (state d) = Some started ->
    tickRef d = ticking d ->
    let '(d', cmds) := fireAll (map timerId ts) d in
    let tl := last ts dflt in
    state d' = {| status := if sliceIndex tl =? timelineLength tl - 1
                            then completed else running;
                  startedAt := Some started;
                  currentSliceIndex :=
                    if sliceIndex tl =? timelineLength tl - 1 then sliceIndex tl
                    else Z.min (sliceIndex tl + 1) (timelineLength tl - 1) |} /\
    pending d' = [] /\
    cmds = flat_map (fun t => if sliceSkipAfter t && canSkip t then [SkipToNext] else []) ts /\
    (sliceIndex tl = timelineLength tl - 1 -> ticking d' = None).
Proof.
  induction ts as [|t rest IH]; intros d started Hp Hne Hnd Hs Htick; [congruence|].
  simpl map. simpl fireAll. unfold fire. rewrite Hp. simpl find. rewrite Z.eqb_refl.
  inversion Hnd as [|x xs Hnin Hnd']; subst x xs.
  assert (Hclr : clearTimeout (timerId t) (t :: rest) = rest).
  { unfold clearTimeout. simpl. rewrite Z.eqb_refl. simpl.
    clear - Hnin. induction rest as [|t' rest IH]; simpl; [reflexivity|].
    destruct (timerId t' =? timerId t) eqn:E.
    - apply Z.eqb_eq in E. exfalso. apply Hnin. simpl. left. exact E.
    - simpl. f_equal. apply IH. intros Hin. apply Hnin. right. exact Hin. }
  rewrite Hclr.
  match goal with |- context [sliceCallback t ?d0] =>
    pose proof (sliceCallback_running t d0 started Hs) as Hcb;
    destruct (sliceCallback t d0) as [d1 cmds1]
  end.
  destruct Hcb as (Hst1 & Hp1 & Hc1 & Htk1 & Hlast1). simpl in Hp1.
  destruct rest as [|t2 rest'].
  - simpl. rewrite !app_nil_r.
    split; [exact Hst1|]. split; [exact Hp1|]. split; [exact Hc1|].
    intros Hl. apply Hlast1; [exact Htick | exact Hl].
  - assert (Hs1 : startedAt (state d1) = Some started) by (rewrite Hst1; reflexivity).
    specialize (IH d1 started Hp1 ltac:(congruence) Hnd' Hs1 (Htk1 Htick)).
    destruct (fireAll (map timerId (t2 :: rest')) d1) as [d2 cmds2].
    change (last (t :: t2 :: rest') dflt) with (last (t2 :: rest') dflt).
    destruct IH as (H1 & H2 & H3 & H4).
    split; [exact H1|]. split; [exact H2|]. split; [|exact H4].
    rewrite Hc1, H3. reflexivity.
Qed.

End SessionRun.

(** X7.  In every state the driver can reach, the status is [idle] exactly
    when [startedAt] is absent, [currentSliceIndex] is not negative, and
    every live timer is one the hook holds the id of, under an id no
    other live timer has. *)
Theorem session_reachable_invariant (events : list Session.Event) :
  let d := Session.run events Session.initial in
  (Session.status (Session.state d) = Session.idle
   <-> Session.startedAt (Session.state d) = None) /\
  0 <= Session.currentSliceIndex (Session.state d) /\
  Session.timersTracked d /\
  NoDup (map Session.timerId (Session.pending d)) /\
  Session.tickRef d = Session.ticking d.
Proof.
  pose proof (run_wellFormed events Session.initial initial_wellFormed)
    as (H1 & H2 & _ & H4 & H5 & H6).
  cbv zeta. tauto.
Qed.

(** X8.  Stopping, losing the credential while running, and unmounting each
    cancel every slice timer and the tick of any reachable driver:
    afterwards no timeout can fire. *)
Theorem session_stop_cancels_everything (events : list Session.Event) :
  let d := Session.run events Session.initial in
  (forall id, Session.fire id (Session.stopSession d) = None) /\
  Session.ticking (Session.stopSession d) = None /\
  Session.state (Session.stopSession d)
  = {| Session.status := Session.idle; Session.startedAt := None;
       Session.currentSliceIndex := 0 |} /\
  (Session.status (Session.state d) = Session.running ->
   Session.credentialEffect None d = Session.stopSession d) /\
  (forall id, Session.fire id (Session.unmount d) = None) /\
  Session.ticking (Session.unmount d) = None.
Proof.
  pose proof (run_wellFormed events Session.initial initial_wellFormed)
    as (Ht & _ & _ & Htick & _ & _).
  cbv zeta. set (d := Session.run events Session.initial) in *.
  destruct (stopSession_cancels d Ht) as (_ & Hf & Hs).
  destruct (clearTimers_cancels d Ht) as [Hp _].
  destruct (clearTicker_timers (Session.clearTimers d)) as (Ep & _ & _ & _).
  assert (Hc : Session.ticking (Session.clearTicker (Session.clearTimers d)) = None)
    by (apply clearTicker_clears; exact Htick).
  split; [exact Hf|]. split; [exact Hc|]. split; [exact Hs|].
  split; [intros Hr; unfold Session.credentialEffect; rewrite Hr; reflexivity|].
  split; [|exact Hc].
  intros id. unfold Session.fire, Session.unmount. rewrite Ep, Hp. reflexivity.
Qed.

Lemma session_stop_cancels_everything_witness :
  Session.credentialEffect None runningBeforeEdit = Session.stopSession runningBeforeEdit.
Proof.
  destruct (session_stop_cancels_everything
              [Session.EStart sampleTokens statsBeforeEdit 0]) as (_ & _ & _ & H & _).
  apply H. reflexivity.
Defined.

(** X9.  Starting a session from any reachable state, with a credential and
    a non-empty timeline, replaces whatever was scheduled: the live
    timers are exactly one per slice, due at the start time plus the
    slice's end. *)
Theorem startSession_replaces_timers
    (events : list Session.Event) (tokens : option Auth.AuthTokens)
    (stats : Plan.IntervalStats) (startTime : Z) :
  Auth.hasAccessToken tokens = true -> Plan.timeline stats <> [] ->
  let d' := Session.startSession tokens stats startTime
              (Session.run events Session.initial) in
  Session.state d'
  = {| Session.status := Session.running; Session.startedAt := Some startTime;
       Session.currentSliceIndex := 0 |} /\
  map Session.dueAt (Session.pending d')
  = map (fun s => startTime + Plan.endMs s) (Plan.timeline stats) /\
  List.length (Session.pending d') = List.length (Plan.timeline stats).
Proof.
  intros Htok Hne.
  pose proof (run_wellFormed events Session.initial initial_wellFormed) as (Ht & _).
  destruct (startSession_schedules tokens stats startTime _ Htok Hne Ht) as (H1 & H2 & _).
  cbv zeta. split; [exact H1|]. split; [exact H2|].
  rewrite <- (length_map Session.dueAt), H2, length_map. reflexivity.
Qed.

Lemma startSession_replaces_timers_witness :
  map Session.dueAt
    (Session.pending
       (Session.startSession sampleTokens statsAfterEdit 1000
          (Session.run [Session.EStart sampleTokens statsBeforeEdit 0] Session.initial)))
  = [151000; 211000].
Proof.
  destruct (startSession_replaces_timers [Session.EStart sampleTokens statsBeforeEdit 0]
              sampleTokens statsAfterEdit 1000 eq_refl ltac:(vm_compute; discriminate))
    as (_ & H & _).
  rewrite H. reflexivity.
Defined.

(** X10.  A session left to run to its end: when the browser has fired every
    timer of a session started from a reachable state, the status is
    [completed], the current slice is the last one, the tick is stopped,
    no timer is left, and exactly one skip was issued for every slice
    marked [skipAfter]. *)
Theorem session_runs_to_completion
    (events : list Session.Event) (tokens : option Auth.AuthTokens)
    (stats : Plan.IntervalStats) (startTime : Z) :
  Auth.hasAccessToken tokens = true -> Plan.timeline stats <> [] ->
  let started := Session.startSession tokens stats startTime
                   (Session.run events Session.initial) in
  let finished := Session.fireAll (map Session.timerId (Session.pending started)) started in
  Session.state (fst finished)
  = {| Session.status := Session.completed; Session.startedAt := Some startTime;
       Session.currentSliceIndex := Z.of_nat (List.length (Plan.timeline stats)) - 1 |} /\
  Session.pending (fst finished) = [] /\
  Session.ticking (fst finished) = None /\
  snd finished
  = map (fun _ => Session.SkipToNext) (filter Plan.skipAfter (Plan.timeline stats)).
Proof.
  intros Htok Hne. cbv zeta.
  set (d := Session.run events Session.initial).
  pose proof (run_wellFormed events Session.initial initial_wellFormed) as Hwf. fold d in Hwf.
  pose proof (startSession_wellFormed tokens stats startTime d Hwf)
    as (_ & Hnd & _ & Htick & _ & _).
  destruct Hwf as (Ht & _).
  destruct (startSession_schedules tokens stats startTime d Htok Hne Ht) as (Hst & _ & _).
  cbv zeta in Hst.
  set (dflt := Session.mkTimer 0 0 0 false 0 false).
  assert (Hnew : exists new,
            Session.pending (Session.startSession tokens stats startTime d) = new /\
            Forall2 (fun t s => Session.sliceSkipAfter t = Plan.skipAfter s /\
                                Session.canSkip t = true /\
                                Session.timelineLength t
                                = Z.of_nat (List.length (Plan.timeline stats)) /\
                                Session.dueAt t = startTime + Plan.endMs s)
                    new (Plan.timeline stats) /\
            Session.sliceIndex (last new dflt)
            = Z.of_nat (List.length (Plan.timeline stats)) - 1).
  { unfold Session.startSession. rewrite Htok. simpl negb.
    assert (Hl : (Z.of_nat (List.length (Plan.timeline stats)) =? 0) = false).
    { apply Z.eqb_neq. destruct (Plan.timeline stats); [congruence | simpl; lia]. }
    rewrite Hl. simpl orb. cbv iota zeta.
    destruct (clearTimers_cancels d Ht) as [Hp _].
    destruct (clearTicker_timers (Session.clearTimers d)) as (Ep & _ & _ & _).
    match goal with
    | |- context [Session.scheduleAll ?c ?st ?len ?sl ?i ?d0] =>
        destruct (scheduleAll_new_timers c st len sl i d0 dflt) as (new & H1 & H2 & H3);
        assert (E0 : Session.pending d0 = []) by (simpl; rewrite Ep, Hp; reflexivity);
        rewrite E0 in H1
    end.
    exists new.
    split; [exact H1|]. split; [exact H2|]. rewrite (H3 Hne). lia. }
  destruct Hnew as (new & Hp & Hrel & Hlast).
  set (started := Session.startSession tokens stats startTime d) in *.
  assert (Hnn : new <> []).
  { intros E. rewrite E in Hrel. inversion Hrel. congruence. }
  rewrite Hp in Hnd |- *.
  pose proof (fireAll_pending dflt new started startTime Hp Hnn Hnd
                ltac:(rewrite Hst; reflexivity) Htick) as Hrun.
  destruct (Session.fireAll (map Session.timerId new) started) as [dfin cmds].
  cbv zeta in Hrun. destruct Hrun as (H1 & H2 & H3 & H4).
  assert (Hlen : Session.timelineLength (last new dflt)
                 = Z.of_nat (List.length (Plan.timeline stats))).
  { revert Hrel Hnn.
    apply (Forall2_last _ (fun t => Session.timelineLength t
                                    = Z.of_nat (List.length (Plan.timeline stats)))).
    intros t0 s0 H0. tauto. }
  assert (Elast : (Session.sliceIndex (last new dflt)
                   =? Session.timelineLength (last new dflt) - 1) = true)
    by (apply Z.eqb_eq; lia).
  rewrite Elast in H1. simpl fst. simpl snd.
  split; [rewrite H1, Hlast; reflexivity|]. split; [exact H2|].
  split; [apply H4; lia|].
  rewrite H3. clear - Hrel.
  induction Hrel as [|t s new' sl' (Hsk & Hc & _) Hrel' IH]; [reflexivity|].
  simpl. rewrite Hsk, Hc, andb_true_r, IH.
  destruct (Plan.skipAfter s); reflexivity.
Qed.

Lemma session_runs_to_completion_witness :
  snd (Session.fireAll (map Session.timerId (Session.pending runningBeforeEdit))
         runningBeforeEdit)
  = [Session.SkipToNext].
Proof.
  destruct (session_runs_to_completion [] sampleTokens statsBeforeEdit 0 eq_refl
              ltac:(vm_compute; discriminate)) as (_ & _ & _ & H).
  exact H.
Defined.

(** ** The playback observer: failures, loading flag and repeated results *)

Section ObserverFacts.

Import Observer.

Lemma optStringEqb_refl (a : option string) : optStringEqb a a = true.
Proof. destruct a; simpl; [apply String.eqb_refl | reflexivity]. Qed.

Lemma optStringEqb_eq (a b : option string) : optStringEqb a b = true -> a = b.
Proof.
  destruct a, b; simpl; try discriminate; [|reflexivity].
  intros H. apply String.eqb_eq in H. now subst.
Qed.

(** What an active result leaves in the state. *)
Lemma applyOutcome_active (o : Outcome) (prev : HookState) :
  (initialized prev = true -> isLoading prev = false) ->
  let st := applyOutcome true o prev in
  initialized st = true /\ isLoading st = false /\
  match o with
  | NoTrack => track st = None /\ error st = None
  | Track t => track st = Some t /\ error st = None
  | Failure message => track st = None /\ error st = Some message
  end.
Proof.
  intros Hinv. unfold applyOutcome. simpl negb. cbv iota.
  destruct o as [|t|message].
  - destruct (initialized prev) eqn:Ei; simpl; [|tauto].
    specialize (Hinv eq_refl).
    destruct (track prev) eqn:Et, (error prev) eqn:Ee, (isLoading prev) eqn:El;
      simpl; rewrite ?Ei, ?Et, ?Ee, ?El; try tauto; discriminate.
  - simpl. tauto.
  - destruct (optStringEqb (error prev) (Some message)) eqn:Ee; simpl; [|tauto].
    destruct (track prev) eqn:Et; simpl; [tauto|].
    destruct (initialized prev) eqn:Ei; simpl; [|tauto].
    rewrite Ei, Et. apply optStringEqb_eq in Ee.
    split; [reflexivity|]. split; [apply Hinv; reflexivity | tauto].
Qed.

Lemma beginFetch_inv (prev : HookState) :
  (initialized prev = true -> isLoading prev = false) ->
  (initialized prev = false -> track prev = None /\ error prev = None) ->
  let st := beginFetch prev in
  (initialized st = true -> isLoading st = false) /\
  (initialized st = false -> track st = None /\ error st = None) /\
  initialized st = initialized prev /\ track st = track prev /\ error st = error prev.
Proof.
  intros H1 H2. unfold beginFetch. destruct (initialized prev) eqn:Ei; simpl;
    rewrite ?Ei.
  - tauto.
  - split; [discriminate|]. tauto.
Qed.

Lemma fetchCurrentTrack_inv (isActive : bool) (now : Z) (r : FetchResult) (prev : HookState) :
  (initialized prev = true -> isLoading prev = false) ->
  (initialized prev = false -> track prev = None /\ error prev = None) ->
  let st := fetchCurrentTrack isActive now r prev in
  (initialized st = true -> isLoading st = false) /\
  (initialized st = false -> track st = None /\ error st = None) /\
  (isActive = true -> initialized st = true) /\
  (initialized prev = true -> initialized st = true).
Proof.
  intros H1 H2. cbv zeta. unfold fetchCurrentTrack.
  destruct (beginFetch_inv prev H1 H2) as (B1 & B2 & B3 & B4 & B5).
  destruct isActive.
  - destruct (applyOutcome_active (normalize now r) (beginFetch prev) B1) as (A1 & A2 & _).
    rewrite A1, A2. repeat split; try tauto; discriminate.
  - unfold applyOutcome. simpl negb. cbv iota.
    split; [exact B1|]. split; [exact B2|]. split; [discriminate|].
    rewrite B3. tauto.
Qed.

End ObserverFacts.

(** X11.  A request that is rejected, or answered with a status that is
    neither 204 nor a success, never produces a track: the track is
    cleared and the error is the rejection's message, respectively the
    message of the payload or "Failed to load current Spotify track." *)
Theorem fetchCurrentTrack_failure
    (now : Z) (r : Observer.FetchResult) (prev : Observer.HookState) :
  (Observer.initialized prev = true -> Observer.isLoading prev = false) ->
  let after := Observer.fetchCurrentTrack true now r prev in
  (forall message, r = Observer.Rejected message ->
     Observer.track after = None /\ Observer.error after = Some message) /\
  (forall response,
     r = Observer.Resolved response ->
     Observer.status response <> 204 -> Observer.ok response = false ->
     Observer.track after = None /\
     Observer.error after
     = Some (match Observer.json response with
             | Some p => Observer.orElse (Observer.error_message p)
                           "Failed to load current Spotify track."%string
             | None => "Failed to load current Spotify track."%string
             end)) /\
  (forall response,
     r = Observer.Resolved response ->
     Observer.status response <> 204 -> Observer.ok response = true ->
     Observer.json response = None ->
     Observer.track after = None /\
     Observer.error after = Some (Observer.json_error response)).
Proof.
  intros Hinv. cbv zeta. unfold Observer.fetchCurrentTrack.
  assert (Hb : Observer.initialized (Observer.beginFetch prev) = true ->
               Observer.isLoading (Observer.beginFetch prev) = false).
  { unfold Observer.beginFetch. destruct (Observer.initialized prev) eqn:E; simpl;
      rewrite ?E; [intros _; apply Hinv; reflexivity | discriminate]. }
  assert (Hf : forall message,
             Observer.normalize now r = Observer.Failure message ->
             Observer.track (Observer.applyOutcome true (Observer.normalize now r)
                               (Observer.beginFetch prev)) = None /\
             Observer.error (Observer.applyOutcome true (Observer.normalize now r)
                               (Observer.beginFetch prev)) = Some message).
  { intros message E. rewrite E.
    apply (applyOutcome_active (Observer.Failure message) _ Hb). }
  split; [|split].
  - intros message ->. apply Hf. reflexivity.
  - intros response -> Hs Hok. apply Hf. unfold Observer.normalize.
    apply Z.eqb_neq in Hs. rewrite Hs, Hok. simpl.
    destruct (Observer.json response); reflexivity.
  - intros response -> Hs Hok Hj. apply Hf. unfold Observer.normalize.
    apply Z.eqb_neq in Hs. rewrite Hs, Hok, Hj. reflexivity.
Qed.

Lemma fetchCurrentTrack_failure_witness :
  Observer.error
    (Observer.fetchCurrentTrack true 0 (Observer.Rejected "offline") Observer.INITIAL_STATE)
  = Some "offline"%string.
Proof.
  destruct (fetchCurrentTrack_failure 0 (Observer.Rejected "offline") Observer.INITIAL_STATE
              ltac:(discriminate)) as (H & _).
  apply (H "offline"%string eq_refl).
Defined.

(** X12.  Over any sequence of polls from the initial state, the loading flag
    is up only before the first result has been applied, while neither a
    track nor an error is shown; once a result has been applied the
    state stays initialized, and a response that arrives after
    deactivation changes neither the track nor the error. *)
Theorem observer_loading_only_before_first_result
    (polls : list (bool * Z * Observer.FetchResult)) :
  let st := Observer.pollAll polls Observer.INITIAL_STATE in
  (Observer.isLoading st = true ->
     Observer.initialized st = false /\ Observer.track st = None /\
     Observer.error st = None) /\
  (Exists (fun p => fst (fst p) = true) polls -> Observer.initialized st = true) /\
  (forall now r,
     Observer.isLoading (Observer.beginFetch (Observer.fetchCurrentTrack true now r st))
     = false) /\
  (forall now r,
     Observer.track (Observer.fetchCurrentTrack false now r st) = Observer.track st /\
     Observer.error (Observer.fetchCurrentTrack false now r st) = Observer.error st).
Proof.
  cbv zeta.
  assert (Hgen : forall prev,
             (Observer.initialized prev = true -> Observer.isLoading prev = false) ->
             (Observer.initialized prev = false ->
                Observer.track prev = None /\ Observer.error prev = None) ->
             let st := Observer.pollAll polls prev in
             (Observer.initialized st = true -> Observer.isLoading st = false) /\
             (Observer.initialized st = false ->
                Observer.track st = None /\ Observer.error st = None) /\
             (Observer.initialized prev = true \/
              Exists (fun p => fst (fst p) = true) polls ->
              Observer.initialized st = true)).
  { induction polls as [|[[a now] r] rest IH]; intros prev H1 H2; simpl.
    - split; [exact H1|]. split; [exact H2|].
      intros [H | H]; [exact H | inversion H].
    - destruct (fetchCurrentTrack_inv a now r prev H1 H2) as (F1 & F2 & F3 & F4).
      destruct (IH _ F1 F2) as (G1 & G2 & G3).
      split; [exact G1|]. split; [exact G2|].
      intros [H | H]; apply G3.
      + left. apply F4, H.
      + inversion H as [x l Hx | x l Hx]; subst; [left; apply F3, Hx | right; exact Hx]. }
  destruct (Hgen Observer.INITIAL_STATE ltac:(discriminate) ltac:(simpl; tauto))
    as (G1 & G2 & G3).
  set (st := Observer.pollAll polls Observer.INITIAL_STATE) in *.
  split.
  { intros Hl. destruct (Observer.initialized st) eqn:Ei.
    - rewrite (G1 eq_refl) in Hl. discriminate.
    - split; [reflexivity | apply G2; reflexivity]. }
  split; [intros H; apply G3; right; exact H|].
  split.
  - intros now r.
    destruct (fetchCurrentTrack_inv true now r st G1 G2) as (F1 & _ & F3 & _).
    unfold Observer.beginFetch at 1. rewrite (F3 eq_refl). apply F1, F3. reflexivity.
  - intros now r. unfold Observer.fetchCurrentTrack, Observer.applyOutcome. simpl negb.
    cbv iota. destruct (beginFetch_inv st G1 G2) as (_ & _ & _ & B4 & B5). tauto.
Qed.

Lemma observer_loading_only_before_first_result_witness :
  Observer.initialized
    (Observer.pollAll [(true, 1000, Observer.Resolved emptyArtistsResponse)]
       Observer.INITIAL_STATE) = true.
Proof.
  destruct (observer_loading_only_before_first_result
              [(true, 1000, Observer.Resolved emptyArtistsResponse)]) as (_ & H & _).
  apply H. constructor. reflexivity.
Defined.

(** X13.  Applying the same result a second time changes nothing: a repeated
    "nothing playing", a repeated error and a repeated snapshot all leave
    the state as the first application left it. *)
Theorem fetchCurrentTrack_repeat_is_idempotent
    (now : Z) (r : Observer.FetchResult) (prev : Observer.HookState) :
  Observer.fetchCurrentTrack true now r (Observer.fetchCurrentTrack true now r prev)
  = Observer.fetchCurrentTrack true now r prev.
Proof.
  unfold Observer.fetchCurrentTrack.
  set (o := Observer.normalize now r).
  set (p := Observer.beginFetch prev).
  assert (Hi : Observer.initialized (Observer.applyOutcome true o p) = true).
  { unfold Observer.applyOutcome. simpl negb. cbv iota. destruct o as [|t|m].
    - destruct (Observer.initialized p) eqn:E; simpl; [|reflexivity].
      destruct (_ && _ && _); simpl; [exact E | reflexivity].
    - reflexivity.
    - destruct (Observer.optStringEqb (Observer.error p) (Some m)); simpl; [|reflexivity].
      destruct (Observer.isNone (Observer.track p)); simpl; [|reflexivity].
      destruct (Observer.initialized p) eqn:E; simpl; [exact E | reflexivity]. }
  unfold Observer.beginFetch at 1. rewrite Hi.
  unfold Observer.applyOutcome. simpl negb. cbv iota. destruct o as [|t|m].
  - destruct (Observer.initialized p) eqn:E; simpl.
    + destruct (Observer.isNone (Observer.track p) && Observer.isNone (Observer.error p)
                && negb (Observer.isLoading p)) eqn:E2; simpl.
      * rewrite E, E2. reflexivity.
      * reflexivity.
    + reflexivity.
  - reflexivity.
  - destruct (Observer.optStringEqb (Observer.error p) (Some m)
              && Observer.isNone (Observer.track p) && Observer.initialized p) eqn:E; simpl.
    + rewrite E. reflexivity.
    + rewrite String.eqb_refl. reflexivity.
Qed.

(** ** The song counter: reachable states, transitions and projections *)

Section CounterFacts.

Import Counter.

(** [consistent] only depends on the accounting fields, the status and
    the two refs. *)
Lemma consistent_transfer (h h' : Hook) :
  consistent h ->
  songsCompleted (state h') = songsCompleted (state h) ->
  totalElapsedMs (state h') = totalElapsedMs (state h) ->
  lastSong (state h') = lastSong (state h) ->
  (status (state h') = idle -> activeTrackRef h' = None) ->
  (activeTrackRef h' <> None -> lastFinalizedTrackIdRef h' = None) ->
  consistent h'.
Proof.
  intros (H1 & H2 & H3 & _ & _) E1 E2 E3 H4 H5.
  unfold consistent. rewrite E1, E2, E3. tauto.
Qed.

Lemma finalizeActiveTrack_consistent (o : option Z) (h : Hook) :
  consistent h -> consistent (finalizeActiveTrack o h).
Proof.
  intros Hc. destruct (activeTrackRef h) as [snapshot|] eqn:Ha.
  - destruct (finalizeActiveTrack_active o h snapshot Ha) as (Hclr & _ & _ & Hpos & Hzero).
    destruct (Z_lt_le_dec 0 (playedMsOf o snapshot)) as [Hp | Hp].
    + destruct Hc as ((H1 & H1') & H2 & H3 & _ & _).
      unfold consistent. rewrite (Hpos Hp), Hclr. simpl.
      split; [lia|]. split; [split; [lia | discriminate]|].
      split; [intros song E; injection E as <-; simpl; lia|].
      split; [reflexivity | congruence].
    + apply (consistent_transfer h);
        [ exact Hc
        | rewrite (Hzero Hp); reflexivity
        | rewrite (Hzero Hp); reflexivity
        | rewrite (Hzero Hp); reflexivity
        | intros _; exact Hclr
        | rewrite Hclr; congruence ].
  - rewrite finalizeActiveTrack_idle; assumption.
Qed.

Lemma beginTracking_consistent (now : Z) (t : Observer.CurrentTrack) (h : Hook) :
  consistent h -> status (state h) = running -> consistent (beginTracking now t h).
Proof.
  intros Hc Hr.
  apply (consistent_transfer h);
    [ exact Hc | reflexivity | reflexivity | reflexivity
    | simpl; rewrite Hr; discriminate
    | reflexivity ].
Qed.

(** A change of the error, of the busy flag or of nothing at all. *)
Lemma consistent_same_refs (h h' : Hook) :
  consistent h ->
  songsCompleted (state h') = songsCompleted (state h) ->
  totalElapsedMs (state h') = totalElapsedMs (state h) ->
  lastSong (state h') = lastSong (state h) ->
  status (state h') = status (state h) ->
  activeTrackRef h' = activeTrackRef h ->
  lastFinalizedTrackIdRef h' = lastFinalizedTrackIdRef h ->
  consistent h'.
Proof.
  intros Hc E1 E2 E3 E4 E5 E6.
  pose proof Hc as (_ & _ & _ & A4 & A5).
  apply (consistent_transfer h); try assumption; rewrite ?E4, ?E5, ?E6; assumption.
Qed.

Lemma clearError_consistent (h : Hook) : consistent h -> consistent (clearError h).
Proof.
  intros Hc. destruct (clearError_accounting h) as (E1 & E2 & E3).
  apply (consistent_same_refs h); try assumption; try reflexivity.
  unfold clearError. simpl. destruct (error (state h)); reflexivity.
Qed.

Lemma cleared_consistent (h : Hook) (b : bool) (st : SongCounterStatus) :
  consistent h ->
  consistent (withState (setStatus st) (setIsBusy b (withRefs None None h))) /\
  consistent (withRefs None None h).
Proof.
  intros Hc.
  split; (apply (consistent_transfer h);
          [ exact Hc | reflexivity | reflexivity | reflexivity
          | intros _; reflexivity
          | simpl; congruence ]).
Qed.

Lemma stop_consistent (h : Hook) : consistent h -> consistent (stop h).
Proof.
  intros Hc. unfold stop. destruct (status (state h)); [exact Hc|].
  apply (proj1 (cleared_consistent _ false idle (finalizeActiveTrack_consistent None h Hc))).
Qed.

Lemma step_consistent (e : Event) (h : Hook) : consistent h -> consistent (step e h).
Proof.
  intros Hc. destruct e as [now tokens track | | now tokens track | r | now track | tokens | | ];
    simpl.
  - unfold start. destruct (isPlayingTrack track) as [t|].
    + destruct (negb (Auth.hasAccessToken tokens)).
      * apply (consistent_same_refs h); try reflexivity. exact Hc.
      * unfold consistent, beginTracking. simpl.
        split; [lia|]. split; [tauto|]. split; [discriminate|].
        split; [discriminate | reflexivity].
    + apply (consistent_same_refs h); try reflexivity. exact Hc.
  - apply stop_consistent, Hc.
  - unfold skipBefore. destruct (status (state h)) eqn:Es; [exact Hc|].
    set (h1 := match track with
               | Some current => finalizeActiveTrack (Some (getLiveProgress now current)) h
               | None => finalizeActiveTrack None h
               end).
    assert (H1 : consistent h1)
      by (unfold h1; destruct track; apply finalizeActiveTrack_consistent, Hc).
    destruct (negb (Auth.hasAccessToken tokens)); simpl; [exact H1|].
    apply clearError_consistent.
    apply (consistent_same_refs h1); try reflexivity. exact H1.
  - destruct (skipAfterwards_accounting r h) as (E1 & E2 & E3).
    apply (consistent_same_refs h); try assumption; destruct r; reflexivity.
  - unfold onSnapshot. destruct (status (state h)) eqn:Es; [exact Hc|].
    destruct track as [t|].
    + destruct (_ && _); [exact Hc|].
      destruct (activeTrackRef h) as [active|] eqn:Ha.
      * destruct (String.eqb _ _).
        -- pose proof Hc as (_ & _ & _ & _ & A5).
           apply (consistent_transfer h);
             [ exact Hc | reflexivity | reflexivity | reflexivity
             | simpl; rewrite Es; discriminate
             | intros _; simpl; apply A5; rewrite Ha; discriminate ].
        -- apply beginTracking_consistent; [apply finalizeActiveTrack_consistent, Hc|].
           rewrite (proj1 (finalizeActiveTrack_status None h)). exact Es.
      * apply beginTracking_consistent; assumption.
    + apply (proj2 (cleared_consistent _ false idle
                      (finalizeActiveTrack_consistent None h Hc))).
  - unfold credentialEffect. destruct (status (state h)) eqn:Es; [exact Hc|].
    destruct (Auth.hasAccessToken tokens); [exact Hc | apply stop_consistent, Hc].
  - apply clearError_consistent, Hc.
  - apply finalizeActiveTrack_consistent, Hc.
Qed.

Lemma initial_consistent : consistent initial.
Proof.
  unfold consistent. simpl. split; [lia|]. split; [tauto|].
  split; [discriminate|]. split; [reflexivity | congruence].
Qed.

Lemma run_consistent (events : list Event) (h : Hook) :
  consistent h -> consistent (run events h).
Proof.
  revert h; induction events as [|e es IH]; intros h Hc; simpl; [exact Hc|].
  apply IH, step_consistent, Hc.
Qed.

End CounterFacts.

(** X14.  In every state the counter can reach, [songsCompleted] is between 0
    and [totalElapsedMs], a last song is recorded exactly when at least
    one song was counted and its played time is positive and within the
    total, an idle counter tracks nothing, and the marker of the last
    finalized track is never set while a track is being tracked. *)
Theorem counter_reachable_consistent (events : list Counter.Event) :
  let h := Counter.run events Counter.initial in
  0 <= Counter.songsCompleted (Counter.state h) <= Counter.totalElapsedMs (Counter.state h) /\
  (Counter.songsCompleted (Counter.state h) = 0
   <-> Counter.lastSong (Counter.state h) = None) /\
  (forall song, Counter.lastSong (Counter.state h) = Some song ->
     0 < Counter.CompletedSong.durationMs song
       <= Counter.totalElapsedMs (Counter.state h)) /\
  (Counter.status (Counter.state h) = Counter.idle -> Counter.activeTrackRef h = None) /\
  (Counter.activeTrackRef h <> None -> Counter.lastFinalizedTrackIdRef h = None).
Proof. exact (run_consistent events Counter.initial initial_consistent). Qed.

Lemma counter_reachable_consistent_witness :
  Counter.activeTrackRef
    (Counter.run [Counter.EStart 3000 sampleTokens (Some playingAhead); Counter.EStop]
       Counter.initial) = None.
Proof.
  destruct (counter_reachable_consistent
              [Counter.EStart 3000 sampleTokens (Some playingAhead); Counter.EStop])
    as (_ & _ & _ & H & _).
  apply H. reflexivity.
Defined.

(** X15.  The projected progress never runs backwards as the clock advances,
    is never below the reported progress clamped to the track, and does
    not depend on the clock while the track is paused. *)
Theorem getLiveProgress_monotone (now1 now2 : Z) (track : Observer.CurrentTrack) :
  now1 <= now2 ->
  Counter.getLiveProgress now1 track <= Counter.getLiveProgress now2 track /\
  Z.min (Observer.durationMs track) (Z.max 0 (Observer.progressMs track))
    <= Counter.getLiveProgress now1 track /\
  (Observer.isPlaying track = false ->
     Counter.getLiveProgress now1 track = Counter.getLiveProgress now2 track).
Proof.
  intros H. unfold Counter.getLiveProgress.
  destruct (Observer.isPlaying track); (split; [lia|]); (split; [lia|]);
    [discriminate | reflexivity].
Qed.

Lemma getLiveProgress_monotone_witness :
  Counter.getLiveProgress 4000 playingAhead <= Counter.getLiveProgress 9000 playingAhead.
Proof.
  apply (getLiveProgress_monotone 4000 9000 playingAhead). lia.
Defined.

(** X16.  A track that is followed from [start] and then replaced by another:
    the first track is credited with the progress seen last minus the
    progress at [start], exactly once, and the new track is tracked from
    its own live progress with nothing accumulated; without progress
    nothing is counted. *)
Theorem counter_track_transition
    (now0 now1 now2 : Z) (tokens : option Auth.AuthTokens)
    (t t' u : Observer.CurrentTrack) (h : Counter.Hook) :
  Observer.isPlaying t = true -> Auth.hasAccessToken tokens = true ->
  Observer.trackId t' = Observer.trackId t ->
  Observer.trackId u <> Observer.trackId t ->
  let p0 := Counter.getLiveProgress now0 t in
  let p1 := Counter.getLiveProgress now1 t' in
  let h3 := Counter.onSnapshot now2 (Some u)
              (Counter.onSnapshot now1 (Some t')
                 (Counter.start now0 tokens (Some t) h)) in
  Counter.activeTrackRef h3
  = Some {| Counter.ActiveTrackSnapshot.trackId := Observer.trackId u;
            Counter.ActiveTrackSnapshot.trackName := Observer.trackName u;
            Counter.ActiveTrackSnapshot.artistNames := Observer.artistNames u;
            Counter.ActiveTrackSnapshot.durationMs := Observer.durationMs u;
            Counter.ActiveTrackSnapshot.startProgressMs := Counter.getLiveProgress now2 u;
            Counter.ActiveTrackSnapshot.latestProgressMs := Counter.getLiveProgress now2 u |} /\
  Counter.lastFinalizedTrackIdRef h3 = None /\
  Counter.currentElapsedMs h3 = Some 0 /\
  (p0 < p1 ->
     Counter.songsCompleted (Counter.state h3) = 1 /\
     Counter.totalElapsedMs (Counter.state h3) = p1 - p0 /\
     Counter.lastSong (Counter.state h3)
     = Some {| Counter.CompletedSong.trackId := Observer.trackId t;
               Counter.CompletedSong.trackName := Observer.trackName t';
               Counter.CompletedSong.artistNames := Observer.artistNames t';
               Counter.CompletedSong.durationMs := p1 - p0 |}) /\
  (p1 <= p0 ->
     Counter.songsCompleted (Counter.state h3) = 0 /\
     Counter.totalElapsedMs (Counter.state h3) = 0 /\
     Counter.lastSong (Counter.state h3) = None).
Proof.
  intros Hplay Htok Hsame Hdiff. cbv zeta.
  unfold Counter.start, Counter.isPlayingTrack. rewrite Hplay, Htok. simpl negb. cbv iota.
  assert (Hne : String.eqb (Observer.trackId t) (Observer.trackId u) = false).
  { apply String.eqb_neq. congruence. }
  unfold Counter.onSnapshot. simpl.
  rewrite Hsame, String.eqb_refl. simpl. rewrite Hne.
  unfold Counter.finalizeActiveTrack, Counter.playedMsOf. simpl.
  set (p0 := Counter.getLiveProgress now0 t).
  set (p1 := Counter.getLiveProgress now1 t').
  assert (Hp1 : p1 <= Observer.durationMs t')
    by (unfold p1, Counter.getLiveProgress; lia).
  destruct (Z.max 0 (Z.min (Observer.durationMs t') (Z.max p0 p1) - p0) <=? 0) eqn:E.
  - apply Z.leb_le in E. simpl.
    unfold Counter.currentElapsedMs, Counter.whileRunning. simpl. rewrite Z.sub_diag.
    repeat split; try reflexivity; intros; exfalso; lia.
  - apply Z.leb_gt in E. simpl.
    unfold Counter.currentElapsedMs, Counter.whileRunning. simpl. rewrite Z.sub_diag.
    split; [reflexivity|]. split; [reflexivity|]. split; [reflexivity|].
    split; [|intros; exfalso; lia].
    intros Hlt.
    replace (Z.max 0 (Z.min (Observer.durationMs t') (Z.max p0 p1) - p0)) with (p1 - p0)
      by lia.
    unfold Counter.recordOf. simpl. tauto.
Qed.

Lemma counter_track_transition_witness :
  Counter.totalElapsedMs
    (Counter.state
       (Counter.onSnapshot 200000 (Some pausedNoDuration)
          (Counter.onSnapshot 193000 (Some playingAhead)
             (Counter.start 3000 sampleTokens (Some playingAhead) Counter.initial))))
  = 190000.
Proof.
  destruct (counter_track_transition 3000 193000 200000 sampleTokens
              playingAhead playingAhead pausedNoDuration Counter.initial
              eq_refl eq_refl eq_refl ltac:(vm_compute; discriminate))
    as (_ & _ & _ & H & _).
  destruct (H ltac:(vm_compute; reflexivity)) as (_ & E & _).
  rewrite E. reflexivity.
Defined.

(** X17.  After a skip has finalized the active track, later snapshots that
    still report that track are ignored, so the rest of it is not
    counted a second time; the first snapshot of any other track starts
    tracking it from its live progress. *)
Theorem skip_then_same_track_not_recounted
    (now now' : Z) (tokens : option Auth.AuthTokens) (current s : Observer.CurrentTrack)
    (r : Counter.SkipResult) (h : Counter.Hook) (active : Counter.ActiveTrackSnapshot.t) :
  Counter.status (Counter.state h) = Counter.running ->
  Counter.activeTrackRef h = Some active ->
  let skipped := Counter.skip now tokens (Some current) r h in
  Counter.activeTrackRef skipped = None /\
  (Observer.trackId s = Counter.ActiveTrackSnapshot.trackId active ->
     Counter.onSnapshot now' (Some s) skipped = skipped) /\
  (Observer.trackId s <> Counter.ActiveTrackSnapshot.trackId active ->
     Counter.state (Counter.onSnapshot now' (Some s) skipped) = Counter.state skipped /\
     option_map Counter.ActiveTrackSnapshot.startProgressMs
       (Counter.activeTrackRef (Counter.onSnapshot now' (Some s) skipped))
     = Some (Counter.getLiveProgress now' s) /\
     Counter.lastFinalizedTrackIdRef (Counter.onSnapshot now' (Some s) skipped) = None).
Proof.
  intros Hrun Ha. cbv zeta.
  set (fin := Counter.finalizeActiveTrack (Some (Counter.getLiveProgress now current)) h).
  destruct (finalizeActiveTrack_active (Some (Counter.getLiveProgress now current)) h active Ha)
    as (Hclr & Hlast & _ & _ & _). fold fin in Hclr, Hlast.
  assert (Hst : Counter.status (Counter.state fin) = Counter.running).
  { unfold fin. rewrite (proj1 (finalizeActiveTrack_status _ h)). exact Hrun. }
  assert (Hskip : Counter.activeTrackRef (Counter.skip now tokens (Some current) r h) = None /\
                  Counter.lastFinalizedTrackIdRef (Counter.skip now tokens (Some current) r h)
                  = Some (Counter.ActiveTrackSnapshot.trackId active) /\
                  Counter.status (Counter.state (Counter.skip now tokens (Some current) r h))
                  = Counter.running).
  { unfold Counter.skip, Counter.skipBefore. rewrite Hrun. fold fin.
    destruct (negb (Auth.hasAccessToken tokens)); simpl; [tauto|].
    unfold Counter.clearError. simpl.
    destruct r; simpl; destruct (Counter.error (Counter.state fin)); simpl; tauto. }
  set (skipped := Counter.skip now tokens (Some current) r h) in *.
  destruct Hskip as (S1 & S2 & S3).
  split; [exact S1|]. split.
  - intros Hid. unfold Counter.onSnapshot. rewrite S3, S2, S1, Hid. simpl.
    rewrite String.eqb_refl. reflexivity.
  - intros Hid. unfold Counter.onSnapshot. rewrite S3, S2, S1. simpl.
    assert (E : String.eqb (Counter.ActiveTrackSnapshot.trackId active) (Observer.trackId s)
                = false) by (apply String.eqb_neq; congruence).
    rewrite E. simpl. tauto.
Qed.

Lemma skip_then_same_track_not_recounted_witness :
  let skipped :=
    Counter.skip 4000 sampleTokens (Some playingAhead) Counter.SkipRejected sampleCounting in
  Counter.onSnapshot 9000 (Some playingAhead) skipped = skipped.
Proof.
  destruct (skip_then_same_track_not_recounted 4000 9000 sampleTokens playingAhead
              playingAhead Counter.SkipRejected sampleCounting sampleAccumulator
              eq_refl eq_refl) as (_ & H & _).
  apply H. reflexivity.
Defined.

(** X18.  While a track is tracked the three displayed figures are defined and
    not negative, and "after song" is a ceiling for the total: whatever
    progress the accumulator is finalized with, the total does not
    exceed it, and it is reached when the track has been seen to its
    end.  Elapsed and remaining time add up to the part of the track
    that lay ahead at the start when the progress is between start and
    end.  An idle counter shows none of the three. *)
Theorem counter_projection_is_ceiling
    (h : Counter.Hook) (active : Counter.ActiveTrackSnapshot.t) :
  Counter.activeTrackRef h = Some active ->
  Counter.status (Counter.state h) = Counter.running ->
  let start := Counter.ActiveTrackSnapshot.startProgressMs active in
  let latest := Counter.ActiveTrackSnapshot.latestProgressMs active in
  let duration := Counter.ActiveTrackSnapshot.durationMs active in
  let total := Counter.totalElapsedMs (Counter.state h) in
  exists elapsed remaining projected,
    Counter.currentElapsedMs h = Some elapsed /\
    Counter.remainingMs h = Some remaining /\
    Counter.afterSongMs h = Some projected /\
    0 <= elapsed /\ 0 <= remaining /\ total <= projected /\
    (forall o, total <= Counter.totalElapsedMs (Counter.state (Counter.finalizeActiveTrack o h))
               <= projected) /\
    (start <= duration <= latest ->
       Counter.totalElapsedMs (Counter.state (Counter.finalizeActiveTrack None h))
       = projected) /\
    (start <= latest <= duration ->
       elapsed + remaining = duration - start /\ projected = total + elapsed + remaining).
Proof.
  intros Ha Hr. cbv zeta.
  unfold Counter.currentElapsedMs, Counter.remainingMs, Counter.afterSongMs,
    Counter.whileRunning. rewrite Ha, Hr.
  do 3 eexists. split; [reflexivity|]. split; [reflexivity|]. split; [reflexivity|].
  split; [lia|]. split; [lia|]. split; [lia|].
  assert (Hfin : forall o,
             Counter.totalElapsedMs (Counter.state (Counter.finalizeActiveTrack o h))
             = Counter.totalElapsedMs (Counter.state h) + Counter.playedMsOf o active).
  { intros o.
    destruct (finalizeActiveTrack_active o h active Ha) as (_ & _ & _ & Hpos & Hzero).
    pose proof (playedMsOf_nonneg o active).
    destruct (Z_lt_le_dec 0 (Counter.playedMsOf o active)) as [Hp | Hp].
    - rewrite (Hpos Hp). reflexivity.
    - rewrite (Hzero Hp). lia. }
  split; [|split].
  - intros o. rewrite Hfin. unfold Counter.playedMsOf. destruct o; lia.
  - intros H. rewrite Hfin. unfold Counter.playedMsOf. lia.
  - intros H. lia.
Qed.

Lemma counter_projection_is_ceiling_witness :
  Counter.afterSongMs sampleCounting = Some 190000 /\
  Counter.totalElapsedMs (Counter.state (Counter.finalizeActiveTrack None sampleCounting))
  = 190000.
Proof.
  destruct (counter_projection_is_ceiling sampleCounting sampleAccumulator eq_refl eq_refl)
    as (e & r & p & _ & _ & Hp & _ & _ & _ & _ & Hend & _).
  assert (E : p = 190000) by (vm_compute in Hp; congruence).
  split; [rewrite Hp, E; reflexivity|].
  rewrite Hend; [exact E | vm_compute; split; discriminate].
Defined.

(** X19.  [start] succeeds exactly when a track is playing and a credential is
    held: it then resets the totals and tracks the playing track from
    its live progress.  Otherwise it only sets the message that names
    the reason (playback first, then the credential) and leaves the
    totals, the status and the tracked accumulator as they were. *)
Theorem counter_start_outcomes
    (now : Z) (tokens : option Auth.AuthTokens) (track : option Observer.CurrentTrack)
    (h : Counter.Hook) :
  let h' := Counter.start now tokens track h in
  let unchangedButError (message : string) :=
    h' = Counter.withState (Counter.setError (Some message)) h in
  (forall t, track = Some t -> Observer.isPlaying t = true ->
             Auth.hasAccessToken tokens = true ->
     Counter.state h' = {| Counter.status := Counter.running;
                           Counter.songsCompleted := 0; Counter.totalElapsedMs := 0;
                           Counter.lastSong := None; Counter.error := None |} /\
     Counter.lastFinalizedTrackIdRef h' = None /\
     Counter.currentElapsedMs h' = Some 0 /\
     option_map Counter.ActiveTrackSnapshot.startProgressMs (Counter.activeTrackRef h')
     = Some (Counter.getLiveProgress now t) /\
     option_map Counter.ActiveTrackSnapshot.trackId (Counter.activeTrackRef h')
     = Some (Observer.trackId t)) /\
  (track = None \/ (exists t, track = Some t /\ Observer.isPlaying t = false) ->
     unchangedButError "Start playback in Spotify before counting songs."%string) /\
  (forall t, track = Some t -> Observer.isPlaying t = true ->
             Auth.hasAccessToken tokens = false ->
     unchangedButError "Spotify access expired. Reconnect and try again."%string) /\
  (Counter.canStart tokens track h = true ->
     Counter.status (Counter.state h') = Counter.running).
Proof.
  cbv zeta. unfold Counter.start, Counter.isPlayingTrack.
  split; [|split; [|split]].
  - intros t -> Hp Htok. rewrite Hp, Htok. simpl.
    unfold Counter.currentElapsedMs, Counter.whileRunning. simpl.
    rewrite Z.sub_diag. tauto.
  - intros [-> | (t & -> & Hp)]; [reflexivity | rewrite Hp; reflexivity].
  - intros t -> Hp Htok. rewrite Hp, Htok. reflexivity.
  - unfold Counter.canStart. intros H.
    apply andb_true_iff in H. destruct H as [H _].
    apply andb_true_iff in H. destruct H as [Htok Hp].
    destruct track as [t|]; [|discriminate]. rewrite Hp, Htok. reflexivity.
Qed.

Lemma counter_start_outcomes_witness :
  Counter.start 0 None (Some playingAhead) Counter.initial
  = Counter.withState
      (Counter.setError (Some "Spotify access expired. Reconnect and try again."%string))
      Counter.initial.
Proof.
  destruct (counter_start_outcomes 0 None (Some playingAhead) Counter.initial)
    as (_ & _ & H & _).
  apply (H playingAhead eq_refl eq_refl eq_refl).
Defined.

(** X20.  Once stopped, the counter is idle and stays as it is: a second
    [stop], any later snapshot, a skip and the credential effect change
    nothing, and none of the derived figures is shown. *)
Theorem counter_stop_is_final
    (events : list Counter.Event) :
  let stopped := Counter.stop (Counter.run events Counter.initial) in
  Counter.status (Counter.state stopped) = Counter.idle /\
  Counter.activeTrackRef stopped = None /\
  Counter.stop stopped = stopped /\
  (forall now track, Counter.onSnapshot now track stopped = stopped) /\
  (forall now tokens track r, Counter.skip now tokens track r stopped = stopped) /\
  (forall tokens, Counter.credentialEffect tokens stopped = stopped) /\
  Counter.currentElapsedMs stopped = None /\
  Counter.remainingMs stopped = None /\
  Counter.afterSongMs stopped = None.
Proof.
  cbv zeta.
  pose proof (run_consistent events Counter.initial initial_consistent) as Hc.
  set (h := Counter.run events Counter.initial) in *.
  assert (Hs : Counter.status (Counter.state (Counter.stop h)) = Counter.idle).
  { unfold Counter.stop. destruct (Counter.status (Counter.state h)) eqn:E; [exact E|].
    reflexivity. }
  assert (Ha : Counter.activeTrackRef (Counter.stop h) = None).
  { pose proof (stop_consistent h Hc) as (_ & _ & _ & H & _). apply H, Hs. }
  split; [exact Hs|]. split; [exact Ha|].
  split; [unfold Counter.stop at 1; rewrite Hs; reflexivity|].
  split; [intros now track; unfold Counter.onSnapshot; rewrite Hs; reflexivity|].
  split; [intros now tokens track r; unfold Counter.skip, Counter.skipBefore;
          rewrite Hs; reflexivity|].
  split; [intros tokens; unfold Counter.credentialEffect; rewrite Hs; reflexivity|].
  unfold Counter.currentElapsedMs, Counter.remainingMs, Counter.afterSongMs,
    Counter.whileRunning. rewrite Ha. tauto.
Qed.

(** ** The credential: refresh timing, refresh results and start-up *)

(** X21.  A refresh timer set by [scheduleRefresh] is due strictly before the
    credential expires, exactly 60 s before expiry when more than 65 s
    remain; the previous timer never survives a call made in the
    browser, and a credential without refresh token gets no timer and no
    refresh. *)
Theorem scheduleRefresh_before_expiry
    (now : Z) (current : Auth.AuthTokens) (previous : option Auth.RefreshTimer) :
  let result := Auth.scheduleRefresh true now current previous in
  let remaining := Auth.expiresAt current - now in
  (forall timer delay, result = (Some timer, Auth.RefreshAfter delay) ->
     Auth.dueAt timer = now + delay /\
     now < Auth.dueAt timer < Auth.expiresAt current /\
     (65000 <= remaining -> Auth.dueAt timer = Auth.expiresAt current - 60000)) /\
  (Auth.truthyOpt (Auth.refreshToken current) = false -> result = (None, Auth.NoRefresh)) /\
  (fst result = None \/
   fst result = Some {| Auth.dueAt := now + Z.max (remaining - 60000) 5000 |}) /\
  (snd result = Auth.RefreshNow <->
     Auth.truthyOpt (Auth.refreshToken current) = true /\ remaining <= 60000) /\
  Auth.scheduleRefresh false now current previous = (previous, Auth.NoRefresh).
Proof.
  cbv zeta. unfold Auth.scheduleRefresh. simpl negb. cbv iota.
  unfold Auth.REFRESH_BUFFER_MS, Auth.MIN_REFRESH_DELAY_MS.
  destruct (Auth.truthyOpt (Auth.refreshToken current)); simpl negb; cbv iota.
  - destruct (Auth.expiresAt current - now <=? 60000) eqn:E.
    + apply Z.leb_le in E. split; [intros timer delay H; discriminate|].
      split; [discriminate|]. split; [left; reflexivity|]. split; [tauto | reflexivity].
    + apply Z.leb_gt in E.
      split; [intros timer delay H; injection H as <- <-; simpl; lia|].
      split; [discriminate|]. split; [right; reflexivity|].
      split; [|reflexivity]. simpl. split; [discriminate | intros [_ H]; lia].
  - split; [intros timer delay H; discriminate|]. split; [reflexivity|].
    split; [left; reflexivity|]. split; [|reflexivity].
    simpl. split; [discriminate | intros [H _]; discriminate].
Qed.

Lemma scheduleRefresh_before_expiry_witness :
  Auth.dueAt {| Auth.dueAt := 3540000 |} = 0 + 3540000 /\
  0 < Auth.dueAt {| Auth.dueAt := 3540000 |} < 3600000.
Proof.
  destruct (scheduleRefresh_before_expiry 0
              (Auth.mkTokens "a" (Some "r"%string) 3600000 "" "Bearer") None) as (Hd & _).
  destruct (Hd {| Auth.dueAt := 3540000 |} 3540000 eq_refl) as (H1 & H2 & _).
  split; [exact H1 | exact H2].
Defined.

(** X22.  A successful refresh keeps the refresh loop going: the new tokens
    carry the answer's refresh token or, when it has none, the current
    one, they expire [expires_in] seconds (3600 by default) after the
    answer arrived, and scheduling them sets a timer instead of
    refreshing at once whenever more than 60 s were granted.  A refused
    request, or a credential without refresh token, ends with no tokens
    held. *)
Theorem refreshAccessToken_outcomes
    (now : Z) (current : Auth.AuthTokens) (response : Auth.TokenResponse) :
  let result := Auth.refreshAccessToken true now current response in
  let lifetime := Auth.orDefault (Auth.expires_in (Auth.payload response)) 3600 * 1000 in
  (Auth.truthyOpt (Auth.refreshToken current) = true ->
   Auth.response_ok response = true ->
   exists next,
     result = Auth.Refreshed next /\
     Auth.tokensAfterRefresh current result = Some next /\
     Auth.accessToken next = Auth.access_token (Auth.payload response) /\
     Auth.expiresAt next = now + lifetime /\
     (Auth.refresh_token (Auth.payload response) = None ->
        Auth.refreshToken next = Auth.refreshToken current) /\
     (forall r, Auth.refresh_token (Auth.payload response) = Some r ->
        Auth.refreshToken next = Some r) /\
     (Auth.truthyOpt (Auth.refreshToken next) = true -> 60000 < lifetime ->
        forall previous,
          Auth.scheduleRefresh true now next previous
          = (Some {| Auth.dueAt := now + Z.max (lifetime - 60000) 5000 |},
             Auth.RefreshAfter (Z.max (lifetime - 60000) 5000)))) /\
  (Auth.truthyOpt (Auth.refreshToken current) = true ->
   Auth.response_ok response = false ->
   result = Auth.RefreshFailed
              (Auth.orDefault (Auth.error_description (Auth.payload response))
                              "Failed to refresh Spotify token."%string) /\
   Auth.tokensAfterRefresh current result = None) /\
  (Auth.truthyOpt (Auth.refreshToken current) = false ->
   result = Auth.RefreshFailed "No refresh token available"%string /\
   Auth.tokensAfterRefresh current result = None).
Proof.
  cbv zeta.
  set (l := Auth.orDefault (Auth.expires_in (Auth.payload response)) 3600 * 1000).
  assert (Hsched : forall next previous,
             Auth.truthyOpt (Auth.refreshToken next) = true ->
             Auth.expiresAt next = now + l -> 60000 < l ->
             Auth.scheduleRefresh true now next previous
             = (Some {| Auth.dueAt := now + Z.max (l - 60000) 5000 |},
                Auth.RefreshAfter (Z.max (l - 60000) 5000))).
  { intros next previous Hn He Hl. unfold Auth.scheduleRefresh. simpl negb. cbv iota.
    rewrite Hn, He. simpl negb. cbv iota.
    unfold Auth.REFRESH_BUFFER_MS, Auth.MIN_REFRESH_DELAY_MS.
    replace (now + l - now) with l by lia.
    assert (E : (l <=? 60000) = false) by (apply Z.leb_gt; lia).
    rewrite E. reflexivity. }
  unfold Auth.refreshAccessToken. simpl negb. cbv iota.
  split; [|split].
  - intros Hr Hok. rewrite Hr, Hok. simpl negb. cbv iota.
    eexists. split; [reflexivity|]. split; [reflexivity|].
    split; [reflexivity|]. split; [reflexivity|].
    split; [intros ->; reflexivity|]. split; [intros r ->; reflexivity|].
    intros Hn Hl previous. apply Hsched; [exact Hn | reflexivity | exact Hl].
  - intros Hr Hok. rewrite Hr, Hok. simpl. tauto.
  - intros Hr. rewrite Hr. simpl. tauto.
Qed.

Lemma refreshAccessToken_outcomes_witness :
  Auth.tokensAfterRefresh (Auth.mkTokens "a" None 0 "" "Bearer")
    (Auth.refreshAccessToken true 0 (Auth.mkTokens "a" None 0 "" "Bearer")
       (Auth.mkTokenResponse true (Auth.mkTokenPayload "b" None None None None None)))
  = None.
Proof.
  destruct (refreshAccessToken_outcomes 0 (Auth.mkTokens "a" None 0 "" "Bearer")
              (Auth.mkTokenResponse true (Auth.mkTokenPayload "b" None None None None None)))
    as (_ & _ & H).
  destruct (H eq_refl) as [_ E]. exact E.
Defined.

(** X23.  At start-up a stored credential is used as it is only when its
    access token is non-empty and it expires more than 60 s from now, so
    that scheduling it never refreshes at once; otherwise it is
    refreshed first when it has a refresh token and cleared when it has
    none.  A stored item without access token or with an expiry of 0
    counts as no credential, and tokens that were saved are loaded back
    unchanged when they have both. *)
Theorem startup_uses_only_fresh_tokens
    (now : Z) (stored : Auth.StoredCredential) :
  (forall t, Auth.startup true now stored = Auth.UseStored t ->
     Auth.loadTokens true stored = Some t /\
     Auth.truthy (Auth.accessToken t) = true /\
     now + 60000 < Auth.expiresAt t /\
     forall previous, snd (Auth.scheduleRefresh true now t previous) <> Auth.RefreshNow) /\
  (forall t, Auth.startup true now stored = Auth.RefreshFirst t ->
     Auth.expiresAt t <= now + 60000 /\ Auth.truthyOpt (Auth.refreshToken t) = true) /\
  (Auth.startup true now stored = Auth.ClearStorage ->
     exists t, Auth.loadTokens true stored = Some t /\
               Auth.expiresAt t <= now + 60000 /\
               Auth.truthyOpt (Auth.refreshToken t) = false) /\
  (forall t, Auth.loadTokens true stored = Some t ->
     Auth.truthy (Auth.accessToken t) = true /\ Auth.expiresAt t <> 0) /\
  (forall t, Auth.truthy (Auth.accessToken t) = true -> Auth.expiresAt t <> 0 ->
     Auth.loadTokens true (Auth.savedTokens t) = Some t).
Proof.
  assert (Hload : forall t, Auth.loadTokens true stored = Some t ->
                            Auth.truthy (Auth.accessToken t) = true /\ Auth.expiresAt t <> 0).
  { intros t H. unfold Auth.loadTokens in H. simpl negb in H. cbv iota in H.
    destruct stored as [| |[parsed|]]; try discriminate.
    destruct (Auth.raw_accessToken parsed) as [a|]; [|discriminate].
    destruct (Auth.raw_expiresAt parsed) as [e|]; [|discriminate].
    destruct (Auth.truthy a) eqn:Ea; simpl in H; [|discriminate].
    destruct (e =? 0) eqn:Ee; [discriminate|].
    injection H as <-. simpl. split; [exact Ea | apply Z.eqb_neq, Ee]. }
  unfold Auth.startup. simpl negb. cbv iota. unfold Auth.REFRESH_BUFFER_MS.
  destruct (Auth.loadTokens true stored) as [t0|] eqn:El.
  - destruct (now + 60000 <? Auth.expiresAt t0) eqn:Ef.
    + apply Z.ltb_lt in Ef.
      split.
      { intros t H. injection H as <-. split; [reflexivity|].
        split; [apply (Hload t0 eq_refl)|]. split; [exact Ef|].
        intros previous. unfold Auth.scheduleRefresh. simpl negb. cbv iota.
        destruct (negb (Auth.truthyOpt (Auth.refreshToken t0))); [simpl; discriminate|].
        unfold Auth.REFRESH_BUFFER_MS.
        assert (E : (Auth.expiresAt t0 - now <=? 60000) = false) by (apply Z.leb_gt; lia).
        rewrite E. simpl. discriminate. }
      split; [intros t H; discriminate|]. split; [discriminate|].
      split; [exact Hload|].
      intros t Ha He. unfold Auth.loadTokens, Auth.savedTokens. simpl.
      rewrite Ha. apply Z.eqb_neq in He. rewrite He. simpl. destruct t; reflexivity.
    + apply Z.ltb_ge in Ef.
      destruct (Auth.truthyOpt (Auth.refreshToken t0)) eqn:Er.
      * split; [intros t H; discriminate|].
        split; [intros t H; injection H as <-; split; [lia | exact Er]|].
        split; [discriminate|]. split; [exact Hload|].
        intros t Ha He. unfold Auth.loadTokens, Auth.savedTokens. simpl.
        rewrite Ha. apply Z.eqb_neq in He. rewrite He. simpl. destruct t; reflexivity.
      * split; [intros t H; discriminate|]. split; [intros t H; discriminate|].
        split; [intros _; exists t0; split; [reflexivity | split; [lia | exact Er]]|].
        split; [exact Hload|].
        intros t Ha He. unfold Auth.loadTokens, Auth.savedTokens. simpl.
        rewrite Ha. apply Z.eqb_neq in He. rewrite He. simpl. destruct t; reflexivity.
  - split; [intros t H; discriminate|]. split; [intros t H; discriminate|].
    split; [discriminate|]. split; [exact Hload|].
    intros t Ha He. unfold Auth.loadTokens, Auth.savedTokens. simpl.
    rewrite Ha. apply Z.eqb_neq in He. rewrite He. simpl. destruct t; reflexivity.
Qed.

Lemma startup_uses_only_fresh_tokens_witness :
  Auth.loadTokens true (Auth.savedTokens (Auth.mkTokens "a" None 3600000 "" "Bearer"))
  = Some (Auth.mkTokens "a" None 3600000 "" "Bearer").
Proof.
  destruct (startup_uses_only_fresh_tokens 0 Auth.CredentialAbsent) as (_ & _ & _ & _ & H).
  apply H; [reflexivity | discriminate].
Defined.

(** ** The authorization flow *)

Lemma get_in_string (s : string) :
  forall i, (i < String.length s)%nat ->
            exists c, String.get i s = Some c /\ In c (list_ascii_of_string s).
Proof.
  induction s as [|a s IH]; intros i Hi; simpl in Hi; [lia|].
  destruct i as [|i]; simpl.
  - exists a. split; [reflexivity | left; reflexivity].
  - destruct (IH i ltac:(lia)) as (c & Hg & Hin). exists c. split; [exact Hg | right; exact Hin].
Qed.

Lemma charFor_in_charset (value : nat) :
  exists c, Pkce.charFor value = String c EmptyString /\
            In c (list_ascii_of_string Pkce.PKCE_CHARSET).
Proof.
  unfold Pkce.charFor.
  destruct (get_in_string Pkce.PKCE_CHARSET (value mod String.length Pkce.PKCE_CHARSET))
    as (c & Hg & Hin).
  - apply Nat.mod_upper_bound. vm_compute. discriminate.
  - rewrite Hg. exists c. split; [reflexivity | exact Hin].
Qed.

Lemma concat_single_chars (P : Ascii.ascii -> Prop) (f : nat -> string) :
  (forall x, exists c, f x = String c EmptyString /\ P c) ->
  forall values,
    String.length (String.concat EmptyString (map f values)) = List.length values /\
    Forall P (list_ascii_of_string (String.concat EmptyString (map f values))).
Proof.
  intros Hf. induction values as [|x rest IH]; simpl; [split; [reflexivity | constructor]|].
  destruct (Hf x) as (c & Hc & Hp). rewrite Hc.
  destruct rest as [|y rest'].
  - simpl. split; [reflexivity | repeat constructor; exact Hp].
  - destruct IH as [IH1 IH2]. simpl in IH1, IH2 |- *.
    split; [rewrite IH1; reflexivity | constructor; [exact Hp | exact IH2]].
Qed.

Lemma concat_chars (values : list nat) :
  let v := String.concat EmptyString (map Pkce.charFor values) in
  String.length v = List.length values /\
  Forall (fun c => In c (list_ascii_of_string Pkce.PKCE_CHARSET)) (list_ascii_of_string v).
Proof.
  apply (concat_single_chars
           (fun c => In c (list_ascii_of_string Pkce.PKCE_CHARSET)) Pkce.charFor).
  intros x. apply charFor_in_charset.
Qed.

(** X24.  [generateCodeVerifier] refuses every length outside 43..128; for a
    length within, it returns a verifier with one character per random
    byte, hence of the requested length, all taken from the 66 unreserved
    characters of [PKCE_CHARSET]. *)
Theorem generateCodeVerifier_wellformed (length : Z) (randomValues : list nat) :
  (43 <= length <= 128 ->
   Z.of_nat (List.length randomValues) = length ->
   exists verifier,
     Pkce.generateCodeVerifier length randomValues = inr verifier /\
     Z.of_nat (String.length verifier) = length /\
     Forall (fun c => In c (list_ascii_of_string Pkce.PKCE_CHARSET))
            (list_ascii_of_string verifier)) /\
  (length < 43 \/ 128 < length ->
   Pkce.generateCodeVerifier length randomValues
   = inl "PKCE code verifier length must be between 43 and 128 characters."%string).
Proof.
  unfold Pkce.generateCodeVerifier. split.
  - intros Hl Hn.
    assert (E : (length <? 43) || (128 <? length) = false).
    { apply orb_false_iff. split; [apply Z.ltb_ge | apply Z.ltb_ge]; lia. }
    rewrite E. eexists. split; [reflexivity|].
    destruct (concat_chars randomValues) as [H1 H2]. split; [lia | exact H2].
  - intros Hl.
    assert (E : (length <? 43) || (128 <? length) = true).
    { apply orb_true_iff. destruct Hl; [left; apply Z.ltb_lt | right; apply Z.ltb_lt]; lia. }
    rewrite E. reflexivity.
Qed.

Lemma generateCodeVerifier_wellformed_witness :
  exists verifier,
    Pkce.generateCodeVerifier 43 (repeat 200%nat 43) = inr verifier /\
    Z.of_nat (String.length verifier) = 43.
Proof.
  destruct (generateCodeVerifier_wellformed 43 (repeat 200%nat 43)) as [H _].
  destruct (H ltac:(lia) eq_refl) as (v & Hv & Hl & _).
  exists v. split; assumption.
Defined.

(** X25.  The callback page exchanges the code only when the provider reported
    no error, a code and a stored verifier are present, and the returned
    state is non-empty and equal to the stored one; in that case it
    exchanges exactly that code with that verifier. *)
Theorem callback_exchange_requires_matching_state
    (callbackError code state verifier storedState : option string) (c v : string) :
  Callback.decide callbackError code state verifier storedState = Callback.Exchange c v
  <-> Auth.truthyOpt callbackError = false /\
      code = Some c /\ Auth.truthy c = true /\
      verifier = Some v /\ Auth.truthy v = true /\
      exists s, state = Some s /\ storedState = Some s /\ Auth.truthy s = true.
Proof.
  unfold Callback.decide. split.
  - destruct (Auth.truthyOpt callbackError); [discriminate|].
    destruct code as [c0|]; simpl; [|discriminate].
    destruct (Auth.truthy c0) eqn:Ec; simpl; [|discriminate].
    destruct verifier as [v0|]; simpl; [|discriminate].
    destruct (Auth.truthy v0) eqn:Ev; simpl; [|discriminate].
    destruct state as [s|]; simpl; [|discriminate].
    destruct (Auth.truthy s) eqn:Es; simpl; [|discriminate].
    destruct storedState as [s'|]; simpl; [|discriminate].
    destruct (Auth.truthy s') eqn:Es'; simpl; [|discriminate].
    destruct (String.eqb s s') eqn:E; simpl; [|discriminate].
    intros H. injection H as <- <-. apply String.eqb_eq in E. subst s'.
    repeat split; try assumption. exists s. tauto.
  - intros (He & -> & Hc & -> & Hv & s & -> & -> & Hs).
    rewrite He. simpl. rewrite Hc, Hv, Hs. simpl. rewrite String.eqb_refl. reflexivity.
Qed.

Lemma callback_exchange_requires_matching_state_witness :
  Callback.decide None (Some "code"%string) (Some "xyz"%string) (Some "ver"%string)
    (Some "xyz"%string)
  = Callback.Exchange "code" "ver".
Proof.
  apply (callback_exchange_requires_matching_state None (Some "code"%string)
           (Some "xyz"%string) (Some "ver"%string) (Some "xyz"%string) "code" "ver").
  repeat split. exists "xyz"%string. repeat split.
Defined.
